(** * wrap2025: identity resolution and the call analytics engine

    A shallow embedding of the identifier normaliser, the identity
    resolvers and the call metrics engine of the wrap2025 scripts
    ([call_wrapped.py], [combined_wrapped.py], [people_wrapped.py],
    [localbrief.py]), followed by the properties established about them.

    Conventions of the embedding:
    - Python [str] values are [string]s over ASCII; [\d] and [isalpha] are
      read on ASCII characters.
    - [None] is [None]; a value that may be [None] has an [option] type.
    - timestamps and durations are whole seconds in [Z].
    - a [float] is the rational it denotes. Where the code rounds a
      float (the average callback time and the daily average), every
      operation on the way is rounded as on a binary64 ([to_float]: a
      53-bit significand, ties to even). The exponent range is not
      bounded: overflow and subnormal numbers need magnitudes that no
      count of calls and no 64-bit timestamp reaches. A ratio that the
      code only compares with a threshold or sorts by is kept as the
      exact rational, in lowest terms.
    - the state of the process that the code reads without receiving it
      as an argument (wall clock, local time zone, string hash) is the
      explicit argument [env].
    - a [dict] that is only looked up is a [gmap]; a [dict] whose
      insertion order is observed (iteration, stable sorting, [max]) is an
      association list kept in insertion order.
    - operations that raise in Python ([max] and [min] of an empty
      sequence, division by zero) return in the [result] type. *)

From Stdlib Require Import ZArith QArith Qround Qabs Qpower.
From Stdlib Require Import String Ascii List Lia Bool.
From Stdlib Require Import Sorted Permutation Lqa.
From stdpp Require Import gmap strings list.

Local Open Scope string_scope.
Local Open Scope list_scope.
Local Open Scope Z_scope.

(** ** Python primitives *)

Module Py.

Inductive exn := ValueError | ZeroDivisionError.

Inductive result (A : Type) :=
| Ok (a : A)
| Raise (e : exn).
Arguments Ok {A} a.
Arguments Raise {A} e.

Definition bind {A B} (m : result A) (k : A -> result B) : result B :=
  match m with
  | Ok a => k a
  | Raise e => Raise e
  end.

(** *** Strings *)

Definition len (s : string) : Z := Z.of_nat (String.length s).

Definition is_digit (c : ascii) : bool :=
  let n := Z.of_nat (nat_of_ascii c) in (48 <=? n) && (n <=? 57).

Definition is_alpha (c : ascii) : bool :=
  let n := Z.of_nat (nat_of_ascii c) in
  ((65 <=? n) && (n <=? 90)) || ((97 <=? n) && (n <=? 122)).

(** [str.isspace] on an ASCII character: space, tab to carriage return,
    and the four separators 0x1c-0x1f. *)
Definition is_space (c : ascii) : bool :=
  let n := Z.of_nat (nat_of_ascii c) in
  (n =? 32) || ((9 <=? n) && (n <=? 13)) || ((28 <=? n) && (n <=? 31)).

(** [re.sub(r'\D', '', s)] and [re.sub(r'[^\d]', '', s)]. *)
Fixpoint digits_of (s : string) : string :=
  match s with
  | EmptyString => EmptyString
  | String c r => if is_digit c then String c (digits_of r) else digits_of r
  end.

(** [s[lo:hi]], with Python's treatment of negative and out-of-range
    bounds; [None] is an omitted bound. *)
Definition slice (lo hi : option Z) (s : string) : string :=
  let n := len s in
  let clamp i := if i <? 0 then Z.max (n + i) 0 else Z.min i n in
  let a := match lo with Some i => clamp i | None => 0 end in
  let b := match hi with Some i => clamp i | None => n end in
  if a <? b then substring (Z.to_nat a) (Z.to_nat (b - a)) s else "".

Definition startswith (p s : string) : bool := String.prefix p s.

(** [c in s] for a one-character [c]. *)
Fixpoint contains (c : ascii) (s : string) : bool :=
  match s with
  | EmptyString => false
  | String x r => Ascii.eqb x c || contains c r
  end.

(** [s.split(c)[0]]. *)
Fixpoint before (c : ascii) (s : string) : string :=
  match s with
  | EmptyString => EmptyString
  | String x r => if Ascii.eqb x c then EmptyString else String x (before c r)
  end.

Fixpoint any (p : ascii -> bool) (s : string) : bool :=
  match s with
  | EmptyString => false
  | String x r => p x || any p r
  end.

Definition lower_char (c : ascii) : ascii :=
  let n := nat_of_ascii c in
  if (65 <=? Z.of_nat n) && (Z.of_nat n <=? 90)
  then ascii_of_nat (n + 32) else c.

Fixpoint lower (s : string) : string :=
  match s with
  | EmptyString => EmptyString
  | String x r => String (lower_char x) (lower r)
  end.

Fixpoint lstrip (s : string) : string :=
  match s with
  | EmptyString => EmptyString
  | String x r => if is_space x then lstrip r else s
  end.

Fixpoint rstrip (s : string) : string :=
  match s with
  | EmptyString => EmptyString
  | String x r =>
      match rstrip r with
      | EmptyString => if is_space x then EmptyString else String x EmptyString
      | r' => String x r'
      end
  end.

Definition strip (s : string) : string := rstrip (lstrip s).

(** Truth value of an optional string: [None] and [''] are false. *)
Definition truthy (o : option string) : bool :=
  match o with
  | Some (String _ _) => true
  | _ => false
  end.

(** [str(x)] on a value known to be a string. *)
Definition str (o : option string) : string := default "" o.

Definition orelse {A} (a b : option A) : option A :=
  match a with
  | Some _ => a
  | None => b
  end.

(** *** Sequences *)

(** [for x in l: acc = f(acc, x)] over a body that may raise. *)
Fixpoint foldM {A B} (f : B -> A -> result B) (b : B) (l : list A)
    : result B :=
  match l with
  | [] => Ok b
  | x :: r => bind (f b x) (fun b' => foldM f b' r)
  end.

(** [sum(1 for x in l if p(x))]. *)
Definition count_if {A} (p : A -> bool) (l : list A) : Z :=
  Z.of_nat (length (List.filter p l)).

(** [sum(f(x) for x in l)]. *)
Definition sum {A} (f : A -> Z) (l : list A) : Z :=
  foldl (fun acc x => acc + f x) 0 l.

(** [list.sort] and [sorted] are stable. [le x y] says that [x] may
    stand before [y]; an element is inserted in front of the elements
    that followed it in the input and compare equal to it. *)
Fixpoint insert_sorted {A} (le : A -> A -> bool) (x : A) (l : list A)
    : list A :=
  match l with
  | [] => [x]
  | y :: r => if le x y then x :: y :: r else y :: insert_sorted le x r
  end.

Definition sorted {A} (le : A -> A -> bool) (l : list A) : list A :=
  foldr (insert_sorted le) [] l.

(** [sorted(l, key=key)]. *)
Definition sorted_by {A} (key : A -> Z) : list A -> list A :=
  sorted (fun x y => key x <=? key y).

(** [sorted(l, key=key, reverse=True)]: equal keys keep their order. *)
Definition sorted_by_desc {A} (key : A -> Z) : list A -> list A :=
  sorted (fun x y => key y <=? key x).

(** [max(l, key=key)]: the first maximal element; [ValueError] on an
    empty sequence. *)
Fixpoint max_from {A} (key : A -> Z) (best : A) (l : list A) : A :=
  match l with
  | [] => best
  | x :: r => max_from key (if key best <? key x then x else best) r
  end.

Definition max_by {A} (key : A -> Z) (l : list A) : result A :=
  match l with
  | [] => Raise ValueError
  | x :: r => Ok (max_from key x r)
  end.

(** [min(l)] on numbers. *)
Definition min_of (l : list Z) : result Z :=
  match l with
  | [] => Raise ValueError
  | x :: r => Ok (foldl Z.min x r)
  end.

(** *** Insertion-ordered dictionaries *)

Definition dict (K V : Type) : Type := list (K * V).

Section Dict.
Context {K V : Type} `{EqDecision K}.

Fixpoint dict_get (k : K) (d : dict K V) : option V :=
  match d with
  | [] => None
  | (k', v) :: r => if decide (k = k') then Some v else dict_get k r
  end.

(** [d[k] = f(d[k])] on a [defaultdict] whose factory yields [dflt]:
    an existing entry is updated in place, a new one goes last. *)
Fixpoint dict_update (k : K) (f : V -> V) (dflt : V) (d : dict K V)
    : dict K V :=
  match d with
  | [] => [(k, f dflt)]
  | (k', v) :: r =>
      if decide (k = k') then (k', f v) :: r
      else (k', v) :: dict_update k f dflt r
  end.

(** [d[k] = v]. *)
Definition dict_set (k : K) (v : V) (d : dict K V) : dict K V :=
  dict_update k (fun _ => v) v d.

(** [d.get(k, dflt)]. *)
Definition dict_get_default (k : K) (dflt : V) (d : dict K V) : V :=
  default dflt (dict_get k d).
End Dict.

(** [for x in l: if p(x): d[key(x)] += 1] on a [defaultdict(int)]. *)
Definition count_by {A K} `{EqDecision K} (p : A -> bool) (key : A -> K)
    (l : list A) : dict K Z :=
  foldl (fun d x => if p x then dict_update (key x) (fun n => n + 1) 0 d
                    else d) [] l.

(** *** Ambient state read by the engine *)

(** The state of the process that is not an argument of the functions:
    the wall clock ([datetime.now()], in seconds), the offset of local
    time from UTC at an instant (used by [datetime.fromtimestamp]) and
    the string hash of the process, which fixes the iteration order of
    a [set] of strings; and the interpreter's [sum] on floats, which
    adds from left to right before CPython 3.12 and carries Neumaier's
    compensation term since. *)
Record Env := {
  clock : Z;
  utcoff : Z -> Z;
  str_hash : string -> Z;
  sum_compensated : bool
}.

(** *** Sets of strings *)

(** A set is kept as the list of its distinct members in insertion
    order. Iteration order is fixed by the hash of the process, not by
    the program: the members are visited by ascending hash, in insertion
    order among equal hashes. *)
Definition set_add (x : string) (s : list string) : list string :=
  if bool_decide (x ∈ s) then s else s ++ [x].

Definition set_iter (env : Env) (s : list string) : list string :=
  sorted_by (str_hash env) s.

(** [set(l)] followed by [sorted]: the distinct values, ascending. *)
Fixpoint distinct (l : list Z) : list Z :=
  match l with
  | [] => []
  | x :: r => if bool_decide (x ∈ r) then distinct r else x :: distinct r
  end.

(** *** Local time *)

(** [datetime.fromtimestamp(ts)], as local seconds since the epoch. *)
Definition localtime (env : Env) (ts : Z) : Z := ts + utcoff env ts.

(** [.hour]. *)
Definition hour (env : Env) (ts : Z) : Z :=
  (localtime env ts mod 86400) / 3600.

(** [.strftime('%Y-%m-%d')]: the calendar date, kept as the number of
    the local day since 1970-01-01. The rendering is one-to-one and
    order preserving, and consecutive dates are consecutive numbers. *)
Definition date (env : Env) (ts : Z) : Z := localtime env ts / 86400.

(** [int(.strftime('%w'))]: Sunday is 0. *)
Definition wday (env : Env) (ts : Z) : Z := (date env ts + 4) mod 7.

(** [.weekday()]: Monday is 0. *)
Definition weekday (env : Env) (ts : Z) : Z := (date env ts + 3) mod 7.

(** The month (1-12) of a day number in the proleptic Gregorian
    calendar. *)
Definition month_of_day (days : Z) : Z :=
  let z := days + 719468 in
  let era := z / 146097 in
  let doe := z - era * 146097 in
  let yoe := (doe - doe / 1460 + doe / 36524 - doe / 146096) / 365 in
  let doy := doe - (365 * yoe + yoe / 4 - yoe / 100) in
  let mp := (5 * doy + 2) / 153 in
  if mp <? 10 then mp + 3 else mp - 9.

Definition month_abbr : list string :=
  ["Jan"; "Feb"; "Mar"; "Apr"; "May"; "Jun";
   "Jul"; "Aug"; "Sep"; "Oct"; "Nov"; "Dec"].

(** [.strftime('%b')]. *)
Definition month (env : Env) (ts : Z) : string :=
  nth (Z.to_nat (month_of_day (date env ts) - 1)) month_abbr "".

(** *** Rationals for true division *)

(** [a / b] on integers. *)
Definition truediv (a b : Z) : result Q :=
  if b =? 0 then Raise ZeroDivisionError
  else Ok (Qred (inject_Z a / inject_Z b)).

Definition Qlt_bool (a b : Q) : bool := negb (Qle_bool b a).

(** [round(x)]: to the nearest integer, ties to the even one. *)
Definition round (x : Q) : Z :=
  let f := Qfloor x in
  let r := (x - inject_Z f)%Q in
  if Qlt_bool r (1 # 2) then f
  else if Qlt_bool (1 # 2) r then f + 1
  else if Z.even f then f else f + 1.

(** *** Binary floating point *)

Definition pow2 (e : Z) : Q := Qpower (2 # 1) e.

(** For [0 < q], the exponent [e] with [2^e <= q < 2^(e+1)]. *)
Definition binade (q : Q) : Z :=
  let e0 := Z.log2 (Qnum q) - Z.log2 (Zpos (Qden q)) in
  if Qle_bool (pow2 e0) q then e0 else e0 - 1.

(** For [0 < q], the nearest multiple of the unit in the last of 53
    binary places, ties to the even multiple. *)
Definition round_significand (q : Q) : Q :=
  let u := pow2 (binade q - 52) in
  (inject_Z (round (q / u)) * u)%Q.

(** The float nearest to a rational: the result of every float
    operation, and of the conversion of an [int]. *)
Definition to_float (q : Q) : Q :=
  match Qnum q with
  | Z0 => (0 # 1)%Q
  | Zpos _ => Qred (round_significand q)
  | Zneg _ => Qred (- round_significand (- q))
  end.

Definition fadd (a b : Q) : Q := to_float (a + b).
Definition fsub (a b : Q) : Q := to_float (a - b).

(** [a / b] on integers, as a float: the quotient rounded once. *)
Definition float_div (a b : Z) : result Q :=
  if b =? 0 then Raise ZeroDivisionError
  else Ok (to_float (inject_Z a / inject_Z b)).

(** [a / b] for a float [a] and an integer [b], which is converted to a
    float first. *)
Definition float_div_int (a : Q) (b : Z) : result Q :=
  if b =? 0 then Raise ZeroDivisionError
  else Ok (to_float (a / to_float (inject_Z b))).

(** [round(x, 1)] on a float: the decimal nearest to the value of [x]
    with one place, ties to the even digit, and the float nearest to
    that decimal. *)
Definition round1 (x : Q) : Q :=
  to_float (inject_Z (round (x * inject_Z 10)) / inject_Z 10).

(** [sum(l)] on floats, from left to right. The start value is the
    integer 0, to which the first float is added. *)
Definition sum_naive (l : list Q) : Q := foldl fadd (0 # 1)%Q l.

(** One turn of the float loop of [sum] since CPython 3.12, on the
    running sum and the compensation. *)
Definition neumaier_step (st : Q * Q) (x : Q) : Q * Q :=
  let t := fadd st.1 x in
  let c := if Qle_bool (Qabs x) (Qabs st.1)
           then fadd st.2 (fadd (fsub st.1 t) x)
           else fadd st.2 (fadd (fsub x t) st.1) in
  (t, c).

Definition sum_neumaier (l : list Q) : Q :=
  match l with
  | [] => (0 # 1)%Q
  | x :: r =>
      let st := foldl neumaier_step (fadd (0 # 1) x, (0 # 1)%Q) r in
      fadd st.1 st.2
  end.

(** [sum(l)] on a list of floats. *)
Definition fsum (env : Env) (l : list Q) : Q :=
  if sum_compensated env then sum_neumaier l else sum_naive l.

End Py.

Notation "'let*' x ':=' m 'in' k" := (Py.bind m (fun x => k))
  (at level 10, x name, m at level 100, k at level 200).

(** ** call_wrapped.py: normaliser, directory and resolver *)

Module CallWrapped.
Import Py.

Definition MAC_EPOCH : Z := 978307200.

Definition normalize_phone (phone : option string) : option string :=
  if negb (truthy phone) then None else
  let digits := digits_of (str phone) in
  if (len digits =? 11) && startswith "1" digits then
    let digits := slice (Some 1) None digits in
    if 10 <=? len digits then Some (slice (Some (-10)) None digits)
    else if 7 <=? len digits then Some digits else None
  else if 10 <? len digits then
    Some (slice (Some (-10)) None digits)
  else
    if 10 <=? len digits then Some (slice (Some (-10)) None digits)
    else if 7 <=? len digits then Some digits else None.

(** The keys [extract_contacts] stores for one [ZFULLNUMBER] value, in
    the order of its assignments (lines 94-102). *)
Definition contact_keys (phone : string) : list string :=
  let digits := digits_of phone in
  if negb (truthy (Some digits)) then [] else
    [digits]
    ++ (if 10 <=? len digits then [slice (Some (-10)) None digits] else [])
    ++ (if 7 <=? len digits then [slice (Some (-7)) None digits] else [])
    ++ (if (len digits =? 11) && startswith "1" digits
        then [slice (Some 1) None digits] else []).

(** One iteration of the phone-number loop of [extract_contacts]:
    every key of the number is bound to the owner's name. *)
Definition add_contact (contacts : gmap string string)
    (name phone : string) : gmap string string :=
  foldl (fun m k => <[k := name]> m) contacts (contact_keys phone).

(** The phone-number loop over the [(name, phone)] rows of one address
    book whose owner is known. *)
Definition extract_contacts (rows : list (string * string))
    : gmap string string :=
  foldl (fun m r => add_contact m r.1 r.2) ∅ rows.

Definition is_toll_free (p : string) : bool :=
  existsb (String.eqb p) ["800"; "888"; "877"; "866"; "855"; "844"; "833"].

(** A lookup tier: [if cond and key in contacts: return contacts[key]]. *)
Definition tier (cond : bool) (key : string)
    (contacts : gmap string string) : option string :=
  if cond then contacts !! key else None.

Definition get_name (phone : option string)
    (contacts : gmap string string) : option string :=
  if negb (truthy phone) then None else
  let digits := digits_of (str phone) in
  if (5 <=? len digits) && (len digits <=? 6) then None else
  if (10 <=? len digits)
     && is_toll_free (slice (Some (-10)) (Some (-7)) digits) then None else
  orelse (contacts !! digits)
 (orelse (tier ((len digits =? 11) && startswith "1" digits)
               (slice (Some 1) None digits) contacts)
 (orelse (tier (10 <=? len digits) (slice (Some (-10)) None digits) contacts)
         (tier (7 <=? len digits) (slice (Some (-7)) None digits) contacts))).

(** *** Call records and their extraction *)

(** The dictionary built for each call by the two extractors. *)
Record Call := {
  c_name : string;
  c_phone : option string;
  c_duration : Z;
  c_timestamp : Z;
  c_outgoing : bool;
  c_answered : bool;
  c_platform : string;
  c_is_video : bool
}.

(** A row of the [ZCALLRECORD] query of [analyze_phone_calls]; the
    query itself (date range, ordering) is run by the caller's
    database. An integer column that is [NULL] behaves like any value
    different from the constants it is compared with. *)
Record PhoneRow := {
  ZADDRESS : option string;
  ZDURATION : option Z;
  ZDATE : Z;
  ZORIGINATED : Z;
  ZANSWERED : Z;
  ZCALLTYPE : Z
}.

Definition analyze_phone_calls (rows : list PhoneRow)
    (contacts : gmap string string) : list Call :=
  flat_map (fun row =>
    let name := get_name (ZADDRESS row) contacts in
    if negb (truthy name) then [] else
    let facetime := (ZCALLTYPE row =? 8) || (ZCALLTYPE row =? 16) in
    [ {| c_name := str name;
         c_phone := normalize_phone (ZADDRESS row);
         c_duration := default 0 (ZDURATION row);
         c_timestamp := ZDATE row + MAC_EPOCH;
         c_outgoing := ZORIGINATED row =? 1;
         c_answered := ZANSWERED row =? 1;
         c_platform := if facetime then "FaceTime" else "Phone";
         c_is_video := if facetime then ZCALLTYPE row =? 16 else false |} ])
    rows.

(** A row of the [ZWACDCALLEVENT] query of [analyze_whatsapp_calls]. *)
Record WhatsAppRow := {
  W_ZDURATION : option Z;
  W_ZDATE : Z;
  W_ZOUTCOME : Z;
  W_ZJIDSTRING : option string
}.

(** [wa_contacts] is the push-name table the function reads first. *)
Definition analyze_whatsapp_calls (rows : list WhatsAppRow)
    (wa_contacts contacts : gmap string string) : list Call :=
  flat_map (fun row =>
    let jid := W_ZJIDSTRING row in
    let phone := if truthy jid then Some (before "@" (str jid)) else None in
    let name := match jid with
                | Some j => wa_contacts !! j
                | None => None
                end in
    let name := if negb (truthy name) && truthy phone
                then get_name phone contacts else name in
    if negb (truthy name) then [] else
    [ {| c_name := str name;
         c_phone := normalize_phone phone;
         c_duration := default 0 (W_ZDURATION row);
         c_timestamp := W_ZDATE row + MAC_EPOCH;
         c_outgoing := true;
         c_answered := 0 <? default 0 (W_ZDURATION row);
         c_platform := "WhatsApp";
         c_is_video := false |} ])
    rows.

(** *** The metrics engine, [analyze_calls] *)

Definition all_calls (phone_calls whatsapp_calls : list Call) : list Call :=
  sorted_by c_timestamp (phone_calls ++ whatsapp_calls).

Record BasicStats := {
  st_total : Z;
  st_outgoing : Z;
  st_incoming : Z;
  st_answered : Z;
  st_missed : Z;
  st_total_duration : Z
}.

(** A value of [phone_stats]. *)
Record Stats := {
  cs_count : Z;
  cs_duration : Z;
  cs_outgoing : Z;
  cs_incoming : Z;
  cs_answered : Z;
  cs_missed : Z;
  cs_platforms : list string;
  cs_names : list string
}.

(** A value of [contact_stats]: [platforms] turned into a list and
    [names] deleted. *)
Record ContactStats := {
  count : Z;
  duration : Z;
  outgoing : Z;
  incoming : Z;
  answered : Z;
  missed : Z;
  platforms_list : list string
}.

Definition new_stats : Stats :=
  {| cs_count := 0; cs_duration := 0; cs_outgoing := 0; cs_incoming := 0;
     cs_answered := 0; cs_missed := 0; cs_platforms := []; cs_names := [] |}.

Definition platform_stats (calls : list Call) : dict string (Z * Z) :=
  foldl (fun d c =>
           dict_update (c_platform c)
             (fun s => (s.1 + 1, s.2 + c_duration c)) (0, 0) d) [] calls.

(** The key of a call in [phone_stats] (lines 352-360). *)
Definition phone_key (c : Call) : string :=
  let key :=
    if truthy (c_phone c) then
      let digits := digits_of (str (c_phone c)) in
      if 7 <=? len digits then Some (slice (Some (-10)) None digits)
      else None
    else None in
  if negb (truthy key) then "name:" +:+ c_name c else str key.

Definition add_call (c : Call) (cs : Stats) : Stats :=
  {| cs_count := cs_count cs + 1;
     cs_duration := cs_duration cs + c_duration c;
     cs_outgoing := cs_outgoing cs + (if c_outgoing c then 1 else 0);
     cs_incoming := cs_incoming cs + (if c_outgoing c then 0 else 1);
     cs_answered := cs_answered cs + (if c_answered c then 1 else 0);
     cs_missed := cs_missed cs + (if c_answered c then 0 else 1);
     cs_platforms := set_add (c_platform c) (cs_platforms cs);
     cs_names := set_add (c_name c) (cs_names cs) |}.

Definition phone_stats (calls : list Call) : dict string Stats :=
  foldl (fun d c => dict_update (phone_key c) (add_call c) new_stats d)
        [] calls.

Definition publish (env : Env) (s : Stats) : ContactStats :=
  {| count := cs_count s; duration := cs_duration s;
     outgoing := cs_outgoing s; incoming := cs_incoming s;
     answered := cs_answered s; missed := cs_missed s;
     platforms_list := set_iter env (cs_platforms s) |}.

(** Lines 372-378: every entry of [phone_stats] is stored under the
    longest of its names. *)
Definition contact_stats (env : Env) (ps : dict string Stats)
    : result (dict string ContactStats) :=
  foldM (fun cs kv =>
           let* best_name := max_by len (set_iter env (cs_names kv.2)) in
           Ok (dict_set best_name (publish env kv.2) cs)) [] ps.

Definition longest_call_of (calls : list Call) : result (option Call) :=
  match calls with
  | [] => Ok None
  | _ => let* longest := max_by c_duration calls in Ok (Some longest)
  end.

(** [max(d.items(), key=lambda x: x[1])[0]] or [dflt] for an empty
    counter. *)
Definition peak_of {K} (d : dict K Z) (dflt : K) : result K :=
  match d with
  | [] => Ok dflt
  | _ => let* kv := max_by snd d in Ok kv.1
  end.

Definition days : list string :=
  ["Sunday"; "Monday"; "Tuesday"; "Wednesday"; "Thursday"; "Friday";
   "Saturday"].

Definition peak_day_of (env : Env) (calls : list Call) : result string :=
  match count_by (fun _ => true) (fun c => wday env (c_timestamp c)) calls with
  | [] => Ok "Unknown"
  | d => let* kv := max_by snd d in Ok (nth (Z.to_nat kv.1) days "")
  end.

(** [sorted(counter.items(), key=lambda x: x[1], reverse=True)[:5]]. *)
Definition top5 (d : dict string Z) : list (string * Z) :=
  take 5 (sorted_by_desc snd d).

Definition unanswered_to (calls : list Call) : dict string (Z * Z) :=
  foldl (fun d c =>
           if c_outgoing c then
             dict_update (c_name c)
               (fun s => (s.1 + 1, if c_answered c then s.2 + 1 else s.2))
               (0, 0) d
           else d) [] calls.

Definition avoiders_of (calls : list Call) : result (list (string * Z * Z)) :=
  let* avoiders :=
    foldM (fun acc kv =>
             let attempts := kv.2.1 in
             let answered := kv.2.2 in
             if 5 <=? attempts then
               let* miss_rate := truediv (attempts - answered) attempts in
               if Qlt_bool (1 # 2) miss_rate
               then Ok (acc ++ [(kv.1, attempts - answered, attempts)])
               else Ok acc
             else Ok acc) [] (unanswered_to calls) in
  Ok (take 5 (sorted_by_desc (fun x => x.1.2) avoiders)).

Definition avg_durations (cs : dict string ContactStats)
    : result (list (string * Q * Z)) :=
  let* l :=
    foldM (fun acc kv =>
             if (5 <=? count kv.2) && (0 <? duration kv.2) then
               let* avg := truediv (duration kv.2) (count kv.2) in
               Ok (acc ++ [(kv.1, avg, count kv.2)])
             else Ok acc) [] cs in
  Ok (sorted (fun x y => Qle_bool x.1.2 y.1.2) l).

Definition daily_counts_of (env : Env) (calls : list Call) : dict Z Z :=
  count_by (fun _ => true) (fun c => date env (c_timestamp c)) calls.

Definition busiest_day_of (d : dict Z Z) : result (option (Z * Z)) :=
  match d with
  | [] => Ok None
  | _ => let* kv := max_by snd d in Ok (Some kv)
  end.

(** Lines 494-499: the per-name counts of the two halves. *)
Definition contact_h1_h2 (calls : list Call) (ts_jun : Z)
    : dict string (Z * Z) :=
  foldl (fun d c =>
           if c_timestamp c <? ts_jun
           then dict_update (c_name c) (fun s => (s.1 + 1, s.2)) (0, 0) d
           else dict_update (c_name c) (fun s => (s.1, s.2 + 1)) (0, 0) d)
        [] calls.

Definition is_heating (h1 h2 : Z) : bool :=
  (3 <=? h1) && Qlt_bool (inject_Z h1 * (3 # 2)) (inject_Z h2).

Definition is_cooling (h1 h2 : Z) : bool :=
  (5 <=? h1) && Qlt_bool (inject_Z h2) (inject_Z h1 * (1 # 2)).

Definition trend_entries (p : Z -> Z -> bool) (d : dict string (Z * Z))
    : list (string * Z * Z) :=
  map (fun kv => (kv.1, kv.2.1, kv.2.2))
      (List.filter (fun kv => p kv.2.1 kv.2.2) d).

(** [heating_up] after its sort (lines 501-505). *)
Definition heating_up_all (calls : list Call) (ts_jun : Z)
    : list (string * Z * Z) :=
  sorted_by_desc (fun x => x.2 - x.1.2)
    (trend_entries is_heating (contact_h1_h2 calls ts_jun)).

(** [cooling_down] after its sort (lines 509-513). *)
Definition cooling_down_all (calls : list Call) (ts_jun : Z)
    : list (string * Z * Z) :=
  sorted_by_desc (fun x => x.1.2 - x.2)
    (trend_entries is_cooling (contact_h1_h2 calls ts_jun)).

Definition monthly_duration_of (env : Env) (calls : list Call)
    : dict string Z :=
  foldl (fun d c =>
           dict_update (month env (c_timestamp c))
             (fun n => n + c_duration c) 0 d) [] calls.

(** Lines 533-536: [round(total_calls / len(daily_counts), 1)], a float
    quotient of two integers rounded to one decimal. *)
Definition avg_daily_of (total_calls : Z) (daily : dict Z Z) : result Q :=
  match daily with
  | [] => Ok (0 # 1)%Q
  | _ => let* q := float_div total_calls (Z.of_nat (length daily)) in
         Ok (round1 q)
  end.

(** Lines 539-543. [datetime.now()] is the clock of the environment. *)
Definition quiet_days_of (env : Env) (ts_start ts_end : Z)
    (days_with_calls : Z) : Z :=
  let year_start := localtime env ts_start in
  let year_end := Z.min (localtime env ts_end) (localtime env (clock env)) in
  let total_days := (year_end - year_start) / 86400 + 1 in
  total_days - days_with_calls.

(** The scan of lines 574-583 over the sorted dates of one person. *)
Fixpoint streak_scan (prev current_streak max_streak : Z) (l : list Z) : Z :=
  match l with
  | [] => max_streak
  | d2 :: r =>
      if d2 - prev =? 1
      then streak_scan d2 (current_streak + 1)
                       (Z.max max_streak (current_streak + 1)) r
      else streak_scan d2 1 max_streak r
  end.

Definition streaks_of (env : Env) (names : list string) (calls : list Call)
    : dict string Z :=
  foldl (fun streaks name =>
           let person_dates :=
             sorted_by id
               (distinct
                  (map (fun c => date env (c_timestamp c))
                     (List.filter
                        (fun c => bool_decide (c_name c = name)) calls))) in
           match person_dates with
           | d1 :: ((_ :: _) as r) =>
               let max_streak := streak_scan d1 1 1 r in
               if 3 <=? max_streak then dict_set name max_streak streaks
               else streaks
           | _ => streaks
           end) [] names.

Definition longest_streak_of (streaks : dict string Z)
    : result (option (string * Z)) :=
  match streaks with
  | [] => Ok None
  | _ => let* kv := max_by snd streaks in Ok (Some kv)
  end.

(** Lines 605-610. [people_you_called] is built there too and never
    read. *)
Definition call_times_to (calls : list Call) : dict string (list Z) :=
  foldl (fun d c =>
           if c_outgoing c
           then dict_update (c_name c) (fun l => l ++ [c_timestamp c]) [] d
           else d) [] calls.

Definition missed_inbound (c : Call) : bool :=
  negb (c_outgoing c) && negb (c_answered c).

Definition later_calls (calls : list Call) (c : Call) : list Z :=
  List.filter (fun t => c_timestamp c <? t)
    (dict_get_default (c_name c) [] (call_times_to calls)).

Definition is_nil {A} (l : list A) : bool :=
  match l with
  | [] => true
  | _ => false
  end.

(** [ghosts] (lines 613-619). *)
Definition ghost_counts (calls : list Call) : dict string Z :=
  count_by (fun c => missed_inbound c && is_nil (later_calls calls c))
           c_name calls.

(** [callback_times] (lines 624-632), in minutes, as floats. *)
Definition callback_times (calls : list Call) : result (list Q) :=
  foldM (fun acc c =>
           if missed_inbound c then
             match later_calls calls c with
             | [] => Ok acc
             | later =>
                 let* first := min_of later in
                 let callback_time :=
                   to_float (inject_Z (first - c_timestamp c) / inject_Z 60) in
                 if Qlt_bool callback_time (inject_Z 1440)
                 then Ok (acc ++ [callback_time])
                 else Ok acc
             end
           else Ok acc) [] calls.

(** Lines 633-636: [round(sum(callback_times) / len(callback_times))],
    the float sum of the interpreter divided by the length as a float,
    then rounded to an integer. *)
Definition avg_callback_time_of (env : Env) (times : list Q)
    : result (option Z) :=
  match times with
  | [] => Ok None
  | _ => let* avg := float_div_int (fsum env times)
                       (Z.of_nat (length times)) in
         Ok (Some (round avg))
  end.

Definition default_personality : string * string :=
  ("THE BALANCED CALLER", "A healthy relationship with your phone").

(** Lines 640-662. *)
Definition personality_of (calls : list Call)
    (total_calls outgoing missed weekday_calls weekend_calls : Z)
    (avg_callback_time : option Z) : result (string * string) :=
  let answered_calls := List.filter c_answered calls in
  let* avg_duration :=
    truediv (sum c_duration answered_calls)
            (Z.max (Z.of_nat (length answered_calls)) 1) in
  let* outgoing_ratio := truediv outgoing (Z.max total_calls 1) in
  let* miss_rate := truediv missed (Z.max total_calls 1) in
  Ok (if Qlt_bool avg_duration (inject_Z 60) && (200 <? total_calls) then
        ("THE SPEED DIALER",
         "You treat calls like texts - quick, efficient, gone")
      else if Qlt_bool (inject_Z 600) avg_duration && (50 <? total_calls) then
        ("THE CHATTY CATHY", "Once you're on the phone, you're ON the phone")
      else if Qlt_bool (2 # 5) miss_rate then
        ("THE SCREENER", "Your phone is always on silent, isn't it?")
      else if Qlt_bool (7 # 10) outgoing_ratio then
        ("THE INITIATOR", "You don't wait for calls, you make them happen")
      else if Qlt_bool outgoing_ratio (3 # 10) then
        ("THE POPULAR ONE", "Everyone wants to talk to you")
      else if match avg_callback_time with
              | Some t => negb (t =? 0) && (t <? 10)
              | None => false
              end then
        ("THE RESPONSIVE ONE", "Missed call? You'll call back in minutes")
      else if total_calls <? 50 then
        ("THE PHONE PHOBIC", "Calls? In this economy? You prefer texts")
      else if Qlt_bool (inject_Z weekday_calls * (1 # 2))
                       (inject_Z weekend_calls) then
        ("THE WEEKEND WARRIOR", "Your phone comes alive on weekends")
      else default_personality).

(** The dictionary [d] returned by [analyze_calls]. Pairs and triples
    stand for the small dictionaries and tuples of the source, in the
    order of their keys. *)
Record Report := {
  stats : BasicStats;
  platforms : dict string (Z * Z);
  video_voice : Z * Z;
  top_count : list (string * ContactStats);
  top_duration : list (string * ContactStats);
  longest_call : option Call;
  peak_hour : Z;
  peak_day : string;
  night_owls : list (string * Z);
  early_birds : list (string * Z);
  missed_kings : list (string * Z);
  avoiders : list (string * Z * Z);
  speed_dialers : list (string * Q * Z);
  marathon_talkers : list (string * Q * Z);
  daily_counts : dict Z Z;
  busiest_day : option (Z * Z);
  h1_h2 : Z * Z;
  heating_up : list (string * Z * Z);
  cooling_down : list (string * Z * Z);
  monthly_counts : dict string Z;
  monthly_duration : dict string Z;
  busiest_month : string;
  avg_daily : Q;
  quiet_days : Z;
  unique_contacts : Z;
  first_call : option Call;
  biggest_fans : list (string * Z);
  longest_streak : option (string * Z);
  weekday_weekend : Z * Z;
  duration_buckets : Z * Z * Z;
  ghosts : list (string * Z);
  avg_callback_time : option Z;
  personality : string * string
}.

Definition analyze_calls (env : Env) (phone_calls whatsapp_calls : list Call)
    (ts_start ts_end ts_jun : Z) : result Report :=
  let calls := all_calls phone_calls whatsapp_calls in
  let total_calls := Z.of_nat (length calls) in
  let n_outgoing := count_if c_outgoing calls in
  let n_incoming := total_calls - n_outgoing in
  let n_answered := count_if c_answered calls in
  let n_missed := total_calls - n_answered in
  let total_duration := sum c_duration calls in
  let video_calls := count_if c_is_video calls in
  let voice_calls := total_calls - video_calls in
  let* cstats := contact_stats env (phone_stats calls) in
  let* longest := longest_call_of calls in
  let hour_of c := hour env (c_timestamp c) in
  let* peak_h := peak_of (count_by (fun _ => true) hour_of calls) 12 in
  let* peak_d := peak_day_of env calls in
  let* avoid := avoiders_of calls in
  let* avgs := avg_durations cstats in
  let daily := daily_counts_of env calls in
  let* busiest := busiest_day_of daily in
  let monthly :=
    count_by (fun _ => true) (fun c => month env (c_timestamp c)) calls in
  let* busiest_m := peak_of monthly "N/A" in
  let* avg_d := avg_daily_of total_calls daily in
  let* streak := longest_streak_of (streaks_of env (map fst cstats) calls) in
  let weekday_calls :=
    count_if (fun c => weekday env (c_timestamp c) <? 5) calls in
  let weekend_calls := total_calls - weekday_calls in
  let* times := callback_times calls in
  let* avg_cb := avg_callback_time_of env times in
  let* pers := personality_of calls total_calls n_outgoing n_missed
                 weekday_calls weekend_calls avg_cb in
  Ok {| stats := {| st_total := total_calls; st_outgoing := n_outgoing;
                    st_incoming := n_incoming; st_answered := n_answered;
                    st_missed := n_missed;
                    st_total_duration := total_duration |};
        platforms := platform_stats calls;
        video_voice := (video_calls, voice_calls);
        top_count := take 10 (sorted_by_desc (fun x => count x.2) cstats);
        top_duration :=
          take 10 (sorted_by_desc (fun x => duration x.2) cstats);
        longest_call := longest;
        peak_hour := peak_h;
        peak_day := peak_d;
        night_owls := top5 (count_by (fun c => hour_of c <? 5) c_name calls);
        early_birds :=
          top5 (count_by (fun c => (6 <=? hour_of c) && (hour_of c <=? 9))
                  c_name calls);
        missed_kings :=
          top5 (count_by (fun c => negb (c_answered c) && negb (c_outgoing c))
                  c_name calls);
        avoiders := avoid;
        speed_dialers := take 5 avgs;
        marathon_talkers :=
          take 5 (sorted (fun x y => Qle_bool y.1.2 x.1.2) avgs);
        daily_counts := daily;
        busiest_day := busiest;
        h1_h2 := (count_if (fun c => c_timestamp c <? ts_jun) calls,
                  count_if (fun c => ts_jun <=? c_timestamp c) calls);
        heating_up := take 5 (heating_up_all calls ts_jun);
        cooling_down := take 5 (cooling_down_all calls ts_jun);
        monthly_counts := monthly;
        monthly_duration := monthly_duration_of env calls;
        busiest_month := busiest_m;
        avg_daily := avg_d;
        quiet_days :=
          quiet_days_of env ts_start ts_end (Z.of_nat (length daily));
        unique_contacts := Z.of_nat (length cstats);
        first_call := head calls;
        biggest_fans :=
          top5 (count_by (fun c => negb (c_outgoing c)) c_name calls);
        longest_streak := streak;
        weekday_weekend := (weekday_calls, weekend_calls);
        duration_buckets :=
          (count_if (fun c => c_answered c && (c_duration c <? 120)) calls,
           count_if (fun c => c_answered c && (120 <=? c_duration c)
                           && (c_duration c <? 900)) calls,
           count_if (fun c => c_answered c && (900 <=? c_duration c)) calls);
        ghosts := top5 (ghost_counts calls);
        avg_callback_time := avg_cb;
        personality := pers |}.

End CallWrapped.

(** ** combined_wrapped.py and people_wrapped.py: the duplicated helpers *)

Module CombinedWrapped.
Import Py.

Definition normalize_phone (phone : option string) : option string :=
  if negb (truthy phone) then None else
  let digits := digits_of (str phone) in
  if (len digits =? 11) && startswith "1" digits then
    let digits := slice (Some 1) None digits in
    if 10 <=? len digits then Some (slice (Some (-10)) None digits)
    else if 7 <=? len digits then Some digits else None
  else if 10 <? len digits then
    Some digits
  else
    if 10 <=? len digits then Some (slice (Some (-10)) None digits)
    else if 7 <=? len digits then Some digits else None.

(** [get_name_whatsapp]; the function returns a string on every path,
    the [option] result type is kept to compare it with the resolvers
    that can return [None]. *)
Definition get_name_whatsapp (jid : option string)
    (contacts : gmap string string) : option string :=
  if negb (truthy jid) then Some "Unknown" else
  let jid := str jid in
  match contacts !! jid with
  | Some n => Some n
  | None =>
      if contains "@" jid then
        let phone := before "@" jid in
        if len phone =? 10 then
          Some ("(" +:+ slice None (Some 3) phone +:+ ") "
                +:+ slice (Some 3) (Some 6) phone +:+ "-"
                +:+ slice (Some 6) None phone)
        else if (len phone =? 11) && startswith "1" phone then
          Some ("+1 (" +:+ slice (Some 1) (Some 4) phone +:+ ") "
                +:+ slice (Some 4) (Some 7) phone +:+ "-"
                +:+ slice (Some 7) None phone)
        else Some ("+" +:+ phone)
      else Some jid
  end.

(** A lookup tier: [if cond and key in contacts: return contacts[key]]. *)
Definition tier (cond : bool) (key : string)
    (contacts : gmap string string) : option string :=
  if cond then contacts !! key else None.

(** [get_name_imessage]: the directory tiers of [get_name] without its
    exclusions, and the handle itself when nothing matches. *)
Definition get_name_imessage (handle : string)
    (contacts : gmap string string) : string :=
  if contains "@" handle then
    let lookup := strip (lower handle) in
    match contacts !! lookup with
    | Some n => n
    | None => before "@" handle
    end
  else
    let digits := digits_of handle in
    default handle
      (orelse (contacts !! digits)
      (orelse (tier ((len digits =? 11) && startswith "1" digits)
                    (slice (Some 1) None digits) contacts)
      (orelse (tier (10 <=? len digits) (slice (Some (-10)) None digits)
                    contacts)
              (tier (7 <=? len digits) (slice (Some (-7)) None digits)
                    contacts)))).

(** An entry of the list [top_combined] of [merge_data] (lines 646-654):
    a name resolved from a handle of one platform, with its totals. *)
Record TopEntry := {
  t_name : string;
  t_total : Z;
  t_sent : Z;
  t_received : Z;
  t_source : string;
  t_handle : option string
}.

(** [name_counts] (lines 656-660): per name, the entry with the higher
    total; an entry is replaced in place. *)
Definition name_counts (entries : list TopEntry) : dict string TopEntry :=
  foldl (fun d entry =>
           match dict_get (t_name entry) d with
           | None => dict_set (t_name entry) entry d
           | Some kept =>
               if t_total kept <? t_total entry
               then dict_set (t_name entry) entry d else d
           end) [] entries.

(** [d['top']] (line 662). *)
Definition merge_top (entries : list TopEntry) : list TopEntry :=
  take 10 (sorted_by (fun x => - t_total x) (map snd (name_counts entries))).

(** The weighted average response time, [d['resp']] (lines 730-738).
    [int] truncates the quotient towards zero. *)
Definition merge_resp (has_imessage has_whatsapp : bool)
    (imessage_resp whatsapp_resp : option Z) (im_weight wa_weight : Z) : Z :=
  let im_resp := if has_imessage then default 30 imessage_resp else 30 in
  let wa_resp := if has_whatsapp then default 30 whatsapp_resp else 30 in
  let total_weight := im_weight + wa_weight in
  if 0 <? total_weight
  then Z.quot (im_resp * im_weight + wa_resp * wa_weight) total_weight
  else 30.

End CombinedWrapped.

Module PeopleWrapped.
Import Py.

Definition normalize_phone (phone : option string) : option string :=
  if negb (truthy phone) then None else
  let digits := digits_of (str phone) in
  if (len digits =? 11) && startswith "1" digits then
    let digits := slice (Some 1) None digits in
    if 10 <=? len digits then Some (slice (Some (-10)) None digits)
    else if 7 <=? len digits then Some digits else None
  else if 10 <? len digits then
    Some digits
  else
    if 10 <=? len digits then Some (slice (Some (-10)) None digits)
    else if 7 <=? len digits then Some digits else None.

(** A lookup tier over any directory. *)
Definition tier {V : Type} (cond : bool) (key : string)
    (m : gmap string V) : option V :=
  if cond then m !! key else None.

Definition get_name_imessage (handle : string)
    (contacts : gmap string string) : string :=
  if contains "@" handle then
    let lookup := strip (lower handle) in
    match contacts !! lookup with
    | Some n => n
    | None => before "@" handle
    end
  else
    let digits := digits_of handle in
    default handle
      (orelse (contacts !! digits)
      (orelse (tier ((len digits =? 11) && startswith "1" digits)
                    (slice (Some 1) None digits) contacts)
      (orelse (tier (10 <=? len digits) (slice (Some (-10)) None digits)
                    contacts)
              (tier (7 <=? len digits) (slice (Some (-7)) None digits)
                    contacts)))).

Definition get_record_id_for_handle (handle : string)
    (contact_record_ids : gmap string Z) : option Z :=
  if contains "@" handle then
    let lookup := strip (lower handle) in
    contact_record_ids !! lookup
  else
    let digits := digits_of handle in
    orelse (contact_record_ids !! digits)
   (orelse (tier ((len digits =? 11) && startswith "1" digits)
                 (slice (Some 1) None digits) contact_record_ids)
   (orelse (tier (10 <=? len digits) (slice (Some (-10)) None digits)
                 contact_record_ids)
           (tier (7 <=? len digits) (slice (Some (-7)) None digits)
                 contact_record_ids))).

(** The rows read from one address book database: the records
    [(ROWID, ZFIRSTNAME, ZLASTNAME)], the phone numbers
    [(ZOWNER, ZFULLNUMBER)] and the e-mail addresses [(ZOWNER, ZADDRESS)]. *)
Record AddressBook := {
  ab_records : list (Z * option string * option string);
  ab_phones : list (Z * string);
  ab_emails : list (Z * string)
}.

(** [people] of one database (the first loop). *)
Definition people_of (records : list (Z * option string * option string))
    : gmap Z string :=
  foldl (fun people row =>
           let name := strip (default "" row.1.2 +:+ " " +:+ default "" row.2) in
           if truthy (Some name) then <[row.1.1 := name]> people else people)
        ∅ records.

(** The keys stored for one phone number, in the order of the
    assignments. *)
Definition phone_keys (phone : string) : list string :=
  let digits := digits_of phone in
  if negb (truthy (Some digits)) then [] else
    [digits]
    ++ (if 10 <=? len digits then [slice (Some (-10)) None digits] else [])
    ++ (if 7 <=? len digits then [slice (Some (-7)) None digits] else [])
    ++ (if (len digits =? 11) && startswith "1" digits
        then [slice (Some 1) None digits] else []).

(** [contacts[key] = name; contact_record_ids[key] = owner]. *)
Definition bind_key (name : string) (owner : Z)
    (st : gmap string string * gmap string Z) (key : string)
    : gmap string string * gmap string Z :=
  (<[key := name]> st.1, <[key := owner]> st.2).

(** The body of the loop over the databases. *)
Definition extract_one (st : gmap string string * gmap string Z)
    (db : AddressBook) : gmap string string * gmap string Z :=
  let people := people_of (ab_records db) in
  let st :=
    foldl (fun st row =>
             match people !! row.1 with
             | Some name => foldl (bind_key name row.1) st (phone_keys row.2)
             | None => st
             end) st (ab_phones db) in
  foldl (fun st row =>
           match people !! row.1 with
           | Some name => bind_key name row.1 st (strip (lower row.2))
           | None => st
           end) st (ab_emails db).

(** [extract_imessage_contacts] over the databases it finds; a database
    that cannot be read contributes nothing. *)
Definition extract_imessage_contacts (dbs : list AddressBook)
    : gmap string string * gmap string Z :=
  foldl extract_one (∅, ∅) dbs.

End PeopleWrapped.

(** ** localbrief.py: the resolver *)

Module LocalBrief.
Import Py.

Definition is_toll_free (p : string) : bool :=
  existsb (String.eqb p) ["800"; "888"; "877"; "866"; "855"; "844"; "833"].

(** A lookup tier: [if cond and key in contacts: return contacts[key]]. *)
Definition tier (cond : bool) (key : string)
    (contacts : gmap string string) : option string :=
  if cond then contacts !! key else None.

Definition resolve_contact (identifier : option string)
    (contacts : gmap string string) (whatsapp_name : option string)
    : option string :=
  if negb (truthy identifier) then None else
  if truthy whatsapp_name && truthy (Some (strip (str whatsapp_name)))
  then Some (strip (str whatsapp_name)) else
  let ident := strip (str identifier) in
  if contains "@" ident then
    let key := lower ident in
    match contacts !! key with
    | Some n => Some n
    | None =>
        let username := before "@" ident in
        if any is_alpha username then Some username else None
    end
  else
    let cleaned := digits_of ident in
    if (5 <=? len cleaned) && (len cleaned <=? 6) then None else
    if (10 <=? len cleaned)
       && is_toll_free (slice (Some (-10)) (Some (-7)) cleaned)
    then None else
    orelse (tier (10 <=? len cleaned)
              (slice (Some (-10)) None cleaned) contacts)
           (tier (7 <=? len cleaned)
              (slice (Some (-7)) None cleaned) contacts).

(** The rows read from one address book by [load_contacts]: phone rows
    [(name, phone)], the number already stripped of spaces, dashes,
    parentheses and plus signs by the query, and e-mail rows
    [(name, email)], the address already in lower case. *)
Record ContactRows := {
  lc_phones : list (string * option string);
  lc_emails : list (string * option string)
}.

Definition load_one (contacts : gmap string string) (db : ContactRows)
    : gmap string string :=
  let contacts :=
    foldl (fun contacts (row : string * option string) =>
             if truthy row.2 && (7 <=? len (str row.2)) then
               let contacts :=
                 <[slice (Some (-7)) None (str row.2) := row.1]> contacts in
               if 10 <=? len (str row.2)
               then <[slice (Some (-10)) None (str row.2) := row.1]> contacts
               else contacts
             else contacts) contacts (lc_phones db) in
  foldl (fun contacts (row : string * option string) =>
           if truthy row.2 then <[str row.2 := row.1]> contacts
           else contacts) contacts (lc_emails db).

Definition load_contacts (dbs : list ContactRows) : gmap string string :=
  foldl load_one ∅ dbs.

End LocalBrief.

(** ** Vocabulary of the statements *)

Module Scenario.
Import Py CallWrapped.

(** An environment in UTC whose sets iterate in insertion order. *)
Definition utc_env (t : Z) : Env :=
  {| clock := t; utcoff := fun _ => 0; str_hash := fun _ => 0;
     sum_compensated := false |}.

(** The same process at another time of the wall clock. *)
Definition with_clock (t : Z) (env : Env) : Env :=
  {| clock := t; utcoff := utcoff env; str_hash := str_hash env;
     sum_compensated := sum_compensated env |}.

Definition set_quiet_days (q : Z) (r : Report) : Report :=
  {| stats := stats r; platforms := platforms r;
     video_voice := video_voice r; top_count := top_count r;
     top_duration := top_duration r; longest_call := longest_call r;
     peak_hour := peak_hour r; peak_day := peak_day r;
     night_owls := night_owls r; early_birds := early_birds r;
     missed_kings := missed_kings r; avoiders := avoiders r;
     speed_dialers := speed_dialers r;
     marathon_talkers := marathon_talkers r;
     daily_counts := daily_counts r; busiest_day := busiest_day r;
     h1_h2 := h1_h2 r; heating_up := heating_up r;
     cooling_down := cooling_down r; monthly_counts := monthly_counts r;
     monthly_duration := monthly_duration r;
     busiest_month := busiest_month r; avg_daily := avg_daily r;
     quiet_days := q;
     unique_contacts := unique_contacts r; first_call := first_call r;
     biggest_fans := biggest_fans r; longest_streak := longest_streak r;
     weekday_weekend := weekday_weekend r;
     duration_buckets := duration_buckets r; ghosts := ghosts r;
     avg_callback_time := avg_callback_time r;
     personality := personality r |}.

(** The years of the two runs the script supports, as it computes them
    in UTC. *)
Definition TS_2025_START : Z := 1735689600.
Definition TS_2025_END : Z := 1767225599.
Definition TS_JUN_2025 : Z := 1748736000.

(** A phone call record. *)
Definition phone_call (name : string) (phone : option string)
    (duration timestamp : Z) (outgoing answered : bool) : Call :=
  {| c_name := name; c_phone := phone; c_duration := duration;
     c_timestamp := timestamp; c_outgoing := outgoing;
     c_answered := answered; c_platform := "Phone"; c_is_video := false |}.

(** [e] is an outgoing call to the caller of [c], later than [c]. *)
Definition returns (c e : Call) : bool :=
  c_outgoing e && bool_decide (c_name e = c_name c)
  && (c_timestamp c <? c_timestamp e).

(** No call of [calls] returns [c]. *)
Definition never_returned (calls : list Call) (c : Call) : bool :=
  forallb (fun e => negb (returns c e)) calls.

(** The timestamp of the earliest call that returns [c], in the words of
    the specification: the least timestamp of an outgoing call to the
    same contact later than [c]. *)
Definition earliest_return (calls : list Call) (c : Call) : option Z :=
  match map c_timestamp (List.filter (returns c) calls) with
  | [] => None
  | t :: r => Some (foldl Z.min t r)
  end.

(** The callback latency a missed inbound call contributes to the
    average, in the words of the specification: the time to the earliest
    return, kept when it is under 24 hours; in minutes, as the float the
    division by 60 gives. *)
Definition callback_latency (calls : list Call) (c : Call) : option Q :=
  if missed_inbound c then
    match earliest_return calls c with
    | Some m =>
        if m - c_timestamp c <? 86400
        then Some (to_float (inject_Z (m - c_timestamp c) / inject_Z 60))
        else None
    | None => None
    end
  else None.

(** A missed call from Sam at [t = 100] and a call to Sam at
    [t = 100 + 600]. *)
Definition sam_missed : Call := phone_call "Sam" (Some "4155550100") 0 100 false false.
Definition sam_called : Call := phone_call "Sam" (Some "4155550100") 45 700 true true.

(** Twenty calls with Sam before June 2025 and thirty-five after. *)
Definition sam_trend : list Call :=
  repeat (phone_call "Sam" (Some "4155550100") 60 1740000000 true true) 20
  ++ repeat (phone_call "Sam" (Some "4155550100") 60 1750000000 true true) 35.

(** Six contacts with three calls each before [TS_JUN_2025] and ten
    to five calls after it. *)
Definition six_heating : list Call :=
  flat_map (fun nk : string * nat =>
              repeat (phone_call nk.1 None 60 1740000000 true true) 3
              ++ repeat (phone_call nk.1 None 60 1750000000 true true) nk.2)
           [("A", 10%nat); ("B", 9%nat); ("C", 8%nat); ("D", 7%nat);
            ("E", 6%nat); ("F", 5%nat)].

(** A WhatsApp call that was not picked up, to a JID with a push name. *)
Definition sam_whatsapp_rows : list WhatsAppRow :=
  [ {| W_ZDURATION := Some 0; W_ZDATE := 757382500; W_ZOUTCOME := 1;
       W_ZJIDSTRING := Some "14155550100@s.whatsapp.net" |} ].

Definition sam_push_names : gmap string string :=
  {[ "14155550100@s.whatsapp.net" := "Sam" ]}.

(** An address book in which Alice has two numbers, and one call with
    each of them in January 2025. *)
Definition alice_directory : gmap string string :=
  extract_contacts [("Alice", "(415) 555-2671"); ("Alice", "(415) 555-9999")].

Definition alice_rows : list PhoneRow :=
  [ {| ZADDRESS := Some "+14155552671"; ZDURATION := Some 60;
       ZDATE := 757382500; ZORIGINATED := 0; ZANSWERED := 1;
       ZCALLTYPE := 1 |};
    {| ZADDRESS := Some "+14155559999"; ZDURATION := Some 30;
       ZDATE := 757468900; ZORIGINATED := 1; ZANSWERED := 1;
       ZCALLTYPE := 1 |} ].

(** A string of decimal digits. *)
Definition all_digits (s : string) : bool :=
  negb (any (fun c => negb (is_digit c)) s).

(** The sum of a numeric field over the values of a dictionary. *)
Definition dict_sum {K V : Type} (f : V -> Z) (d : dict K V) : Z :=
  foldr (fun kv acc => f kv.2 + acc) 0 d.

(** Some call of [calls] under the name [X] falls on the local day
    [d]. *)
Definition called_on (env : Env) (calls : list Call) (X : string) (d : Z)
    : Prop :=
  exists c, In c calls /\ c_name c = X /\ date env (c_timestamp c) = d.

(** The [k] days from [d] on are all days of [D]. *)
Definition run_of_days (D : Z -> Prop) (d k : Z) : Prop :=
  forall i : Z, 0 <= i < k -> D (d + i).

(** [top] is the leaderboard of the names by their number of calls
    that satisfy [p]: at most [limit] entries, one per name, in
    descending order, each with the number of such calls of its name,
    and a name left out has no more such calls than any name listed. *)
Definition ranked (limit : nat) (p : Call -> bool) (calls : list Call)
    (top : list (string * Z)) : Prop :=
  let score X := count_if (fun c => p c && bool_decide (c_name c = X)) calls in
  (length top <= limit)%nat
  /\ List.NoDup (map fst top)
  /\ StronglySorted (fun a b : string * Z => b.2 <= a.2) top
  /\ (forall X n, In (X, n) top -> n = score X /\ 1 <= n)
  /\ (forall X, 0 < score X ->
        In (X, score X) top
        \/ (length top = limit
            /\ forall Y m, In (Y, m) top -> score X <= m)).

(** The two directories of [people_wrapped.py] go together: a key is in
    both or in neither, and where it is its record id and its name are
    related by [P]. *)
Definition paired (P : Z -> string -> Prop)
    (st : gmap string string * gmap string Z) : Prop :=
  forall k : string,
    (st.1 !! k = None /\ st.2 !! k = None)
    \/ exists o n, st.1 !! k = Some n /\ st.2 !! k = Some o /\ P o n.

(** A row of the address book [db] stores the name [n] under the key
    [k] in [load_contacts]: a phone row whose last 7 or last 10
    characters are [k], or an e-mail row whose address is [k]. *)
Definition stored_by (db : LocalBrief.ContactRows) (k n : string) : Prop :=
  (exists phone,
     In (n, Some phone) (LocalBrief.lc_phones db)
     /\ ((7 <= len phone /\ k = slice (Some (-7)) None phone)
         \/ (10 <= len phone /\ k = slice (Some (-10)) None phone)))
  \/ (k <> "" /\ In (n, Some k) (LocalBrief.lc_emails db)).

(** The state of the loop of lines 658-661 of [merge_data] after the
    entries [seen]: one entry per name seen, with the highest total of
    the entries of that name. *)
Definition name_counts_inv (seen : list CombinedWrapped.TopEntry)
    (d : dict string CombinedWrapped.TopEntry) : Prop :=
  List.NoDup (map fst d)
  /\ (forall k x, dict_get k d = Some x ->
        CombinedWrapped.t_name x = k /\ In x seen
        /\ forall e, In e seen -> CombinedWrapped.t_name e = k ->
             CombinedWrapped.t_total e <= CombinedWrapped.t_total x)
  /\ (forall e, In e seen ->
        exists x, dict_get (CombinedWrapped.t_name e) d = Some x).

(** The streak lines 568-585 record for one name: the result of the
    scan over the sorted days of the name when there are two days or
    more and the result is 3 or more. *)
Definition person_streak (env : Env) (calls : list Call) (name : string)
    : option Z :=
  match sorted_by id
          (distinct
             (map (fun c => date env (c_timestamp c))
                (List.filter (fun c => bool_decide (c_name c = name)) calls)))
  with
  | d1 :: ((_ :: _) as r) =>
      let max_streak := streak_scan d1 1 1 r in
      if 3 <=? max_streak then Some max_streak else None
  | _ => None
  end.

End Scenario.

(** * Properties *)

Import Py Scenario.

(** ** Strings and slices *)

Section Strings.

Lemma length_substring (s : string) : forall n m : nat,
  (n + m <= String.length s)%nat -> String.length (substring n m s) = m.
Proof.
  induction s as [|c s IH]; intros [|n] [|m] H; simpl in *;
    try reflexivity; try lia.
  - rewrite (IH 0%nat m); [reflexivity | lia].
  - apply IH; lia.
  - apply IH; lia.
Qed.

Lemma substring_all (s : string) : substring 0 (String.length s) s = s.
Proof. induction s as [|c s IH]; simpl; [reflexivity | now rewrite IH]. Qed.

Lemma len_nonneg (s : string) : 0 <= len s.
Proof. unfold len; lia. Qed.

Lemma len_zero (s : string) : len s = 0 -> s = "".
Proof. destruct s; [reflexivity | unfold len; simpl; lia]. Qed.

(** [s[-n:]] has [n] characters when [s] has at least [n]. *)
Lemma len_slice_last (n : Z) (s : string) :
  0 < n -> n <= len s -> len (slice (Some (- n)) None s) = n.
Proof.
  intros Hn Hs. unfold slice.
  destruct (- n <? 0) eqn:E1; [|apply Z.ltb_ge in E1; lia].
  rewrite Z.max_l by lia.
  destruct (len s + - n <? len s) eqn:E2; [|apply Z.ltb_ge in E2; lia].
  unfold len in *. rewrite length_substring; lia.
Qed.

(** [s[-n:]] is [s] when [s] has at most [n] characters. *)
Lemma slice_last_short (n : Z) (s : string) :
  0 < n -> len s <= n -> slice (Some (- n)) None s = s.
Proof.
  intros Hn Hs. unfold slice.
  destruct (- n <? 0) eqn:E1; [|apply Z.ltb_ge in E1; lia].
  rewrite Z.max_r by lia.
  destruct (0 <? len s) eqn:E.
  - rewrite Z.sub_0_r. unfold len. rewrite Nat2Z.id. apply substring_all.
  - apply Z.ltb_ge in E. symmetry. apply len_zero. pose proof (len_nonneg s). lia.
Qed.

Lemma len_slice_tail (s : string) :
  1 <= len s -> len (slice (Some 1) None s) = len s - 1.
Proof.
  intros Hs. unfold slice. change (1 <? 0) with false. cbv iota.
  rewrite Z.min_l by lia.
  destruct (1 <? len s) eqn:E.
  - unfold len in *. rewrite length_substring; lia.
  - apply Z.ltb_ge in E. unfold len in *. simpl. lia.
Qed.

(** For eleven characters, [s[1:]] and [s[-10:]] are the same slice. *)
Lemma slice_tail_eleven (s : string) :
  len s = 11 -> slice (Some 1) None s = slice (Some (-10)) None s.
Proof. intros Hs. unfold slice. rewrite Hs. reflexivity. Qed.

Lemma is_space_not_digit (c : ascii) : is_space c = true -> is_digit c = false.
Proof. unfold is_space, is_digit. cbv zeta. lia. Qed.

Lemma digits_of_lstrip (s : string) : digits_of (lstrip s) = digits_of s.
Proof.
  induction s as [|c s IH]; simpl; [reflexivity|].
  destruct (is_space c) eqn:E; [|reflexivity].
  now rewrite (is_space_not_digit _ E).
Qed.

Lemma digits_of_rstrip (s : string) : digits_of (rstrip s) = digits_of s.
Proof.
  induction s as [|c s IH]; simpl; [reflexivity|].
  destruct (rstrip s) as [|c' r] eqn:E.
  - simpl in IH. rewrite <- IH.
    destruct (is_space c) eqn:Ec; simpl.
    + now rewrite (is_space_not_digit _ Ec).
    + now destruct (is_digit c).
  - simpl. simpl in IH. now rewrite IH.
Qed.

Lemma digits_of_strip (s : string) : digits_of (strip s) = digits_of s.
Proof. unfold strip. now rewrite digits_of_rstrip, digits_of_lstrip. Qed.

Lemma contains_lstrip (c : ascii) (s : string) :
  is_space c = false -> contains c (lstrip s) = contains c s.
Proof.
  intros Hc. induction s as [|x s IH]; simpl; [reflexivity|].
  destruct (is_space x) eqn:E; [|reflexivity].
  rewrite IH. destruct (Ascii.eqb_spec x c); [congruence | reflexivity].
Qed.

Lemma contains_rstrip (c : ascii) (s : string) :
  is_space c = false -> contains c (rstrip s) = contains c s.
Proof.
  intros Hc. induction s as [|x s IH]; simpl; [reflexivity|].
  destruct (rstrip s) as [|c' r] eqn:E.
  - simpl in IH. rewrite <- IH, orb_false_r.
    destruct (is_space x) eqn:Ex; simpl.
    + destruct (Ascii.eqb_spec x c); [congruence | reflexivity].
    + now rewrite orb_false_r.
  - simpl. simpl in IH. now rewrite IH.
Qed.

Lemma contains_strip (c : ascii) (s : string) :
  is_space c = false -> contains c (strip s) = contains c s.
Proof.
  intros Hc. unfold strip. now rewrite contains_rstrip, contains_lstrip.
Qed.

End Strings.

(** ** The phone normalisers *)

Section Normalisers.

(** What [normalize_phone] of [call_wrapped.py] returns, by the number
    of digits of its argument. *)
Lemma call_normalize_phone_cases (phone : string) :
  truthy (Some phone) = true ->
  CallWrapped.normalize_phone (Some phone) =
    let d := digits_of phone in
    if 10 <=? len d then Some (slice (Some (-10)) None d)
    else if 7 <=? len d then Some d else None.
Proof.
  intros Ht. unfold CallWrapped.normalize_phone. rewrite Ht. cbn [negb].
  change (str (Some phone)) with phone. cbv zeta. set (d := digits_of phone).
  destruct ((len d =? 11) && startswith "1" d) eqn:E.
  - apply andb_true_iff in E as [E _]. apply Z.eqb_eq in E.
    assert (Hl : len (slice (Some 1) None d) = 10)
      by (rewrite len_slice_tail; lia).
    rewrite Hl, E. cbn [Z.leb Z.compare].
    rewrite <- (slice_tail_eleven d E).
    rewrite (slice_last_short 10) by lia. reflexivity.
  - destruct (10 <? len d) eqn:E2; [|reflexivity].
    apply Z.ltb_lt in E2.
    destruct (10 <=? len d) eqn:E3; [reflexivity|].
    apply Z.leb_gt in E3. lia.
Qed.

(** The same for the copy in [combined_wrapped.py]. *)
Lemma combined_normalize_phone_cases (phone : string) :
  truthy (Some phone) = true ->
  CombinedWrapped.normalize_phone (Some phone) =
    let d := digits_of phone in
    if (len d =? 11) && startswith "1" d
    then Some (slice (Some (-10)) None d)
    else if 10 <? len d then Some d
    else if 10 <=? len d then Some (slice (Some (-10)) None d)
    else if 7 <=? len d then Some d else None.
Proof.
  intros Ht. unfold CombinedWrapped.normalize_phone. rewrite Ht.
  cbn [negb]. change (str (Some phone)) with phone. cbv zeta. set (d := digits_of phone).
  destruct ((len d =? 11) && startswith "1" d) eqn:E; [|reflexivity].
  apply andb_true_iff in E as [E _]. apply Z.eqb_eq in E.
  assert (Hl : len (slice (Some 1) None d) = 10)
    by (rewrite len_slice_tail; lia).
  rewrite Hl. cbn [Z.leb Z.compare].
  rewrite <- (slice_tail_eleven d E).
  rewrite (slice_last_short 10) by lia. reflexivity.
Qed.

Lemma normalize_phone_falsy (phone : option string) :
  truthy phone = false ->
  CallWrapped.normalize_phone phone = None
  /\ CombinedWrapped.normalize_phone phone = None.
Proof.
  intros Ht. unfold CallWrapped.normalize_phone, CombinedWrapped.normalize_phone.
  now rewrite Ht.
Qed.

End Normalisers.

(** C10 (as stated, refuted). The copies of [normalize_phone] in
    [call_wrapped.py] and [combined_wrapped.py] disagree on a
    twelve-digit international number: the first keeps the last ten
    digits, the second the whole digit string. *)
Lemma normalize_phone_variants_differ :
  ~ (forall phone : option string,
       CallWrapped.normalize_phone phone = CombinedWrapped.normalize_phone phone
       /\ CombinedWrapped.normalize_phone phone
          = PeopleWrapped.normalize_phone phone).
Proof.
  intros H. destruct (H (Some "+44 20 7946 0958")) as [E _].
  vm_compute in E. discriminate E.
Qed.

(** C10 (amended). The copies in [combined_wrapped.py] and
    [people_wrapped.py] are the same function. The one in
    [call_wrapped.py] agrees with them on every input except those with
    more than ten digits that are not eleven digits with a leading 1;
    there it returns the last ten digits and the others return the whole
    digit string, and the two results are different. *)
Theorem normalize_phone_variants (phone : option string) :
  let d := digits_of (str phone) in
  let long_foreign :=
    truthy phone = true /\ 10 < len d
    /\ ~ (len d = 11 /\ startswith "1" d = true) in
  CombinedWrapped.normalize_phone phone = PeopleWrapped.normalize_phone phone
  /\ (CallWrapped.normalize_phone phone = CombinedWrapped.normalize_phone phone
      <-> ~ long_foreign)
  /\ (long_foreign ->
      CallWrapped.normalize_phone phone = Some (slice (Some (-10)) None d)
      /\ CombinedWrapped.normalize_phone phone = Some d).
Proof.
  cbv zeta. split; [reflexivity|].
  destruct (truthy phone) eqn:Ht.
  2:{ destruct (normalize_phone_falsy phone Ht) as [-> ->].
      split; [split; [intros _ [H _]; discriminate H | reflexivity]|].
      intros [H _]. discriminate H. }
  destruct phone as [s|]; [|discriminate Ht].
  change (str (Some s)) with s.
  rewrite call_normalize_phone_cases, combined_normalize_phone_cases
    by assumption.
  cbv zeta. set (d := digits_of s).
  destruct ((len d =? 11) && startswith "1" d) eqn:E.
  - apply andb_true_iff in E as [E1 E2]. apply Z.eqb_eq in E1.
    rewrite E1. cbn [Z.leb Z.compare].
    split; [split; [intros _ [_ [_ H]]; apply H; now split | reflexivity]|].
    intros [_ [_ H]]. exfalso. apply H. now split.
  - assert (Hn : ~ (len d = 11 /\ startswith "1" d = true)).
    { intros [H1 H2]. rewrite H1, H2 in E. discriminate E. }
    destruct (10 <? len d) eqn:E2.
    + apply Z.ltb_lt in E2.
      destruct (10 <=? len d) eqn:E3; [|apply Z.leb_gt in E3; lia].
      split; [|intros _; now split].
      split; [|intros H; exfalso; apply H; auto].
      intros Heq _. injection Heq as Heq.
      assert (Hl : len (slice (Some (-10)) None d) = 10)
        by (apply (len_slice_last 10); lia).
      rewrite Heq in Hl. lia.
    + apply Z.ltb_ge in E2.
      split; [split; [intros _ [_ [H _]]; lia | reflexivity]|].
      intros [_ [H _]]. lia.
Qed.

Lemma normalize_phone_variants_witness :
  CallWrapped.normalize_phone (Some "+44 20 7946 0958") = Some "2079460958"
  /\ CombinedWrapped.normalize_phone (Some "+44 20 7946 0958")
     = Some "442079460958".
Proof.
  apply (normalize_phone_variants (Some "+44 20 7946 0958")).
  vm_compute. repeat split; try reflexivity.
  intros [H _]. discriminate H.
Defined.

(** ** Directory keys *)

Section Directory.

Lemma foldl_insert_lookup (name : string) (ks : list string) :
  forall (m : gmap string string) (k : string),
    In k ks -> foldl (fun m k => <[k := name]> m) m ks !! k = Some name.
Proof.
  induction ks as [|a ks IH]; intros m k Hin; [destruct Hin|].
  cbn [foldl]. destruct (in_dec string_dec k ks) as [Hk|Hk].
  - now apply IH.
  - destruct Hin as [->|Hin]; [|contradiction].
    clear IH. revert m. induction ks as [|b ks IH]; intros m; cbn [foldl].
    + apply lookup_insert_eq.
    + destruct (string_dec b k) as [->|Hne].
      * exfalso. apply Hk. now left.
      * rewrite insert_insert_ne by congruence.
        apply IH. intros H. apply Hk. now right.
Qed.

(** Every key computed for a number is bound to its owner. *)
Lemma add_contact_lookup (m : gmap string string) (name phone k : string) :
  In k (CallWrapped.contact_keys phone) ->
  CallWrapped.add_contact m name phone !! k = Some name.
Proof. apply foldl_insert_lookup. Qed.

End Directory.

(** C7 (as stated, refuted). Read on the directory builder, the claim
    fails below seven digits: a five-digit number still gets a key, its
    whole digit string. Read on [normalize_phone], it fails on the
    seven-digit suffix, which that function never returns for a longer
    number. *)
Lemma normalisation_keys_as_stated_fail :
  ~ (forall phone : string,
       let d := digits_of phone in
       (10 <= len d ->
        In (slice (Some (-10)) None d) (CallWrapped.contact_keys phone))
       /\ (7 <= len d ->
           In (slice (Some (-7)) None d) (CallWrapped.contact_keys phone))
       /\ (len d < 7 -> CallWrapped.contact_keys phone = []))
  /\ ~ (forall phone : string,
          let d := digits_of phone in
          let keys := option_list (CallWrapped.normalize_phone (Some phone)) in
          (10 <= len d -> In (slice (Some (-10)) None d) keys)
          /\ (7 <= len d -> In (slice (Some (-7)) None d) keys)
          /\ (len d < 7 -> keys = [])).
Proof.
  split; intros H.
  - destruct (H "12345") as (_ & _ & H3).
    vm_compute in H3. specialize (H3 eq_refl). discriminate H3.
  - destruct (H "+1 (415) 555-2671") as (_ & H2 & _).
    vm_compute in H2. destruct (H2 ltac:(discriminate)) as [E|[]].
    discriminate E.
Qed.

(** C7 (amended). For a number whose digit string [d] has length [L]:
    the directory builder [extract_contacts] binds the owner to [d]
    whenever [L >= 1], to the last ten digits when [L >= 10] and to the
    last seven digits when [L >= 7], so below seven digits [d] is the only
    key and without digits there is none; [normalize_phone] returns one
    key, the last ten digits when [L >= 10], [d] itself when
    [7 <= L <= 9], and [None] when [L < 7]. *)
Theorem normalisation_keys (phone : string) :
  let d := digits_of phone in
  (len d = 0 -> CallWrapped.contact_keys phone = [])
  /\ (0 < len d -> In d (CallWrapped.contact_keys phone))
  /\ (10 <= len d ->
      In (slice (Some (-10)) None d) (CallWrapped.contact_keys phone))
  /\ (7 <= len d ->
      In (slice (Some (-7)) None d) (CallWrapped.contact_keys phone))
  /\ (0 < len d < 7 -> CallWrapped.contact_keys phone = [d])
  /\ (forall (m : gmap string string) (name k : string),
        In k (CallWrapped.contact_keys phone) ->
        CallWrapped.add_contact m name phone !! k = Some name)
  /\ (10 <= len d ->
      CallWrapped.normalize_phone (Some phone)
      = Some (slice (Some (-10)) None d))
  /\ (7 <= len d < 10 -> CallWrapped.normalize_phone (Some phone) = Some d)
  /\ (len d < 7 -> CallWrapped.normalize_phone (Some phone) = None).
Proof.
  cbv zeta. set (d := digits_of phone).
  assert (Hk : 0 < len d -> truthy (Some d) = true).
  { intros H. destruct d; [unfold len in H; simpl in H; lia | reflexivity]. }
  assert (Hp : 0 < len d -> truthy (Some phone) = true).
  { intros H. destruct phone; [|reflexivity].
    subst d. unfold len in H. simpl in H. lia. }
  repeat match goal with |- _ /\ _ => split end.
  - intros H. unfold CallWrapped.contact_keys. fold d.
    now rewrite (len_zero d H).
  - intros H. unfold CallWrapped.contact_keys. fold d.
    rewrite (Hk H). cbn [negb]. now left.
  - intros H. unfold CallWrapped.contact_keys. fold d.
    rewrite Hk by lia. cbn [negb].
    destruct (10 <=? len d) eqn:E; [|apply Z.leb_gt in E; lia].
    rewrite !in_app_iff. right. left. now left.
  - intros H. unfold CallWrapped.contact_keys. fold d.
    rewrite Hk by lia. cbn [negb].
    destruct (7 <=? len d) eqn:E; [|apply Z.leb_gt in E; lia].
    rewrite !in_app_iff. right. right. left. now left.
  - intros H. unfold CallWrapped.contact_keys. fold d.
    rewrite Hk by lia. cbn [negb].
    destruct (10 <=? len d) eqn:E1; [apply Z.leb_le in E1; lia|].
    destruct (7 <=? len d) eqn:E2; [apply Z.leb_le in E2; lia|].
    destruct (len d =? 11) eqn:E3; [apply Z.eqb_eq in E3; lia|].
    reflexivity.
  - intros m name k. apply add_contact_lookup.
  - intros H. rewrite call_normalize_phone_cases by (apply Hp; lia).
    cbv zeta. fold d.
    destruct (10 <=? len d) eqn:E; [reflexivity | apply Z.leb_gt in E; lia].
  - intros H. rewrite call_normalize_phone_cases by (apply Hp; lia).
    cbv zeta. fold d.
    destruct (10 <=? len d) eqn:E1; [apply Z.leb_le in E1; lia|].
    destruct (7 <=? len d) eqn:E2; [reflexivity | apply Z.leb_gt in E2; lia].
  - intros H. destruct (truthy (Some phone)) eqn:Ht.
    + rewrite call_normalize_phone_cases by assumption. cbv zeta. fold d.
      destruct (10 <=? len d) eqn:E1; [apply Z.leb_le in E1; lia|].
      destruct (7 <=? len d) eqn:E2; [apply Z.leb_le in E2; lia | reflexivity].
    + now apply normalize_phone_falsy.
Qed.

(** The keys of "+1 (415) 555-2671" in the directory include
    "4155552671" and "5552671"; [normalize_phone] returns the first. *)
Lemma normalisation_keys_witness :
  In "4155552671" (CallWrapped.contact_keys "+1 (415) 555-2671")
  /\ In "5552671" (CallWrapped.contact_keys "+1 (415) 555-2671")
  /\ CallWrapped.normalize_phone (Some "+1 (415) 555-2671")
     = Some "4155552671".
Proof.
  pose proof (normalisation_keys "+1 (415) 555-2671")
    as (_ & _ & H10 & H7 & _ & _ & Hn & _).
  repeat match goal with |- _ /\ _ => split end.
  - apply H10. vm_compute. discriminate.
  - apply H7. vm_compute. discriminate.
  - apply Hn. vm_compute. discriminate.
Defined.

(** ** The resolvers *)

Section Resolvers.

(** [get_name_whatsapp] returns a string on every path. *)
Lemma get_name_whatsapp_some (jid : option string)
    (contacts : gmap string string) :
  is_Some (CombinedWrapped.get_name_whatsapp jid contacts).
Proof.
  unfold CombinedWrapped.get_name_whatsapp.
  repeat match goal with
         | |- is_Some (Some _) => eexists; reflexivity
         | |- is_Some (if ?b then _ else _) => destruct b
         | |- is_Some (match ?o with Some _ => _ | None => _ end) =>
             destruct o
         end.
Qed.

End Resolvers.

(** C3 (as stated, refuted). A ten-digit number that is neither a short
    code nor toll-free and has no entry in the directory resolves to
    [None] in [get_name] and in [resolve_contact]. *)
Lemma resolver_returns_none_without_match :
  ~ (forall (phone : string) (contacts : gmap string string),
       let d := digits_of phone in
       truthy (Some phone) = true ->
       ~ (5 <= len d <= 6) ->
       ~ (10 <= len d
          /\ CallWrapped.is_toll_free (slice (Some (-10)) (Some (-7)) d) = true) ->
       CallWrapped.get_name (Some phone) contacts <> None)
  /\ ~ (forall (phone : string) (contacts : gmap string string),
          let d := digits_of phone in
          truthy (Some phone) = true ->
          ~ (5 <= len d <= 6) ->
          ~ (10 <= len d
             /\ LocalBrief.is_toll_free (slice (Some (-10)) (Some (-7)) d) = true) ->
          LocalBrief.resolve_contact (Some phone) contacts None <> None).
Proof.
  split; intros H; apply (H "4155552671" ∅).
  all: try reflexivity.
  all: try (change (len (digits_of "4155552671")) with 10; lia).
  all: intros [_ Htf]; vm_compute in Htf; discriminate Htf.
Qed.

(** C3 (amended). For a phone-like identifier none of whose lookup keys
    is in the directory, [get_name] of [call_wrapped.py] and
    [resolve_contact] of [localbrief.py] return [None]: they have no
    fallback display value. The formatted number is produced only by
    [get_name_whatsapp] of [combined_wrapped.py], which never returns
    [None]: for a JID that is not in its table it returns the part before
    the [@], grouped as "(ddd) ddd-dddd" for ten characters, as
    "+1 (ddd) ddd-dddd" for eleven with a leading 1, and prefixed with
    "+" otherwise. *)
Theorem resolver_fallback (phone : string) (contacts : gmap string string) :
  let d := digits_of phone in
  (forall k : string,
     In k [d; slice (Some 1) None d; slice (Some (-10)) None d;
           slice (Some (-7)) None d] ->
     contacts !! k = None) ->
  contains "@" phone = false ->
  CallWrapped.get_name (Some phone) contacts = None
  /\ LocalBrief.resolve_contact (Some phone) contacts None = None
  /\ (forall (jid : option string) (wa : gmap string string),
        is_Some (CombinedWrapped.get_name_whatsapp jid wa))
  /\ (forall (jid : string) (wa : gmap string string),
        wa !! jid = None -> contains "@" jid = true ->
        let p := before "@" jid in
        CombinedWrapped.get_name_whatsapp (Some jid) wa =
          if len p =? 10 then
            Some ("(" +:+ slice None (Some 3) p +:+ ") "
                  +:+ slice (Some 3) (Some 6) p +:+ "-" +:+ slice (Some 6) None p)
          else if (len p =? 11) && startswith "1" p then
            Some ("+1 (" +:+ slice (Some 1) (Some 4) p +:+ ") "
                  +:+ slice (Some 4) (Some 7) p +:+ "-" +:+ slice (Some 7) None p)
          else Some ("+" +:+ p)).
Proof.
  cbv zeta. intros Hmiss Hat.
  assert (H1 : contacts !! digits_of phone = None)
    by (apply Hmiss; simpl; auto).
  assert (H2 : contacts !! slice (Some 1) None (digits_of phone) = None)
    by (apply Hmiss; simpl; auto).
  assert (H3 : contacts !! slice (Some (-10)) None (digits_of phone) = None)
    by (apply Hmiss; simpl; auto).
  assert (H4 : contacts !! slice (Some (-7)) None (digits_of phone) = None)
    by (apply Hmiss; simpl; auto 6).
  repeat match goal with |- _ /\ _ => split end.
  - unfold CallWrapped.get_name, CallWrapped.tier.
    change (str (Some phone)) with phone. rewrite H1, H2, H3, H4.
    repeat match goal with |- context [if ?b then _ else _] => destruct b end;
      reflexivity.
  - unfold LocalBrief.resolve_contact, LocalBrief.tier.
    change (str (Some phone)) with phone. cbn [truthy andb].
    rewrite contains_strip, Hat, digits_of_strip, H3, H4 by reflexivity.
    repeat match goal with |- context [if ?b then _ else _] => destruct b end;
      reflexivity.
  - apply get_name_whatsapp_some.
  - intros jid wa Hwa Hj. unfold CombinedWrapped.get_name_whatsapp.
    destruct jid as [|c s]; [discriminate Hj|].
    cbn [truthy negb]. change (str (Some (String c s))) with (String c s).
    now rewrite Hwa, Hj.
Qed.

Lemma resolver_fallback_witness :
  CallWrapped.get_name (Some "4155552671") ∅ = None
  /\ LocalBrief.resolve_contact (Some "4155552671") ∅ None = None
  /\ CombinedWrapped.get_name_whatsapp (Some "4155552671@s.whatsapp.net") ∅
     = Some "(415) 555-2671".
Proof.
  destruct (resolver_fallback "4155552671" ∅) as (H1 & H2 & _ & H4).
  - intros k _. apply lookup_empty.
  - reflexivity.
  - repeat match goal with |- _ /\ _ => split end;
      [exact H1 | exact H2 |].
    rewrite (H4 "4155552671@s.whatsapp.net" ∅);
      [reflexivity | apply lookup_empty | reflexivity].
Defined.

(** Boolean comparisons on [Z], for [lia]. *)
Ltac zbool :=
  repeat match goal with
         | H : (_ <=? _) = true |- _ => apply Z.leb_le in H
         | H : (_ <=? _) = false |- _ => apply Z.leb_gt in H
         | H : (_ <? _) = true |- _ => apply Z.ltb_lt in H
         | H : (_ <? _) = false |- _ => apply Z.ltb_ge in H
         | H : (_ =? _) = true |- _ => apply Z.eqb_eq in H
         | H : (_ =? _) = false |- _ => apply Z.eqb_neq in H
         | |- (_ <=? _) = true => apply Z.leb_le
         | |- (_ <=? _) = false => apply Z.leb_gt
         | |- (_ <? _) = true => apply Z.ltb_lt
         | |- (_ <? _) = false => apply Z.ltb_ge
         | |- (_ =? _) = true => apply Z.eqb_eq
         | |- (_ =? _) = false => apply Z.eqb_neq
         end;
  try lia.

(** ** Results *)

Lemma bind_ok_inv {A B : Type} (m : result A) (k : A -> result B) (b : B) :
  bind m k = Ok b -> exists a, m = Ok a /\ k a = Ok b.
Proof. destruct m as [a|e]; simpl; [eauto | discriminate]. Qed.

Section Results.
Context {A B : Type}.

(** A loop whose body succeeds on every element succeeds. *)
Lemma foldM_total (f : B -> A -> result B) (l : list A) :
  (forall x b, In x l -> exists b', f b x = Ok b') ->
  forall b, exists r, foldM f b l = Ok r.
Proof.
  induction l as [|x l IH]; intros Hf b; simpl; [eauto|].
  destruct (Hf x b (or_introl eq_refl)) as [b' ->]. simpl.
  apply IH. intros y c Hy. apply Hf. now right.
Qed.

(** A loop that appends at most one value per element. *)
Lemma foldM_append (f : list B -> A -> result (list B))
    (g : A -> option B) (l : list A) :
  (forall acc x, f acc x = Ok (match g x with
                               | Some v => acc ++ [v]
                               | None => acc
                               end)) ->
  forall acc : list B, foldM f acc l = Ok (acc ++ omap g l).
Proof.
  intros Hf. induction l as [|x l IH]; intros acc; simpl.
  - now rewrite app_nil_r.
  - rewrite Hf. cbn [bind]. rewrite IH.
    destruct (g x) as [v|]; [now rewrite <- app_assoc | reflexivity].
Qed.

End Results.

(** ** Stable sorting *)

Section Sorting.
Context {A : Type} (le : A -> A -> bool).

Lemma insert_sorted_perm (x : A) (l : list A) :
  Permutation (insert_sorted le x l) (x :: l).
Proof.
  induction l as [|y l IH]; simpl; [reflexivity|].
  destruct (le x y); [reflexivity|].
  rewrite IH. apply perm_swap.
Qed.

Lemma sorted_perm (l : list A) : Permutation (sorted le l) l.
Proof.
  induction l as [|x l IH]; simpl; [reflexivity|].
  unfold sorted in *. simpl. rewrite insert_sorted_perm. now constructor.
Qed.

Lemma sorted_In (x : A) (l : list A) : In x (sorted le l) <-> In x l.
Proof.
  split; apply Permutation_in; [|symmetry]; apply sorted_perm.
Qed.

Lemma sorted_length (l : list A) : length (sorted le l) = length l.
Proof. apply Permutation_length, sorted_perm. Qed.

Hypothesis le_total : forall x y, le x y = false -> le y x = true.
Hypothesis le_trans : forall x y z, le x y = true -> le y z = true -> le x z = true.

Lemma insert_sorted_strongly (x : A) (l : list A) :
  StronglySorted (fun a b => le a b = true) l ->
  StronglySorted (fun a b => le a b = true) (insert_sorted le x l).
Proof.
  induction 1 as [|y l Hs IH Hy]; simpl; [repeat constructor|].
  destruct (le x y) eqn:E.
  - constructor; [now constructor|].
    constructor; [exact E|].
    rewrite List.Forall_forall in *. intros z Hz. eapply le_trans; eauto.
  - constructor; [exact IH|].
    rewrite List.Forall_forall in *. intros z Hz.
    apply (Permutation_in _ (insert_sorted_perm x l)) in Hz.
    destruct Hz as [<-|Hz]; [now apply le_total | now apply Hy].
Qed.

Lemma sorted_strongly (l : list A) :
  StronglySorted (fun a b => le a b = true) (sorted le l).
Proof.
  induction l as [|x l IH]; [constructor|].
  unfold sorted in *. simpl. now apply insert_sorted_strongly.
Qed.

(** Filtering commutes with insertion into a sorted list. *)
Lemma filter_insert_sorted (p : A -> bool) (x : A) (l : list A) :
  StronglySorted (fun a b => le a b = true) l ->
  List.filter p (insert_sorted le x l) =
    if p x then insert_sorted le x (List.filter p l) else List.filter p l.
Proof.
  induction 1 as [|y l Hs IH Hy]; simpl.
  - now destruct (p x).
  - destruct (le x y) eqn:E; simpl.
    + destruct (p x) eqn:Px; [|reflexivity].
      destruct (p y) eqn:Py; simpl; [now rewrite E|].
      assert (Hall : Forall (fun z => le x z = true) (List.filter p l)).
      { rewrite List.Forall_forall in *. intros z Hz.
        apply filter_In in Hz as [Hz _]. eapply le_trans; eauto. }
      destruct (List.filter p l) as [|z r]; [reflexivity|].
      simpl. inversion Hall as [|? ? Hz _]; subst. now rewrite Hz.
    + rewrite IH. destruct (p y) eqn:Py, (p x) eqn:Px; simpl;
        rewrite ?E; reflexivity.
Qed.

Lemma filter_sorted (p : A -> bool) (l : list A) :
  List.filter p (sorted le l) = sorted le (List.filter p l).
Proof.
  induction l as [|x l IH]; [reflexivity|].
  unfold sorted in *. simpl.
  rewrite filter_insert_sorted by apply sorted_strongly.
  rewrite IH. now destruct (p x).
Qed.

End Sorting.

Section KeySorting.
Context {A : Type} (key : A -> Z).

Lemma count_if_sorted (le : A -> A -> bool) (p : A -> bool) (l : list A) :
  count_if p (sorted le l) = count_if p l.
Proof.
  unfold count_if. f_equal.
  induction l as [|x l IH]; [reflexivity|].
  unfold sorted in *. simpl.
  assert (H : forall m, length (List.filter p (insert_sorted le x m))
                        = length (List.filter p (x :: m))).
  { induction m as [|y m IHm]; simpl; [reflexivity|].
    destruct (le x y); simpl; [reflexivity|].
    simpl in IHm. destruct (p y), (p x); simpl in *; lia. }
  rewrite H. simpl. destruct (p x); simpl; now rewrite IH.
Qed.

Lemma filter_sorted_by (p : A -> bool) (l : list A) :
  List.filter p (sorted_by key l) = sorted_by key (List.filter p l).
Proof. apply filter_sorted; intros; cbv beta in *; zbool. Qed.

(** [sorted(..., reverse=True)] is descending in its key. *)
Lemma sorted_by_desc_strongly (l : list A) :
  StronglySorted (fun a b => key b <= key a) (sorted_by_desc key l).
Proof.
  pose proof (sorted_strongly (fun x y => key y <=? key x)
                ltac:(intros; cbv beta in *; zbool)
                ltac:(intros; cbv beta in *; zbool) l) as H.
  unfold sorted_by_desc. induction H as [|x m Hs IH Hx]; constructor; auto.
  rewrite List.Forall_forall in *. intros y Hy. specialize (Hx y Hy). zbool.
Qed.

Lemma sorted_by_strongly (l : list A) :
  StronglySorted (fun a b => key a <= key b) (sorted_by key l).
Proof.
  pose proof (sorted_strongly (fun x y => key x <=? key y)
                ltac:(intros; cbv beta in *; zbool)
                ltac:(intros; cbv beta in *; zbool) l) as H.
  unfold sorted_by. induction H as [|x m Hs IH Hx]; constructor; auto.
  rewrite List.Forall_forall in *. intros y Hy. specialize (Hx y Hy). zbool.
Qed.

End KeySorting.

(** ** Prefixes of sorted lists *)

Section Prefixes.

Lemma take_In {A : Type} (n : nat) (l : list A) (x : A) :
  In x (take n l) -> In x l.
Proof.
  revert l. induction n as [|n IH]; intros [|y l]; simpl; try tauto.
  intros [->|H]; [now left | right; now apply IH].
Qed.

Lemma map_take {A B : Type} (f : A -> B) (n : nat) (l : list A) :
  map f (take n l) = take n (map f l).
Proof.
  revert l. induction n as [|n IH]; intros [|x l]; simpl; try reflexivity.
  now rewrite IH.
Qed.

Lemma NoDup_take {A : Type} (n : nat) (l : list A) :
  List.NoDup l -> List.NoDup (take n l).
Proof.
  revert l. induction n as [|n IH]; intros [|x l] H; simpl;
    try constructor.
  - inversion H; subst. intros Hin. apply take_In in Hin. contradiction.
  - inversion H; subst. now apply IH.
Qed.

Lemma StronglySorted_take {A : Type} (R : A -> A -> Prop) (n : nat)
    (l : list A) :
  StronglySorted R l -> StronglySorted R (take n l).
Proof.
  revert l. induction n as [|n IH]; intros [|x l] H; simpl;
    try constructor.
  - inversion H; subst. now apply IH.
  - inversion H as [|? ? _ Hall]; subst.
    rewrite List.Forall_forall in *. intros y Hy.
    apply Hall. now apply take_In in Hy.
Qed.

(** In a sorted list what is cut off comes after what is kept. *)
Lemma StronglySorted_take_drop {A : Type} (R : A -> A -> Prop) (n : nat)
    (l : list A) (y x : A) :
  StronglySorted R l -> In y (take n l) -> In x (drop n l) -> R y x.
Proof.
  revert l. induction n as [|n IH]; intros [|z l] H; simpl; try tauto.
  inversion H as [|? ? Hs Hall]; subst.
  rewrite List.Forall_forall in Hall.
  intros [->|Hy] Hx.
  - apply Hall. rewrite <- (take_drop n l). apply in_or_app. now right.
  - now apply (IH l).
Qed.

End Prefixes.

Section TopN.
Context {A : Type} (key : A -> Z).

(** The first [n] of a list sorted in descending order of a key. *)
Lemma take_sorted_desc_spec (n : nat) (l : list A) :
  let top := take n (sorted_by_desc key l) in
  length top = Nat.min n (length l)
  /\ StronglySorted (fun a b => key b <= key a) top
  /\ (forall x, In x top -> In x l)
  /\ (forall x, In x l ->
        In x top
        \/ (length top = n /\ forall y, In y top -> key x <= key y)).
Proof.
  intros top. subst top.
  pose proof (sorted_by_desc_strongly key l) as Hs.
  assert (Hin : forall x, In x (sorted_by_desc key l) <-> In x l)
    by (intros x; apply sorted_In).
  assert (Hlen : length (sorted_by_desc key l) = length l)
    by apply sorted_length.
  set (s := sorted_by_desc key l) in *.
  split; [rewrite length_take; lia|].
  split; [now apply StronglySorted_take|].
  split; [intros x Hx; apply Hin; now apply take_In in Hx|].
  intros x Hx. apply Hin in Hx. rewrite <- (take_drop n s) in Hx.
  apply in_app_or in Hx as [Hx|Hx]; [now left|]. right. split.
  - rewrite length_take.
    assert (length (drop n s) <> 0)%nat
      by (destruct (drop n s); [destruct Hx | discriminate]).
    rewrite length_drop in *. lia.
  - intros y Hy.
    exact (StronglySorted_take_drop _ n s y x Hs Hy Hx).
Qed.

End TopN.

(** ** Insertion-ordered dictionaries *)

Section Dicts.
Context {K V : Type} `{EqDecision K}.

Lemma dict_get_update (k k' : K) (f : V -> V) (dflt : V) (d : dict K V) :
  dict_get k' (dict_update k f dflt d) =
    if decide (k = k') then Some (f (default dflt (dict_get k d)))
    else dict_get k' d.
Proof.
  induction d as [|[k0 v0] d IH]; simpl.
  - destruct (decide (k' = k)), (decide (k = k')); cbn; congruence.
  - destruct (decide (k = k0)) as [->|Hk]; simpl.
    + destruct (decide (k' = k0)), (decide (k0 = k')); cbn; congruence.
    + rewrite IH.
      destruct (decide (k' = k0)), (decide (k = k')); cbn; congruence.
Qed.

Lemma dict_update_keys (k k' : K) (f : V -> V) (dflt : V) (d : dict K V) :
  In k' (map fst (dict_update k f dflt d)) <-> k' = k \/ In k' (map fst d).
Proof.
  induction d as [|[k0 v0] d IH]; simpl; [intuition congruence|].
  destruct (decide (k = k0)) as [->|Hk]; simpl; [intuition congruence|].
  rewrite IH. intuition congruence.
Qed.

Lemma dict_update_NoDup (k : K) (f : V -> V) (dflt : V) (d : dict K V) :
  List.NoDup (map fst d) -> List.NoDup (map fst (dict_update k f dflt d)).
Proof.
  induction d as [|[k0 v0] d IH]; simpl; intros Hd.
  - constructor; [intros [] | constructor].
  - inversion Hd as [|? ? Hnin Hd']; subst.
    destruct (decide (k = k0)) as [->|Hk]; simpl; [now constructor|].
    constructor; [|now apply IH].
    rewrite dict_update_keys. intros [->|Hin]; [congruence | contradiction].
Qed.

Lemma dict_get_Some_In (k : K) (v : V) (d : dict K V) :
  dict_get k d = Some v -> In (k, v) d.
Proof.
  induction d as [|[k0 v0] d IH]; simpl; [discriminate|].
  destruct (decide (k = k0)) as [->|Hk]; [intros [= ->]; now left|].
  intros H1. right. now apply IH.
Qed.

Lemma dict_get_In (k : K) (v : V) (d : dict K V) :
  List.NoDup (map fst d) -> (In (k, v) d <-> dict_get k d = Some v).
Proof.
  intros Hd. split; [|apply dict_get_Some_In].
  induction d as [|[k0 v0] d IH]; simpl; [intros []|].
  inversion Hd as [|? ? Hnin Hd']; subst.
  intros [[= -> ->]|Hin].
  - destruct (decide (k = k)); congruence.
  - destruct (decide (k = k0)) as [->|Hk]; [|now apply IH].
    exfalso. apply Hnin. change k0 with (fst (k0, v)). now apply in_map.
Qed.

Section Fold.
Context {A : Type} (p : A -> bool) (key : A -> K) (upd : A -> V -> V)
        (dflt : V) (step : dict K V -> A -> dict K V).
Hypothesis step_eq : forall d x,
  step d x = if p x then dict_update (key x) (upd x) dflt d else d.

(** The value a loop of updates leaves under a key is the fold of the
    updates of the elements that have this key. *)
Lemma foldl_update_get (l : list A) : forall (d : dict K V) (k : K),
  dict_get k (foldl step d l) =
    match List.filter (fun x => p x && bool_decide (key x = k)) l with
    | [] => dict_get k d
    | xs => Some (foldl (fun v x => upd x v) (default dflt (dict_get k d)) xs)
    end.
Proof.
  induction l as [|a l IH]; intros d k; [reflexivity|].
  cbn [foldl List.filter]. rewrite IH, step_eq.
  destruct (p a) eqn:Pa; cbn [andb].
  - rewrite dict_get_update.
    destruct (decide (key a = k)) as [E|E].
    + rewrite (bool_decide_eq_true_2 _ E). subst k. unfold id.
      now destruct (List.filter _ l).
    + now rewrite (bool_decide_eq_false_2 _ E).
  - reflexivity.
Qed.

Lemma foldl_update_NoDup (l : list A) : forall d : dict K V,
  List.NoDup (map fst d) -> List.NoDup (map fst (foldl step d l)).
Proof.
  induction l as [|a l IH]; intros d Hd; [exact Hd|].
  cbn [foldl]. apply IH. rewrite step_eq.
  destruct (p a); [now apply dict_update_NoDup | exact Hd].
Qed.

End Fold.
End Dicts.

Section Counters.
Context {A K : Type} `{EqDecision K}.

Lemma foldl_incr (l : list A) (n : Z) :
  foldl (fun v _ => v + 1) n l = n + Z.of_nat (length l).
Proof.
  revert n. induction l as [|x l IH]; intros n; simpl; [lia|].
  rewrite IH. lia.
Qed.

Lemma count_if_filter (p q : A -> bool) (l : list A) :
  count_if q (List.filter p l) = count_if (fun x => p x && q x) l.
Proof.
  unfold count_if. f_equal.
  induction l as [|x l IH]; [reflexivity|].
  simpl. destruct (p x); simpl; [destruct (q x); simpl|]; now rewrite IH.
Qed.

Lemma count_if_ext (p q : A -> bool) (l : list A) :
  (forall x, In x l -> p x = q x) -> count_if p l = count_if q l.
Proof.
  intros H. unfold count_if. f_equal.
  induction l as [|x l IH]; [reflexivity|].
  simpl. rewrite (H x) by now left.
  destruct (q x); simpl; rewrite IH; auto; intros; apply H; now right.
Qed.

Lemma count_if_le (p q : A -> bool) (l : list A) :
  (forall x, In x l -> p x = true -> q x = true) ->
  count_if p l <= count_if q l.
Proof.
  intros H. unfold count_if.
  induction l as [|x l IH]; [reflexivity|].
  assert (IH' := IH (fun y Hy => H y (or_intror Hy))).
  pose proof (H x (or_introl eq_refl)) as Hx.
  simpl. destruct (p x), (q x); simpl; try lia.
  all: try discriminate (Hx eq_refl).
Qed.

Lemma count_if_app (p : A -> bool) (l1 l2 : list A) :
  count_if p (l1 ++ l2) = count_if p l1 + count_if p l2.
Proof. unfold count_if. rewrite List.filter_app, length_app. lia. Qed.

Lemma count_if_none (p : A -> bool) (l : list A) :
  (forall x, In x l -> p x = false) -> count_if p l = 0.
Proof.
  intros H. unfold count_if.
  induction l as [|x l IH]; [reflexivity|].
  simpl. rewrite (H x) by now left. apply IH. intros. apply H. now right.
Qed.

Lemma count_if_nonneg (p : A -> bool) (l : list A) : 0 <= count_if p l.
Proof. unfold count_if. lia. Qed.

(** The counter of a key is the number of counted elements with it. *)
Lemma count_by_get (p : A -> bool) (key : A -> K) (l : list A) (k : K) :
  dict_get k (count_by p key l) =
    let n := count_if (fun x => p x && bool_decide (key x = k)) l in
    if 0 <? n then Some n else None.
Proof.
  unfold count_by.
  rewrite (foldl_update_get p key (fun _ n => n + 1) 0 _ (fun _ _ => eq_refl)).
  cbv zeta. unfold count_if.
  destruct (List.filter _ l) as [|x xs] eqn:E; [reflexivity|].
  rewrite foldl_incr. cbn [dict_get default].
  destruct (0 <? _) eqn:E0; [f_equal; lia | zbool; simpl in E0; lia].
Qed.

Lemma count_by_NoDup (p : A -> bool) (key : A -> K) (l : list A) :
  List.NoDup (map fst (count_by p key l)).
Proof.
  apply (foldl_update_NoDup p key (fun _ n => n + 1) 0 _ (fun _ _ => eq_refl)).
  constructor.
Qed.

Lemma count_by_get_default (p : A -> bool) (key : A -> K) (l : list A) (k : K) :
  dict_get_default k 0 (count_by p key l)
  = count_if (fun x => p x && bool_decide (key x = k)) l.
Proof.
  unfold dict_get_default. rewrite count_by_get. cbv zeta.
  destruct (0 <? _) eqn:E; [reflexivity|].
  zbool. pose proof (count_if_nonneg (fun x => p x && bool_decide (key x = k)) l).
  simpl. lia.
Qed.

(** Counting after a filter is counting under the conjunction. *)
Lemma count_by_filter (p : A -> bool) (key : A -> K) (l : list A) :
  count_by p key l = count_by (fun _ => true) key (List.filter p l).
Proof.
  unfold count_by. generalize ([] : dict K Z).
  induction l as [|x l IH]; intros d; [reflexivity|].
  simpl. destruct (p x); simpl; apply IH.
Qed.

End Counters.

(** ** Floats *)

Section Rounding.

Lemma Qlt_bool_iff (a b : Q) : Qlt_bool a b = true <-> (a < b)%Q.
Proof.
  unfold Qlt_bool. rewrite negb_true_iff. split.
  - intros H. apply Qnot_le_lt. intros Hle.
    apply Qle_bool_iff in Hle. congruence.
  - intros H. destruct (Qle_bool b a) eqn:E; [|reflexivity].
    apply Qle_bool_iff in E. exfalso. exact (Qlt_not_le _ _ H E).
Qed.

Lemma round_bounds (a b : Z) (x : Q) :
  (inject_Z a <= x)%Q -> (x <= inject_Z b)%Q -> a <= round x <= b.
Proof.
  intros Ha Hb.
  assert (Hfa : a <= Qfloor x).
  { rewrite <- (Qfloor_Z a). now apply Qfloor_resp_le. }
  assert (Hfb : Qfloor x <= b).
  { rewrite <- (Qfloor_Z b). now apply Qfloor_resp_le. }
  pose proof (Qfloor_le x) as Hf.
  unfold round. cbv zeta.
  destruct (Qlt_bool (x - inject_Z (Qfloor x)) (1 # 2)) eqn:E1; [lia|].
  assert (Hhalf : (inject_Z (Qfloor x) + (1 # 2) <= x)%Q).
  { destruct (Qlt_le_dec (x - inject_Z (Qfloor x)) (1 # 2)) as [H|H].
    - apply Qlt_bool_iff in H. congruence.
    - lra. }
  assert (Hlt : Qfloor x < b) by (rewrite Zlt_Qlt; lra).
  destruct (Qlt_bool (1 # 2) (x - inject_Z (Qfloor x))); [lia|].
  destruct (Z.even (Qfloor x)); lia.
Qed.

Lemma Qlt_bool_false (a b : Q) : Qlt_bool a b = false <-> (b <= a)%Q.
Proof.
  unfold Qlt_bool. rewrite negb_false_iff. apply Qle_bool_iff.
Qed.

(** Rounding to the nearest integer is monotone. *)
Lemma round_mono (a b : Q) : (a <= b)%Q -> round a <= round b.
Proof.
  intros Hab.
  pose proof (Qfloor_resp_le a b Hab) as Hf.
  pose proof (Qfloor_le a) as Ha0. pose proof (Qlt_floor a) as Ha1.
  pose proof (Qfloor_le b) as Hb0. pose proof (Qlt_floor b) as Hb1.
  rewrite inject_Z_plus in Ha1, Hb1.
  change (inject_Z 1) with (1 # 1) in Ha1, Hb1.
  assert (Hra : round a <= Qfloor a + 1).
  { unfold round. cbv zeta.
    destruct (Qlt_bool _ _); [lia|]. destruct (Qlt_bool _ _); [lia|].
    destruct (Z.even _); lia. }
  assert (Hrb : Qfloor b <= round b).
  { unfold round. cbv zeta.
    destruct (Qlt_bool _ _); [lia|]. destruct (Qlt_bool _ _); [lia|].
    destruct (Z.even _); lia. }
  destruct (Z_lt_le_dec (Qfloor a) (Qfloor b)) as [Hlt|Hge]; [lia|].
  assert (E : Qfloor b = Qfloor a) by lia.
  unfold round. cbv zeta. rewrite E.
  destruct (Qlt_bool (a - inject_Z (Qfloor a)) (1 # 2)) eqn:A1.
  - destruct (Qlt_bool (b - inject_Z (Qfloor a)) (1 # 2)); [lia|].
    destruct (Qlt_bool (1 # 2) (b - inject_Z (Qfloor a))); [lia|].
    destruct (Z.even (Qfloor a)); lia.
  - apply Qlt_bool_false in A1.
    destruct (Qlt_bool (b - inject_Z (Qfloor a)) (1 # 2)) eqn:B1.
    { apply Qlt_bool_iff in B1. lra. }
    destruct (Qlt_bool (1 # 2) (a - inject_Z (Qfloor a))) eqn:A2.
    + apply Qlt_bool_iff in A2.
      destruct (Qlt_bool (1 # 2) (b - inject_Z (Qfloor a))) eqn:B2; [lia|].
      apply Qlt_bool_false in B2. lra.
    + destruct (Qlt_bool (1 # 2) (b - inject_Z (Qfloor a))); [|lia].
      destruct (Z.even (Qfloor a)); lia.
Qed.

Lemma round_inject_Z (k : Z) : round (inject_Z k) = k.
Proof.
  pose proof (round_bounds k k (inject_Z k) (Qle_refl _) (Qle_refl _)). lia.
Qed.

Lemma round_Qeq (a b : Q) : (a == b)%Q -> round a = round b.
Proof.
  intros E.
  pose proof (round_mono a b ltac:(rewrite E; apply Qle_refl)).
  pose proof (round_mono b a ltac:(rewrite E; apply Qle_refl)). lia.
Qed.

End Rounding.

Section Powers.

Lemma pow2_pos (e : Z) : (0 < pow2 e)%Q.
Proof. apply Qpower_0_lt. reflexivity. Qed.

Lemma pow2_plus (a b : Z) : (pow2 (a + b) == pow2 a * pow2 b)%Q.
Proof. apply Qpower_plus. discriminate. Qed.

Lemma pow2_le (a b : Z) : a <= b -> (pow2 a <= pow2 b)%Q.
Proof. intros H. apply Qpower_le_compat_l; [exact H|discriminate]. Qed.

Lemma pow2_lt (a b : Z) : a < b -> (pow2 a < pow2 b)%Q.
Proof. intros H. apply Qpower_lt_compat_l; [exact H|reflexivity]. Qed.

Lemma pow2_inject (e : Z) : 0 <= e -> (pow2 e == inject_Z (2 ^ e))%Q.
Proof. intros H. unfold pow2. now rewrite Zpower_Qpower. Qed.

Lemma pow2_succ (e : Z) : (pow2 (e + 1) == (2 # 1) * pow2 e)%Q.
Proof. rewrite pow2_plus. change (pow2 1) with (2 # 1). ring. Qed.

End Powers.

Section Binades.

Lemma Qdiv_Z_lt (n d x y : Z) :
  0 < d -> 0 < y -> n * y < x * d ->
  (inject_Z n / inject_Z d < inject_Z x / inject_Z y)%Q.
Proof.
  intros Hd Hy H.
  assert (Hd' : (0 < inject_Z d)%Q)
    by (change 0%Q with (inject_Z 0); now rewrite <- Zlt_Qlt).
  assert (Hy' : (0 < inject_Z y)%Q)
    by (change 0%Q with (inject_Z 0); now rewrite <- Zlt_Qlt).
  apply Qlt_shift_div_r; [exact Hd'|].
  setoid_replace (inject_Z x / inject_Z y * inject_Z d)%Q
    with (inject_Z x * inject_Z d / inject_Z y)%Q
    using relation Qeq by (unfold Qdiv; ring).
  apply Qlt_shift_div_l; [exact Hy'|].
  rewrite <- !inject_Z_mult, <- Zlt_Qlt. exact H.
Qed.

Lemma Qdiv_Z_le (n d x y : Z) :
  0 < d -> 0 < y -> n * y <= x * d ->
  (inject_Z n / inject_Z d <= inject_Z x / inject_Z y)%Q.
Proof.
  intros Hd Hy H.
  assert (Hd' : (0 < inject_Z d)%Q)
    by (change 0%Q with (inject_Z 0); now rewrite <- Zlt_Qlt).
  assert (Hy' : (0 < inject_Z y)%Q)
    by (change 0%Q with (inject_Z 0); now rewrite <- Zlt_Qlt).
  apply Qle_shift_div_r; [exact Hd'|].
  setoid_replace (inject_Z x / inject_Z y * inject_Z d)%Q
    with (inject_Z x * inject_Z d / inject_Z y)%Q
    using relation Qeq by (unfold Qdiv; ring).
  apply Qle_shift_div_l; [exact Hy'|].
  rewrite <- !inject_Z_mult, <- Zle_Qle. exact H.
Qed.

Lemma pow2_sub (x y : Z) :
  0 <= x -> 0 <= y -> (pow2 (x - y) == inject_Z (2 ^ x) / inject_Z (2 ^ y))%Q.
Proof.
  intros Hx Hy. replace (x - y) with (x + - y) by lia.
  rewrite pow2_plus. unfold pow2 at 2. rewrite Qpower_opp. fold (pow2 y).
  now rewrite !pow2_inject by lia.
Qed.

(** The binade of a positive rational holds it. *)
Lemma binade_spec (q : Q) :
  (0 < q)%Q -> (pow2 (binade q) <= q)%Q /\ (q < pow2 (binade q + 1))%Q.
Proof.
  intros Hq. destruct q as [n d].
  assert (Hn : 0 < n) by (unfold Qlt in Hq; simpl in Hq; lia).
  unfold binade. cbn [Qnum Qden].
  set (a := Z.log2 n). set (b := Z.log2 (Zpos d)).
  destruct (Z.log2_spec n Hn) as [Ha0 Ha1]. fold a in Ha0, Ha1.
  destruct (Z.log2_spec (Zpos d) ltac:(lia)) as [Hb0 Hb1]. fold b in Hb0, Hb1.
  assert (Ha : 0 <= a) by apply Z.log2_nonneg.
  assert (Hb : 0 <= b) by apply Z.log2_nonneg.
  assert (Hq' : (n # d == inject_Z n / inject_Z (Zpos d))%Q)
    by apply Qmake_Qdiv.
  assert (H2a : 0 < 2 ^ a) by (apply Z.pow_pos_nonneg; lia).
  assert (H2b : 0 < 2 ^ b) by (apply Z.pow_pos_nonneg; lia).
  assert (Hsa : 2 ^ Z.succ a = 2 * 2 ^ a) by (apply Z.pow_succ_r; lia).
  assert (Hsb : 2 ^ Z.succ b = 2 * 2 ^ b) by (apply Z.pow_succ_r; lia).
  assert (Hup : (n # d < pow2 (a - b + 1))%Q).
  { rewrite Hq'. replace (a - b + 1) with (Z.succ a - b) by lia.
    rewrite pow2_sub by lia. apply Qdiv_Z_lt; [lia|lia|]. nia. }
  assert (Hlow : (pow2 (a - b - 1) <= n # d)%Q).
  { rewrite Hq'. replace (a - b - 1) with (a - Z.succ b) by lia.
    rewrite pow2_sub by lia. apply Qdiv_Z_le; [lia|lia|]. nia. }
  destruct (Qle_bool (pow2 (a - b)) (n # d)) eqn:E.
  - apply Qle_bool_iff in E. split; [exact E|exact Hup].
  - split; [exact Hlow|].
    replace (a - b - 1 + 1) with (a - b) by lia.
    apply Qnot_le_lt. intros H. apply Qle_bool_iff in H. congruence.
Qed.

Lemma binade_unique (q : Q) (e : Z) :
  (pow2 e <= q)%Q -> (q < pow2 (e + 1))%Q -> binade q = e.
Proof.
  intros H0 H1.
  assert (Hq : (0 < q)%Q) by (eapply Qlt_le_trans; [apply pow2_pos|exact H0]).
  destruct (binade_spec q Hq) as [B0 B1].
  destruct (Z_lt_le_dec (binade q) e) as [Hlt|Hge].
  - exfalso. pose proof (pow2_le (binade q + 1) e ltac:(lia)). lra.
  - destruct (Z_lt_le_dec e (binade q)) as [Hlt|Hle]; [|lia].
    exfalso. pose proof (pow2_le (e + 1) (binade q) ltac:(lia)). lra.
Qed.

Lemma binade_mono (a b : Q) :
  (0 < a)%Q -> (a <= b)%Q -> binade a <= binade b.
Proof.
  intros Ha Hab.
  destruct (binade_spec a Ha) as [A0 A1].
  destruct (binade_spec b ltac:(lra)) as [B0 B1].
  destruct (Z_lt_le_dec (binade b) (binade a)) as [Hlt|Hle]; [|exact Hle].
  exfalso. pose proof (pow2_le (binade b + 1) (binade a) ltac:(lia)). lra.
Qed.

End Binades.

Section Floats.

(** A positive number rounds into the closure of its binade. *)
Lemma round_significand_bounds (q : Q) :
  (0 < q)%Q ->
  (pow2 (binade q) <= round_significand q)%Q
  /\ (round_significand q <= pow2 (binade q + 1))%Q.
Proof.
  intros Hq. destruct (binade_spec q Hq) as [B0 B1].
  unfold round_significand. cbv zeta.
  set (e := binade q) in *. set (u := pow2 (e - 52)).
  assert (Hu : (0 < u)%Q) by apply pow2_pos.
  assert (E0 : (pow2 e == inject_Z (2 ^ 52) * u)%Q).
  { unfold u. rewrite <- (pow2_inject 52), <- pow2_plus by lia.
    now replace (52 + (e - 52)) with e by lia. }
  assert (E1 : (pow2 (e + 1) == inject_Z (2 ^ 53) * u)%Q).
  { unfold u. rewrite <- (pow2_inject 53), <- pow2_plus by lia.
    now replace (53 + (e - 52)) with (e + 1) by lia. }
  assert (Hr : 2 ^ 52 <= round (q / u) <= 2 ^ 53).
  { apply round_bounds.
    - apply Qle_shift_div_l; [exact Hu|]. now rewrite <- E0.
    - apply Qle_shift_div_r; [exact Hu|]. rewrite <- E1. lra. }
  rewrite E0, E1. split.
  - apply Qmult_le_compat_r; [|lra]. rewrite <- Zle_Qle. lia.
  - apply Qmult_le_compat_r; [|lra]. rewrite <- Zle_Qle. lia.
Qed.

Lemma round_significand_mono (a b : Q) :
  (0 < a)%Q -> (a <= b)%Q ->
  (round_significand a <= round_significand b)%Q.
Proof.
  intros Ha Hab. assert (Hb : (0 < b)%Q) by lra.
  pose proof (binade_mono a b Ha Hab) as He.
  destruct (Z_lt_le_dec (binade a) (binade b)) as [Hlt|Hge].
  - destruct (round_significand_bounds a Ha) as [_ A1].
    destruct (round_significand_bounds b Hb) as [B0 _].
    pose proof (pow2_le (binade a + 1) (binade b) ltac:(lia)). lra.
  - assert (E : binade b = binade a) by lia.
    unfold round_significand. cbv zeta. rewrite E.
    set (u := pow2 (binade a - 52)).
    assert (Hu : (0 < u)%Q) by apply pow2_pos.
    apply Qmult_le_compat_r; [|lra]. rewrite <- Zle_Qle.
    apply round_mono. unfold Qdiv. apply Qmult_le_compat_r; [exact Hab|].
    apply Qinv_le_0_compat. lra.
Qed.

Lemma round_significand_Qeq (a b : Q) :
  (0 < a)%Q -> (a == b)%Q -> (round_significand a == round_significand b)%Q.
Proof.
  intros Ha E. apply Qle_antisym; apply round_significand_mono; 
    rewrite ?E; try apply Qle_refl; rewrite <- ?E; exact Ha.
Qed.

Lemma Qnum_pos (q : Q) : (0 < q)%Q <-> exists p, Qnum q = Zpos p.
Proof.
  destruct q as [[|p|p] d]; unfold Qlt; simpl; split;
    try lia; try (intros [? ?]; discriminate); eauto.
Qed.

Lemma to_float_pos (q : Q) :
  (0 < q)%Q -> (to_float q == round_significand q)%Q.
Proof.
  intros H. apply Qnum_pos in H as [p Hp]. unfold to_float. rewrite Hp.
  apply Qred_correct.
Qed.

Lemma to_float_neg (q : Q) :
  (q < 0)%Q -> (to_float q == - round_significand (- q))%Q.
Proof.
  intros H. unfold to_float.
  destruct q as [[|p|p] d]; unfold Qlt in H; simpl in H; try lia.
  cbn [Qnum]. apply Qred_correct.
Qed.

Lemma to_float_zero (q : Q) : (q == 0)%Q -> to_float q = (0 # 1)%Q.
Proof.
  intros H. unfold to_float.
  destruct q as [[|p|p] d]; unfold Qeq in H; simpl in H; try lia. reflexivity.
Qed.

(** The sign is kept. *)
Lemma to_float_sign (q : Q) :
  ((0 < q)%Q -> (0 < to_float q)%Q) /\ ((q < 0)%Q -> (to_float q < 0)%Q).
Proof.
  split; intros H.
  - rewrite (to_float_pos q H).
    destruct (round_significand_bounds q H) as [B _].
    pose proof (pow2_pos (binade q)). lra.
  - rewrite (to_float_neg q H).
    assert (H' : (0 < - q)%Q) by lra.
    destruct (round_significand_bounds (- q) H') as [B _].
    pose proof (pow2_pos (binade (- q))). lra.
Qed.

(** Rounding to a float is monotone. *)
Lemma to_float_mono (a b : Q) : (a <= b)%Q -> (to_float a <= to_float b)%Q.
Proof.
  intros Hab.
  destruct (Q_dec a 0) as [[Ha|Ha]|Ha], (Q_dec b 0) as [[Hb|Hb]|Hb];
    try lra.
  - rewrite (to_float_neg a Ha), (to_float_neg b Hb).
    pose proof (round_significand_mono (- b) (- a) ltac:(lra) ltac:(lra)). lra.
  - pose proof (proj2 (to_float_sign a) Ha).
    pose proof (proj1 (to_float_sign b) Hb). lra.
  - pose proof (proj2 (to_float_sign a) Ha).
    rewrite (to_float_zero b Hb). lra.
  - rewrite (to_float_pos a Ha), (to_float_pos b Hb).
    now apply round_significand_mono.
  - rewrite (to_float_zero a Ha).
    pose proof (proj1 (to_float_sign b) Hb). lra.
  - rewrite (to_float_zero a Ha), (to_float_zero b Hb). lra.
Qed.

(** Integers below [2^53] are floats. *)
Lemma to_float_inject_Z (k : Z) :
  0 <= k < 2 ^ 53 -> (to_float (inject_Z k) == inject_Z k)%Q.
Proof.
  intros Hk. destruct (Z.eq_dec k 0) as [->|Hne]; [reflexivity|].
  assert (Hpos : (0 < inject_Z k)%Q).
  { change 0%Q with (inject_Z 0). rewrite <- Zlt_Qlt. lia. }
  rewrite (to_float_pos _ Hpos).
  destruct (binade_spec _ Hpos) as [B0 B1].
  unfold round_significand. cbv zeta.
  set (e := binade (inject_Z k)) in *.
  assert (He : 0 <= e <= 52).
  { split.
    - destruct (Z_lt_le_dec e 0) as [Hlt|Hge]; [|exact Hge]. exfalso.
      pose proof (pow2_le (e + 1) 0 ltac:(lia)) as H.
      change (pow2 0) with (1 # 1) in H.
      assert ((1 # 1 <= inject_Z k)%Q).
      { change (1 # 1) with (inject_Z 1). rewrite <- Zle_Qle. lia. }
      lra.
    - destruct (Z_lt_le_dec 52 e) as [Hlt|Hge]; [|exact Hge]. exfalso.
      pose proof (pow2_le 53 e ltac:(lia)) as H.
      rewrite (pow2_inject 53) in H by lia.
      assert ((inject_Z k < inject_Z (2 ^ 53))%Q) by (rewrite <- Zlt_Qlt; lia).
      lra. }
  assert (Ediv : (inject_Z k / pow2 (e - 52)
                  == inject_Z (k * 2 ^ (52 - e)))%Q).
  { rewrite inject_Z_mult, <- (pow2_inject (52 - e)) by lia.
    replace (e - 52) with (- (52 - e)) by lia.
    unfold pow2 at 1. rewrite Qpower_opp. fold (pow2 (52 - e)).
    unfold Qdiv. rewrite Qinv_involutive. reflexivity. }
  rewrite (round_Qeq _ _ Ediv), round_inject_Z.
  rewrite inject_Z_mult, <- (pow2_inject (52 - e)) by lia.
  rewrite <- Qmult_assoc, <- pow2_plus.
  replace (52 - e + (e - 52)) with 0 by lia.
  change (pow2 0) with (1 # 1). ring.
Qed.

End Floats.

(** Three runs of lines 633-634. Callbacks after 33, 124 and 293
    seconds have the exact mean 2.5 minutes; the three quotients by 60
    are rounded, their float sum is 7.500000000000001 under either
    summation, and the reported average is 3. Callbacks after 30, 90
    and 330 seconds are 0.5, 1.5 and 5.5 minutes without rounding; the
    mean is the float 2.5 and [round] takes it to the even neighbour 2.
    After 45, 150 and 300 seconds the report says 3. *)
Example avg_callback_time_of_runs :
  let mins (l : list Z) :=
    map (fun x => to_float (inject_Z x / inject_Z 60)) l in
  forall env : Env,
    fsum env (mins [33; 124; 293])
    = (8444249301319681 # 1125899906842624)%Q
    /\ CallWrapped.avg_callback_time_of env (mins [33; 124; 293])
       = Ok (Some 3)
    /\ CallWrapped.avg_callback_time_of env (mins [30; 90; 330])
       = Ok (Some 2)
    /\ CallWrapped.avg_callback_time_of env (mins [45; 150; 300])
       = Ok (Some 3).
Proof.
  intros mins env. unfold CallWrapped.avg_callback_time_of, fsum.
  destruct (sum_compensated env);
    repeat match goal with |- _ /\ _ => split end;
    vm_compute; reflexivity.
Qed.

(** Twenty-three calls on twenty days: line 534 reports the float
    nearest to 1.1, not the exact quotient 23/20 rounded to 6/5. *)
Example avg_daily_of_23_on_20 :
  CallWrapped.avg_daily_of 23 (map (fun d => (d, 1)) (seqZ 0 20))
  = Ok (2476979795053773 # 2251799813685248)%Q.
Proof. vm_compute. reflexivity. Qed.

(** ** The engine raises no exception *)

Section Totality.

Lemma float_div_ok (a b : Z) :
  b <> 0 -> float_div a b = Ok (to_float (inject_Z a / inject_Z b)).
Proof.
  intros Hb. unfold float_div. destruct (b =? 0) eqn:E; [zbool | reflexivity].
Qed.

Lemma float_div_int_ok (a : Q) (b : Z) :
  b <> 0 -> float_div_int a b = Ok (to_float (a / to_float (inject_Z b))).
Proof.
  intros Hb. unfold float_div_int.
  destruct (b =? 0) eqn:E; [zbool | reflexivity].
Qed.

Lemma truediv_ok (a b : Z) :
  b <> 0 -> truediv a b = Ok (Qred (inject_Z a / inject_Z b)).
Proof.
  intros Hb. unfold truediv. destruct (b =? 0) eqn:E; [zbool | reflexivity].
Qed.

Lemma max_from_In {A : Type} (key : A -> Z) (l : list A) :
  forall best, max_from key best l = best \/ In (max_from key best l) l.
Proof.
  induction l as [|x l IH]; intros best; simpl; [now left|].
  destruct (IH (if key best <? key x then x else best)) as [->|Hin].
  - destruct (key best <? key x); auto.
  - auto.
Qed.

Lemma max_by_ok {A : Type} (key : A -> Z) (l : list A) :
  l <> [] -> exists x, max_by key l = Ok x /\ In x l.
Proof.
  destruct l as [|x l]; [congruence|]. intros _.
  eexists. split; [reflexivity|].
  destruct (max_from_In key l x) as [->|Hin]; [now left | now right].
Qed.

Lemma sorted_nonempty {A : Type} (le : A -> A -> bool) (l : list A) :
  l <> [] -> sorted le l <> [].
Proof.
  intros Hl Hs. apply Hl. apply length_zero_iff_nil.
  rewrite <- (sorted_length le), Hs. reflexivity.
Qed.

Lemma dict_update_Forall {K V : Type} `{EqDecision K} (P : V -> Prop)
    (k : K) (f : V -> V) (dflt : V) (d : dict K V) :
  (forall v, P (f v)) ->
  Forall (fun kv => P kv.2) d ->
  Forall (fun kv => P kv.2) (dict_update k f dflt d).
Proof.
  intros Hf. induction 1 as [|[k0 v0] d Hv Hd IH]; simpl.
  - constructor; [apply Hf | constructor].
  - destruct (decide (k = k0)); constructor; auto. apply Hf.
Qed.

Lemma set_add_nonempty (x : string) (s : list string) : set_add x s <> [].
Proof.
  unfold set_add. destruct (bool_decide (x ∈ s)) eqn:E.
  - apply bool_decide_eq_true_1 in E. intros ->. inversion E.
  - destruct s; discriminate.
Qed.

(** Every entry of [phone_stats] has seen at least one name. *)
Lemma phone_stats_names (calls : list CallWrapped.Call) :
  Forall (fun kv => CallWrapped.cs_names kv.2 <> [])
         (CallWrapped.phone_stats calls).
Proof.
  unfold CallWrapped.phone_stats.
  assert (H : forall d : dict string CallWrapped.Stats,
             Forall (fun kv => CallWrapped.cs_names kv.2 <> []) d ->
             Forall (fun kv => CallWrapped.cs_names kv.2 <> [])
               (foldl (fun d c =>
                         dict_update (CallWrapped.phone_key c)
                           (CallWrapped.add_call c) CallWrapped.new_stats d)
                      d calls)).
  { induction calls as [|c calls IH]; intros d Hd; [exact Hd|].
    simpl. apply IH.
    apply (dict_update_Forall (fun s => CallWrapped.cs_names s <> [])); auto.
    intros v. apply set_add_nonempty. }
  apply H. constructor.
Qed.

Lemma contact_stats_total (env : Env) (calls : list CallWrapped.Call) :
  exists cs, CallWrapped.contact_stats env (CallWrapped.phone_stats calls) = Ok cs.
Proof.
  unfold CallWrapped.contact_stats. apply foldM_total.
  intros kv cs Hin.
  pose proof (phone_stats_names calls) as Hn.
  rewrite List.Forall_forall in Hn. specialize (Hn kv Hin).
  destruct (max_by_ok len (set_iter env (CallWrapped.cs_names kv.2)))
    as (best & -> & _).
  - apply sorted_nonempty, Hn.
  - simpl. eauto.
Qed.

Lemma longest_call_of_total (calls : list CallWrapped.Call) :
  exists r, CallWrapped.longest_call_of calls = Ok r.
Proof. destruct calls; simpl; eauto. Qed.

Lemma peak_of_total {K : Type} (d : dict K Z) (dflt : K) :
  exists r, CallWrapped.peak_of d dflt = Ok r.
Proof. destruct d; simpl; eauto. Qed.

Lemma peak_day_of_total (env : Env) (calls : list CallWrapped.Call) :
  exists r, CallWrapped.peak_day_of env calls = Ok r.
Proof.
  unfold CallWrapped.peak_day_of. destruct (count_by _ _ calls); simpl; eauto.
Qed.

Lemma busiest_day_of_total (d : dict Z Z) :
  exists r, CallWrapped.busiest_day_of d = Ok r.
Proof. destruct d; simpl; eauto. Qed.

Lemma longest_streak_of_total (d : dict string Z) :
  exists r, CallWrapped.longest_streak_of d = Ok r.
Proof. destruct d; simpl; eauto. Qed.

Lemma avoiders_of_total (calls : list CallWrapped.Call) :
  exists r, CallWrapped.avoiders_of calls = Ok r.
Proof.
  unfold CallWrapped.avoiders_of.
  match goal with |- context [foldM ?f ?b ?l] =>
    assert (Hl : exists r, foldM f b l = Ok r) end.
  { apply foldM_total. intros kv acc _. cbv zeta.
    destruct (5 <=? kv.2.1) eqn:E; [|eauto].
    rewrite truediv_ok by zbool. simpl.
    destruct (Qlt_bool _ _); eauto. }
  destruct Hl as [l ->]. simpl. eauto.
Qed.

Lemma avg_durations_total (cs : dict string CallWrapped.ContactStats) :
  exists r, CallWrapped.avg_durations cs = Ok r.
Proof.
  unfold CallWrapped.avg_durations.
  match goal with |- context [foldM ?f ?b ?l] =>
    assert (Hl : exists r, foldM f b l = Ok r) end.
  { apply foldM_total. intros kv acc _.
    destruct ((5 <=? CallWrapped.count kv.2) && (0 <? CallWrapped.duration kv.2))
      eqn:E; [|eauto].
    apply andb_true_iff in E as [E _].
    rewrite truediv_ok by zbool. simpl. eauto. }
  destruct Hl as [l ->]. simpl. eauto.
Qed.

Lemma avg_daily_of_total (total : Z) (daily : dict Z Z) :
  exists r, CallWrapped.avg_daily_of total daily = Ok r.
Proof.
  unfold CallWrapped.avg_daily_of. destruct daily as [|kv daily]; [eauto|].
  rewrite float_div_ok by (cbn [length]; lia). cbn [bind]. eauto.
Qed.

Lemma min_of_ok (l : list Z) :
  l <> [] -> exists m, min_of l = Ok m.
Proof. destruct l; [congruence | simpl; eauto]. Qed.

Lemma callback_times_total (calls : list CallWrapped.Call) :
  exists r, CallWrapped.callback_times calls = Ok r.
Proof.
  unfold CallWrapped.callback_times. apply foldM_total.
  intros c acc _.
  destruct (CallWrapped.missed_inbound c); [|eauto].
  destruct (CallWrapped.later_calls calls c) as [|t later]; [eauto|].
  cbn [min_of bind]. destruct (Qlt_bool _ _); eauto.
Qed.

Lemma avg_callback_time_of_total (env : Env) (times : list Q) :
  exists r, CallWrapped.avg_callback_time_of env times = Ok r.
Proof.
  unfold CallWrapped.avg_callback_time_of.
  destruct times as [|t times]; [eauto|].
  rewrite float_div_int_ok by (cbn [length]; lia). cbn [bind]. eauto.
Qed.

Lemma personality_of_total (calls : list CallWrapped.Call)
    (total n_out n_missed wd we : Z) (cb : option Z) :
  exists r, CallWrapped.personality_of calls total n_out n_missed wd we cb = Ok r.
Proof.
  unfold CallWrapped.personality_of. cbv zeta.
  rewrite !truediv_ok by lia. cbn [bind]. eauto.
Qed.

(** [analyze_calls] returns a report for every input. *)
Lemma analyze_calls_total (env : Env) (pc wc : list CallWrapped.Call)
    (ts_start ts_end ts_jun : Z) :
  exists r, CallWrapped.analyze_calls env pc wc ts_start ts_end ts_jun = Ok r.
Proof.
  unfold CallWrapped.analyze_calls. cbv zeta.
  destruct (contact_stats_total env (CallWrapped.all_calls pc wc)) as [cs ->].
  cbn [bind].
  destruct (longest_call_of_total (CallWrapped.all_calls pc wc)) as [lc ->].
  cbn [bind].
  match goal with |- context [CallWrapped.peak_of ?d ?k] =>
    destruct (peak_of_total d k) as [ph ->] end. cbn [bind].
  destruct (peak_day_of_total env (CallWrapped.all_calls pc wc)) as [pd ->].
  cbn [bind].
  destruct (avoiders_of_total (CallWrapped.all_calls pc wc)) as [av ->].
  cbn [bind].
  destruct (avg_durations_total cs) as [ad ->]. cbn [bind].
  match goal with |- context [CallWrapped.busiest_day_of ?d] =>
    destruct (busiest_day_of_total d) as [bd ->] end. cbn [bind].
  match goal with |- context [CallWrapped.peak_of ?d ?k] =>
    destruct (peak_of_total d k) as [bm ->] end. cbn [bind].
  match goal with |- context [CallWrapped.avg_daily_of ?t ?d] =>
    destruct (avg_daily_of_total t d) as [avd ->] end. cbn [bind].
  match goal with |- context [CallWrapped.longest_streak_of ?d] =>
    destruct (longest_streak_of_total d) as [ls ->] end. cbn [bind].
  destruct (callback_times_total (CallWrapped.all_calls pc wc)) as [ct ->].
  cbn [bind].
  destruct (avg_callback_time_of_total env ct) as [acb ->]. cbn [bind].
  match goal with |- context [CallWrapped.personality_of ?a ?b ?c ?d ?e ?f ?g] =>
    destruct (personality_of_total a b c d e f g) as [pers ->] end.
  cbn [bind]. eauto.
Qed.

End Totality.

(** ** The report, field by field *)

Section Fields.
Import CallWrapped.

(** What a returned report holds in the fields the statements below are
    about. *)
Lemma analyze_calls_fields (env : Env) (pc wc : list Call)
    (ts_start ts_end ts_jun : Z) (r : Report) :
  analyze_calls env pc wc ts_start ts_end ts_jun = Ok r ->
  let calls := all_calls pc wc in
  exists cs times,
    contact_stats env (phone_stats calls) = Ok cs
    /\ callback_times calls = Ok times
    /\ avg_callback_time_of env times = Ok (avg_callback_time r)
    /\ st_total (stats r) = Z.of_nat (length calls)
    /\ st_incoming (stats r)
       = Z.of_nat (length calls) - count_if c_outgoing calls
    /\ top_count r = take 10 (sorted_by_desc (fun x => count x.2) cs)
    /\ top_duration r = take 10 (sorted_by_desc (fun x => duration x.2) cs)
    /\ unique_contacts r = Z.of_nat (length cs)
    /\ missed_kings r
       = top5 (count_by (fun c => negb (c_answered c) && negb (c_outgoing c))
                 c_name calls)
    /\ biggest_fans r
       = top5 (count_by (fun c => negb (c_outgoing c)) c_name calls)
    /\ heating_up r = take 5 (heating_up_all calls ts_jun)
    /\ cooling_down r = take 5 (cooling_down_all calls ts_jun)
    /\ ghosts r = top5 (ghost_counts calls)
    /\ daily_counts r = daily_counts_of env calls
    /\ quiet_days r
       = quiet_days_of env ts_start ts_end
           (Z.of_nat (length (daily_counts_of env calls))).
Proof.
  intros H. unfold analyze_calls in H. cbv zeta in H.
  apply bind_ok_inv in H as (cs & Hcs & H).
  do 9 (apply bind_ok_inv in H as (? & _ & H)).
  apply bind_ok_inv in H as (times & Htimes & H).
  apply bind_ok_inv in H as (acb & Hacb & H).
  apply bind_ok_inv in H as (? & _ & H).
  injection H as <-. cbv zeta. exists cs, times. cbn.
  repeat match goal with |- _ /\ _ => split end; auto.
Qed.

End Fields.

(** ** Unresolved events *)

(** C2 (as stated, refuted). A call from the short code 12345 resolves
    to no name; the report built from it counts no call at all, so the
    call is not part of the total. *)
Lemma unresolved_event_not_counted :
  ~ (forall (contacts : gmap string string) (row : CallWrapped.PhoneRow),
       CallWrapped.get_name (CallWrapped.ZADDRESS row) contacts = None ->
       forall (env : Env) (ts_start ts_end ts_jun : Z) (r : CallWrapped.Report),
         CallWrapped.analyze_calls env
           (CallWrapped.analyze_phone_calls [row] contacts) []
           ts_start ts_end ts_jun = Ok r ->
         CallWrapped.st_total (CallWrapped.stats r) = 1).
Proof.
  intros H.
  pose (row := {| CallWrapped.ZADDRESS := Some "12345";
                  CallWrapped.ZDURATION := Some 30;
                  CallWrapped.ZDATE := 757382500;
                  CallWrapped.ZORIGINATED := 0;
                  CallWrapped.ZANSWERED := 1;
                  CallWrapped.ZCALLTYPE := 1 |}).
  destruct (analyze_calls_total (utc_env TS_2025_END)
              (CallWrapped.analyze_phone_calls [row] ∅) []
              TS_2025_START TS_2025_END TS_JUN_2025) as [r Hr].
  pose proof (H ∅ row eq_refl _ _ _ _ r Hr) as Ht.
  apply analyze_calls_fields in Hr as (_ & _ & _ & _ & _ & Htotal & _).
  rewrite Htotal in Ht. vm_compute in Ht. discriminate Ht.
Qed.

(** C2 (amended). An event whose identity resolution yields no name is
    dropped by its extractor before the engine runs: the extracted call
    list, and with it every platform-wide total, every per-contact profile
    and every per-person metric of the report, is the one obtained
    without the event. *)
Theorem unresolved_events_dropped
    (contacts wa_contacts : gmap string string)
    (pre post : list CallWrapped.PhoneRow) (row : CallWrapped.PhoneRow)
    (wpre wpost : list CallWrapped.WhatsAppRow) (wrow : CallWrapped.WhatsAppRow) :
  CallWrapped.get_name (CallWrapped.ZADDRESS row) contacts = None ->
  (forall jid : string,
     CallWrapped.W_ZJIDSTRING wrow = Some jid ->
     wa_contacts !! jid = None
     /\ CallWrapped.get_name (Some (before "@" jid)) contacts = None) ->
  CallWrapped.analyze_phone_calls (pre ++ row :: post) contacts
  = CallWrapped.analyze_phone_calls (pre ++ post) contacts
  /\ CallWrapped.analyze_whatsapp_calls (wpre ++ wrow :: wpost)
       wa_contacts contacts
     = CallWrapped.analyze_whatsapp_calls (wpre ++ wpost) wa_contacts contacts
  /\ forall (env : Env) (ts_start ts_end ts_jun : Z),
       CallWrapped.analyze_calls env
         (CallWrapped.analyze_phone_calls (pre ++ row :: post) contacts)
         (CallWrapped.analyze_whatsapp_calls (wpre ++ wrow :: wpost)
            wa_contacts contacts)
         ts_start ts_end ts_jun
       = CallWrapped.analyze_calls env
           (CallWrapped.analyze_phone_calls (pre ++ post) contacts)
           (CallWrapped.analyze_whatsapp_calls (wpre ++ wpost)
              wa_contacts contacts)
           ts_start ts_end ts_jun.
Proof.
  intros Hrow Hwrow.
  assert (Hp : CallWrapped.analyze_phone_calls (pre ++ row :: post) contacts
               = CallWrapped.analyze_phone_calls (pre ++ post) contacts).
  { unfold CallWrapped.analyze_phone_calls.
    rewrite !flat_map_app. cbn [flat_map]. now rewrite Hrow. }
  assert (Hw : CallWrapped.analyze_whatsapp_calls (wpre ++ wrow :: wpost)
                 wa_contacts contacts
               = CallWrapped.analyze_whatsapp_calls (wpre ++ wpost)
                   wa_contacts contacts).
  { unfold CallWrapped.analyze_whatsapp_calls.
    rewrite !flat_map_app. cbn [flat_map]. f_equal.
    destruct (CallWrapped.W_ZJIDSTRING wrow) as [jid|] eqn:Ej; [|reflexivity].
    destruct (Hwrow jid eq_refl) as [H1 H2]. rewrite H1.
    change (str (Some jid)) with jid. cbn [truthy negb andb].
    destruct jid as [|c s]; [reflexivity|]. cbn [truthy].
    destruct (before "@" (String c s)) eqn:Eb; [reflexivity|].
    now rewrite H2. }
  split; [exact Hp|]. split; [exact Hw|].
  intros env ts_start ts_end ts_jun. now rewrite Hp, Hw.
Qed.

Lemma unresolved_events_dropped_witness :
  CallWrapped.analyze_phone_calls
    [{| CallWrapped.ZADDRESS := Some "12345"; CallWrapped.ZDURATION := Some 30;
        CallWrapped.ZDATE := 757382500; CallWrapped.ZORIGINATED := 0;
        CallWrapped.ZANSWERED := 1; CallWrapped.ZCALLTYPE := 1 |}] ∅
  = [].
Proof.
  apply (unresolved_events_dropped ∅ ∅ [] []
           {| CallWrapped.ZADDRESS := Some "12345";
              CallWrapped.ZDURATION := Some 30;
              CallWrapped.ZDATE := 757382500; CallWrapped.ZORIGINATED := 0;
              CallWrapped.ZANSWERED := 1; CallWrapped.ZCALLTYPE := 1 |}
           [] []
           {| CallWrapped.W_ZDURATION := None; CallWrapped.W_ZDATE := 0;
              CallWrapped.W_ZOUTCOME := 0;
              CallWrapped.W_ZJIDSTRING := None |}).
  - reflexivity.
  - intros jid Hj. discriminate Hj.
Defined.

(** ** Empty input *)

(** C1 (as stated, refuted). On zero events the classification is not
    the default label: the outgoing ratio is 0, so the fifth rule
    ([outgoing_ratio < 0.3]) fires before the final [else]. *)
Lemma empty_input_not_default_label :
  ~ (forall (env : Env) (ts_start ts_end ts_jun : Z) (r : CallWrapped.Report),
       CallWrapped.analyze_calls env [] [] ts_start ts_end ts_jun = Ok r ->
       CallWrapped.personality r = CallWrapped.default_personality).
Proof.
  intros H.
  specialize (H (utc_env TS_2025_END) TS_2025_START TS_2025_END TS_JUN_2025
                _ eq_refl).
  vm_compute in H. discriminate H.
Qed.

(** C1 (amended). On zero events [analyze_calls] raises nothing and
    returns the report below: every count is 0, every ranked list and
    counter is empty, the optional selections are [None], the peak hour,
    peak day, busiest month and daily average take their defaults (12,
    "Unknown", "N/A", 0), the quiet days are all the days of the period,
    and the classification is "THE POPULAR ONE". *)
Theorem empty_input_report (env : Env) (ts_start ts_end ts_jun : Z) :
  CallWrapped.analyze_calls env [] [] ts_start ts_end ts_jun =
  Ok {| CallWrapped.stats :=
          {| CallWrapped.st_total := 0; CallWrapped.st_outgoing := 0;
             CallWrapped.st_incoming := 0; CallWrapped.st_answered := 0;
             CallWrapped.st_missed := 0;
             CallWrapped.st_total_duration := 0 |};
        CallWrapped.platforms := [];
        CallWrapped.video_voice := (0, 0);
        CallWrapped.top_count := [];
        CallWrapped.top_duration := [];
        CallWrapped.longest_call := None;
        CallWrapped.peak_hour := 12;
        CallWrapped.peak_day := "Unknown";
        CallWrapped.night_owls := [];
        CallWrapped.early_birds := [];
        CallWrapped.missed_kings := [];
        CallWrapped.avoiders := [];
        CallWrapped.speed_dialers := [];
        CallWrapped.marathon_talkers := [];
        CallWrapped.daily_counts := [];
        CallWrapped.busiest_day := None;
        CallWrapped.h1_h2 := (0, 0);
        CallWrapped.heating_up := [];
        CallWrapped.cooling_down := [];
        CallWrapped.monthly_counts := [];
        CallWrapped.monthly_duration := [];
        CallWrapped.busiest_month := "N/A";
        CallWrapped.avg_daily := (0 # 1)%Q;
        CallWrapped.quiet_days :=
          CallWrapped.quiet_days_of env ts_start ts_end 0;
        CallWrapped.unique_contacts := 0;
        CallWrapped.first_call := None;
        CallWrapped.biggest_fans := [];
        CallWrapped.longest_streak := None;
        CallWrapped.weekday_weekend := (0, 0);
        CallWrapped.duration_buckets := (0, 0, 0);
        CallWrapped.ghosts := [];
        CallWrapped.avg_callback_time := None;
        CallWrapped.personality :=
          ("THE POPULAR ONE", "Everyone wants to talk to you") |}.
Proof. reflexivity. Qed.

(** ** The wall clock *)

Section Clock.
Import CallWrapped.

Lemma set_quiet_days_same (r : Report) : set_quiet_days (quiet_days r) r = r.
Proof. now destruct r. Qed.

(** Moving the wall clock changes [quiet_days] and nothing else. *)
Lemma analyze_calls_clock (env : Env) (t : Z) (pc wc : list Call)
    (ts_start ts_end ts_jun : Z) (r : Report) :
  analyze_calls env pc wc ts_start ts_end ts_jun = Ok r ->
  analyze_calls (with_clock t env) pc wc ts_start ts_end ts_jun
  = Ok (set_quiet_days
          (quiet_days_of (with_clock t env) ts_start ts_end
             (Z.of_nat (length (daily_counts r)))) r).
Proof.
  intros H. unfold analyze_calls in *. cbv zeta in *.
  change (contact_stats (with_clock t env)) with (contact_stats env).
  change (hour (with_clock t env)) with (hour env).
  change (peak_day_of (with_clock t env)) with (peak_day_of env).
  change (daily_counts_of (with_clock t env)) with (daily_counts_of env).
  change (month (with_clock t env)) with (month env).
  change (streaks_of (with_clock t env)) with (streaks_of env).
  change (weekday (with_clock t env)) with (weekday env).
  change (monthly_duration_of (with_clock t env)) with (monthly_duration_of env).
  change (avg_callback_time_of (with_clock t env))
    with (avg_callback_time_of env).
  repeat match type of H with
         | bind ?m _ = Ok _ =>
             let E := fresh "E" in
             destruct m eqn:E; cbn [bind] in H |- *; [|discriminate H]
         end.
  injection H as <-. reflexivity.
Qed.

End Clock.

(** C8 (as stated, refuted). Two runs on the same (empty) input in the
    same process environment, one on 2025-06-01 and one a day later,
    return different reports: the number of quiet days is counted up to
    [datetime.now()]. *)
Lemma report_depends_on_wall_clock :
  ~ (forall (env1 env2 : Env) (pc wc : list CallWrapped.Call)
            (ts_start ts_end ts_jun : Z),
       utcoff env1 = utcoff env2 -> str_hash env1 = str_hash env2 ->
       CallWrapped.analyze_calls env1 pc wc ts_start ts_end ts_jun
       = CallWrapped.analyze_calls env2 pc wc ts_start ts_end ts_jun).
Proof.
  intros H.
  specialize (H (utc_env 1748736000) (utc_env 1748822400) [] []
                TS_2025_START TS_2025_END TS_JUN_2025 eq_refl eq_refl).
  vm_compute in H. discriminate H.
Qed.

(** C8 (amended). [analyze_calls] is a function of its arguments and of
    the process environment (wall clock, local time zone, string hash).
    It returns a report for every input, and the wall clock reaches the
    report through [quiet_days] only: a run at another clock time returns
    the same report with [quiet_days] recomputed, and the very same
    report when both runs take place after the local end of the
    period. *)
Theorem report_clock_dependence (env : Env) (t : Z)
    (pc wc : list CallWrapped.Call) (ts_start ts_end ts_jun : Z) :
  exists r : CallWrapped.Report,
    CallWrapped.analyze_calls env pc wc ts_start ts_end ts_jun = Ok r
    /\ CallWrapped.analyze_calls (with_clock t env) pc wc
         ts_start ts_end ts_jun
       = Ok (set_quiet_days
               (CallWrapped.quiet_days_of (with_clock t env) ts_start ts_end
                  (Z.of_nat (length (CallWrapped.daily_counts r)))) r)
    /\ (localtime env ts_end <= localtime env (clock env) ->
        localtime env ts_end <= localtime env t ->
        CallWrapped.analyze_calls (with_clock t env) pc wc
          ts_start ts_end ts_jun = Ok r).
Proof.
  destruct (analyze_calls_total env pc wc ts_start ts_end ts_jun) as [r Hr].
  exists r. split; [exact Hr|].
  pose proof (analyze_calls_clock env t pc wc ts_start ts_end ts_jun r Hr) as Ht.
  split; [exact Ht|].
  intros H1 H2. rewrite Ht. f_equal.
  transitivity (set_quiet_days (CallWrapped.quiet_days r) r);
    [f_equal | apply set_quiet_days_same].
  apply analyze_calls_fields in Hr
    as (_ & _ & _ & _ & _ & _ & _ & _ & _ & _ & _ & _ & _ & _ & _ & Hd & Hq).
  rewrite Hq, Hd. unfold CallWrapped.quiet_days_of.
  change (localtime (with_clock t env)) with (localtime env).
  change (clock (with_clock t env)) with t.
  rewrite !Z.min_l by assumption. reflexivity.
Qed.

Lemma report_clock_dependence_witness :
  exists r : CallWrapped.Report,
    CallWrapped.analyze_calls (utc_env 1767300000) [] []
      TS_2025_START TS_2025_END TS_JUN_2025 = Ok r
    /\ CallWrapped.analyze_calls (with_clock 1767400000 (utc_env 1767300000))
         [] [] TS_2025_START TS_2025_END TS_JUN_2025 = Ok r.
Proof.
  destruct (report_clock_dependence (utc_env 1767300000) 1767400000 [] []
              TS_2025_START TS_2025_END TS_JUN_2025) as (r & Hr & _ & Heq).
  exists r. split; [exact Hr|].
  apply Heq; vm_compute; discriminate.
Defined.

(** ** Merging by phone key *)

(** C4 (the code departs from the claim). Alice has two numbers and one
    call with each. [phone_stats] aggregates the two calls under two
    keys, both with the single name "Alice"; the loop that stores each
    aggregate under its longest name assigns [contact_stats["Alice"]]
    twice, and the second assignment replaces the first. The published
    profile of Alice holds the call of the second key only, although the
    report counts two calls in total. *)
Theorem same_name_keys_overwrite :
  let calls :=
    CallWrapped.all_calls
      (CallWrapped.analyze_phone_calls alice_rows alice_directory) [] in
  let second :=
    {| CallWrapped.count := 1; CallWrapped.duration := 30;
       CallWrapped.outgoing := 1; CallWrapped.incoming := 0;
       CallWrapped.answered := 1; CallWrapped.missed := 0;
       CallWrapped.platforms_list := ["Phone"] |} in
  map (fun kv => (kv.1, CallWrapped.cs_count kv.2, CallWrapped.cs_names kv.2))
      (CallWrapped.phone_stats calls)
  = [("4155552671", 1, ["Alice"]); ("4155559999", 1, ["Alice"])]
  /\ (forall env : Env,
        CallWrapped.contact_stats env (CallWrapped.phone_stats calls)
        = Ok [("Alice", second)])
  /\ exists r : CallWrapped.Report,
       CallWrapped.analyze_calls (utc_env TS_2025_END)
         (CallWrapped.analyze_phone_calls alice_rows alice_directory) []
         TS_2025_START TS_2025_END TS_JUN_2025 = Ok r
       /\ CallWrapped.st_total (CallWrapped.stats r) = 2
       /\ CallWrapped.top_count r = [("Alice", second)]
       /\ CallWrapped.unique_contacts r = 1.
Proof.
  cbv zeta. split; [vm_compute; reflexivity|].
  split; [intros env; vm_compute; reflexivity|].
  eexists. split; [vm_compute; reflexivity|].
  repeat split.
Qed.

(** ** Half-period trends *)

Section Trends.
Import CallWrapped.

Lemma half_more_iff (h1 h2 : Z) :
  (inject_Z h1 * (3 # 2) < inject_Z h2)%Q <-> 3 * h1 < 2 * h2.
Proof. unfold Qlt, Qmult, inject_Z. simpl. lia. Qed.

Lemma half_less_iff (h1 h2 : Z) :
  (inject_Z h2 < inject_Z h1 * (1 # 2))%Q <-> 2 * h2 < h1.
Proof. unfold Qlt, Qmult, inject_Z. simpl. lia. Qed.

Lemma is_heating_iff (h1 h2 : Z) :
  is_heating h1 h2 = true
  <-> 3 <= h1 /\ (inject_Z h1 * (3 # 2) < inject_Z h2)%Q.
Proof.
  unfold is_heating. rewrite andb_true_iff, Qlt_bool_iff, Z.leb_le. tauto.
Qed.

Lemma is_cooling_iff (h1 h2 : Z) :
  is_cooling h1 h2 = true
  <-> 5 <= h1 /\ (inject_Z h2 < inject_Z h1 * (1 # 2))%Q.
Proof.
  unfold is_cooling. rewrite andb_true_iff, Qlt_bool_iff, Z.leb_le. tauto.
Qed.

(** No pair of counts is both heating and cooling. *)
Lemma heating_cooling_exclusive (h1 h2 : Z) :
  is_heating h1 h2 = true -> is_cooling h1 h2 = true -> False.
Proof.
  rewrite is_heating_iff, is_cooling_iff, half_more_iff, half_less_iff. lia.
Qed.

Lemma halves_fold (ts_jun : Z) (xs : list Call) : forall a b : Z,
  foldl (fun (s : Z * Z) c =>
           if c_timestamp c <? ts_jun then (s.1 + 1, s.2) else (s.1, s.2 + 1))
        (a, b) xs
  = (a + count_if (fun c => c_timestamp c <? ts_jun) xs,
     b + count_if (fun c => ts_jun <=? c_timestamp c) xs).
Proof.
  unfold count_if.
  induction xs as [|c xs IH]; intros a b; simpl; [f_equal; lia|].
  destruct (c_timestamp c <? ts_jun) eqn:E; simpl; rewrite IH.
  - replace (ts_jun <=? c_timestamp c) with false by (symmetry; zbool).
    simpl. f_equal; lia.
  - replace (ts_jun <=? c_timestamp c) with true by (symmetry; zbool).
    simpl. f_equal; lia.
Qed.

Lemma contact_h1_h2_step (ts_jun : Z) (d : dict string (Z * Z)) (c : Call) :
  (if c_timestamp c <? ts_jun
   then dict_update (c_name c) (fun s => (s.1 + 1, s.2)) (0, 0) d
   else dict_update (c_name c) (fun s => (s.1, s.2 + 1)) (0, 0) d)
  = if true then
      dict_update (c_name c)
        (fun s => if c_timestamp c <? ts_jun then (s.1 + 1, s.2)
                  else (s.1, s.2 + 1)) (0, 0) d
    else d.
Proof. now destruct (c_timestamp c <? ts_jun). Qed.

Lemma contact_h1_h2_NoDup (calls : list Call) (ts_jun : Z) :
  List.NoDup (map fst (contact_h1_h2 calls ts_jun)).
Proof.
  apply (foldl_update_NoDup (fun _ => true) c_name _ (0, 0) _
           (contact_h1_h2_step ts_jun)).
  constructor.
Qed.

(** The entry of a name holds its counts before and from the midpoint;
    a name has an entry when it has a call. *)
Lemma contact_h1_h2_get (calls : list Call) (ts_jun : Z) (X : string) :
  dict_get X (contact_h1_h2 calls ts_jun) =
    if 0 <? count_if (fun c => bool_decide (c_name c = X)) calls then
      Some (count_if (fun c => bool_decide (c_name c = X)
                               && (c_timestamp c <? ts_jun)) calls,
            count_if (fun c => bool_decide (c_name c = X)
                               && (ts_jun <=? c_timestamp c)) calls)
    else None.
Proof.
  unfold contact_h1_h2.
  rewrite (foldl_update_get (fun _ => true) c_name _ (0, 0) _
             (contact_h1_h2_step ts_jun)).
  cbn [andb dict_get default].
  rewrite <- !count_if_filter.
  unfold count_if at 1.
  destruct (List.filter (fun c => bool_decide (c_name c = X)) calls)
    as [|c xs] eqn:E; [reflexivity|].
  rewrite halves_fold.
  replace (0 <? Z.of_nat (length (List.filter (fun _ => true) (c :: xs))))
    with true by (symmetry; zbool; simpl; lia).
  reflexivity.
Qed.

Lemma trend_entries_In (p : Z -> Z -> bool) (d : dict string (Z * Z))
    (X : string) (h1 h2 : Z) :
  In (X, h1, h2) (trend_entries p d) <-> In (X, (h1, h2)) d /\ p h1 h2 = true.
Proof.
  unfold trend_entries. rewrite in_map_iff. split.
  - intros ([k [a b]] & [= -> -> ->] & Hin).
    apply filter_In in Hin. exact Hin.
  - intros [Hin Hp]. exists (X, (h1, h2)). split; [reflexivity|].
    apply filter_In. now split.
Qed.

(** Membership in a trend list, in terms of the calls. *)
Lemma trend_entries_calls (p : Z -> Z -> bool) (calls : list Call)
    (ts_jun : Z) (X : string) (h1 h2 : Z) :
  In (X, h1, h2) (trend_entries p (contact_h1_h2 calls ts_jun))
  <-> (0 < count_if (fun c => bool_decide (c_name c = X)) calls
       /\ h1 = count_if (fun c => bool_decide (c_name c = X)
                                  && (c_timestamp c <? ts_jun)) calls
       /\ h2 = count_if (fun c => bool_decide (c_name c = X)
                                  && (ts_jun <=? c_timestamp c)) calls)
      /\ p h1 h2 = true.
Proof.
  rewrite trend_entries_In, (dict_get_In _ _ _ (contact_h1_h2_NoDup _ _)).
  rewrite contact_h1_h2_get.
  destruct (0 <? _) eqn:E.
  - zbool. split.
    + intros [[= -> ->] Hp]. auto.
    + intros [(_ & -> & ->) Hp]. auto.
  - zbool. split; [intros [[=] _] | intros [(H0 & _) _]; lia].
Qed.

(** A name with a call before the midpoint has a call. *)
Lemma count_name_pos (calls : list Call) (q : Call -> bool) (X : string) :
  0 < count_if (fun c => bool_decide (c_name c = X) && q c) calls ->
  0 < count_if (fun c => bool_decide (c_name c = X)) calls.
Proof.
  intros H.
  assert (Hle : count_if (fun c => bool_decide (c_name c = X) && q c) calls
                <= count_if (fun c => bool_decide (c_name c = X)) calls).
  { apply count_if_le. intros c _ Hc. now apply andb_true_iff in Hc as [Hc _]. }
  lia.
Qed.

End Trends.

(** C5 (as stated, refuted). Meeting the condition does not put a
    contact in the list of the report, which keeps five entries: of six
    contacts with 3 calls before the midpoint and 10, 9, 8, 7, 6 and 5
    calls from it on, the last one meets [H1 >= 3] and [H2 > 1.5 * H1]
    and is not in the heating list. *)
Lemma heating_list_cut_at_five :
  ~ (forall (env : Env) (pc wc : list CallWrapped.Call)
            (ts_start ts_end ts_jun : Z) (r : CallWrapped.Report)
            (X : string) (h1 h2 : Z),
       CallWrapped.analyze_calls env pc wc ts_start ts_end ts_jun = Ok r ->
       let calls := CallWrapped.all_calls pc wc in
       (In (X, h1, h2) (CallWrapped.heating_up r) <->
        h1 = count_if (fun c => bool_decide (CallWrapped.c_name c = X)
                                && (CallWrapped.c_timestamp c <? ts_jun))
               calls
        /\ h2 = count_if (fun c => bool_decide (CallWrapped.c_name c = X)
                                   && (ts_jun <=? CallWrapped.c_timestamp c))
                  calls
        /\ 3 <= h1 /\ (inject_Z h1 * (3 # 2) < inject_Z h2)%Q)).
Proof.
  intros H.
  destruct (analyze_calls_total (utc_env TS_2025_END) six_heating []
              TS_2025_START TS_2025_END TS_JUN_2025) as [r Hr].
  specialize (H _ _ _ _ _ _ r "F" 3 5 Hr). cbv zeta in H.
  apply analyze_calls_fields in Hr
    as (_ & _ & _ & _ & _ & _ & _ & _ & _ & _ & _ & _ & Hh & _).
  rewrite Hh in H.
  assert (Hin : In ("F", 3, 5)
                  (take 5 (CallWrapped.heating_up_all
                             (CallWrapped.all_calls six_heating [])
                             TS_JUN_2025))).
  { apply H. repeat match goal with |- _ /\ _ => split end;
      vm_compute; first [reflexivity | discriminate]. }
  vm_compute in Hin.
  repeat (destruct Hin as [Hin|Hin]; [discriminate Hin|]). exact Hin.
Qed.

(** C5 (amended). With the calls of a run and the midpoint [ts_jun],
    write [H1 X] and [H2 X] for the numbers of calls of contact [X]
    before and from the midpoint. Before the cut, [X] is in the heating
    list, with these two counts, iff [H1 X >= 3] and [H2 X > 1.5 * H1 X],
    and the list is sorted by [H2 - H1], largest first; [X] is in the
    cooling list iff [H1 X >= 5] and [H2 X < 0.5 * H1 X], sorted by
    [H1 - H2]; no contact is in both. The report keeps the first five
    entries of each list: a contact in a list of the report meets the
    condition of the list, and a contact that meets it is in the list
    of the report or the list holds five contacts whose differences are
    at least as large. Counts 20 and 35 are heating with difference 15,
    counts 10 and 3 are cooling with difference 7, counts 2 and 10 are
    neither. *)
Theorem heating_cooling_classification (env : Env)
    (pc wc : list CallWrapped.Call) (ts_start ts_end ts_jun : Z) :
  let calls := CallWrapped.all_calls pc wc in
  let H1 X := count_if (fun c => bool_decide (CallWrapped.c_name c = X)
                                 && (CallWrapped.c_timestamp c <? ts_jun)) calls in
  let H2 X := count_if (fun c => bool_decide (CallWrapped.c_name c = X)
                                 && (ts_jun <=? CallWrapped.c_timestamp c)) calls in
  let heating := CallWrapped.heating_up_all calls ts_jun in
  let cooling := CallWrapped.cooling_down_all calls ts_jun in
  (forall (X : string) (h1 h2 : Z),
     In (X, h1, h2) heating <->
     h1 = H1 X /\ h2 = H2 X
     /\ 3 <= h1 /\ (inject_Z h1 * (3 # 2) < inject_Z h2)%Q)
  /\ (forall (X : string) (h1 h2 : Z),
        In (X, h1, h2) cooling <->
        h1 = H1 X /\ h2 = H2 X
        /\ 5 <= h1 /\ (inject_Z h2 < inject_Z h1 * (1 # 2))%Q)
  /\ (forall (X : string) (a b a' b' : Z),
        In (X, a, b) heating -> In (X, a', b') cooling -> False)
  /\ StronglySorted (fun x y => y.2 - y.1.2 <= x.2 - x.1.2) heating
  /\ StronglySorted (fun x y => y.1.2 - y.2 <= x.1.2 - x.2) cooling
  /\ (exists r : CallWrapped.Report,
        CallWrapped.analyze_calls env pc wc ts_start ts_end ts_jun = Ok r
        /\ CallWrapped.heating_up r = take 5 heating
        /\ CallWrapped.cooling_down r = take 5 cooling
        /\ (forall (X : string) (h1 h2 : Z),
              In (X, h1, h2) (CallWrapped.heating_up r) ->
              h1 = H1 X /\ h2 = H2 X
              /\ 3 <= h1 /\ (inject_Z h1 * (3 # 2) < inject_Z h2)%Q)
        /\ (forall X : string,
              3 <= H1 X -> (inject_Z (H1 X) * (3 # 2) < inject_Z (H2 X))%Q ->
              In (X, H1 X, H2 X) (CallWrapped.heating_up r)
              \/ (length (CallWrapped.heating_up r) = 5%nat
                  /\ forall (Y : string) (a b : Z),
                       In (Y, a, b) (CallWrapped.heating_up r) ->
                       H2 X - H1 X <= b - a))
        /\ (forall (X : string) (h1 h2 : Z),
              In (X, h1, h2) (CallWrapped.cooling_down r) ->
              h1 = H1 X /\ h2 = H2 X
              /\ 5 <= h1 /\ (inject_Z h2 < inject_Z h1 * (1 # 2))%Q)
        /\ (forall X : string,
              5 <= H1 X -> (inject_Z (H2 X) < inject_Z (H1 X) * (1 # 2))%Q ->
              In (X, H1 X, H2 X) (CallWrapped.cooling_down r)
              \/ (length (CallWrapped.cooling_down r) = 5%nat
                  /\ forall (Y : string) (a b : Z),
                       In (Y, a, b) (CallWrapped.cooling_down r) ->
                       H1 X - H2 X <= a - b))
        /\ (forall (X : string) (a b a' b' : Z),
              In (X, a, b) (CallWrapped.heating_up r) ->
              In (X, a', b') (CallWrapped.cooling_down r) -> False)
        /\ StronglySorted (fun x y => y.2 - y.1.2 <= x.2 - x.1.2)
             (CallWrapped.heating_up r)
        /\ StronglySorted (fun x y => y.1.2 - y.2 <= x.1.2 - x.2)
             (CallWrapped.cooling_down r))
  /\ (CallWrapped.is_heating 20 35 = true /\ 35 - 20 = 15
      /\ CallWrapped.is_cooling 20 35 = false)
  /\ (CallWrapped.is_cooling 10 3 = true /\ 10 - 3 = 7
      /\ CallWrapped.is_heating 10 3 = false)
  /\ (CallWrapped.is_heating 2 10 = false
      /\ CallWrapped.is_cooling 2 10 = false).
Proof.
  cbv zeta. set (calls := CallWrapped.all_calls pc wc).
  assert (Hheat : forall X h1 h2,
    In (X, h1, h2) (CallWrapped.heating_up_all calls ts_jun) <->
    h1 = count_if (fun c => bool_decide (CallWrapped.c_name c = X)
                            && (CallWrapped.c_timestamp c <? ts_jun)) calls
    /\ h2 = count_if (fun c => bool_decide (CallWrapped.c_name c = X)
                               && (ts_jun <=? CallWrapped.c_timestamp c)) calls
    /\ CallWrapped.is_heating h1 h2 = true).
  { intros X h1 h2. unfold CallWrapped.heating_up_all, sorted_by_desc.
    rewrite sorted_In, trend_entries_calls. split; [tauto|].
    intros (-> & -> & Hp). split; [|exact Hp]. split; [|tauto].
    apply is_heating_iff in Hp as [Hp _].
    eapply count_name_pos with (q := fun c => CallWrapped.c_timestamp c <? ts_jun).
    lia. }
  assert (Hcool : forall X h1 h2,
    In (X, h1, h2) (CallWrapped.cooling_down_all calls ts_jun) <->
    h1 = count_if (fun c => bool_decide (CallWrapped.c_name c = X)
                            && (CallWrapped.c_timestamp c <? ts_jun)) calls
    /\ h2 = count_if (fun c => bool_decide (CallWrapped.c_name c = X)
                               && (ts_jun <=? CallWrapped.c_timestamp c)) calls
    /\ CallWrapped.is_cooling h1 h2 = true).
  { intros X h1 h2. unfold CallWrapped.cooling_down_all, sorted_by_desc.
    rewrite sorted_In, trend_entries_calls. split; [tauto|].
    intros (-> & -> & Hp). split; [|exact Hp]. split; [|tauto].
    apply is_cooling_iff in Hp as [Hp _].
    eapply count_name_pos with (q := fun c => CallWrapped.c_timestamp c <? ts_jun).
    lia. }
  assert (Hexcl : forall X a b a' b',
    In (X, a, b) (CallWrapped.heating_up_all calls ts_jun) ->
    In (X, a', b') (CallWrapped.cooling_down_all calls ts_jun) -> False).
  { intros X a b a' b' Ha Hb.
    apply Hheat in Ha as (-> & -> & Ha). apply Hcool in Hb as (-> & -> & Hb).
    exact (heating_cooling_exclusive _ _ Ha Hb). }
  split; [intros X h1 h2; rewrite Hheat, is_heating_iff; tauto|].
  split; [intros X h1 h2; rewrite Hcool, is_cooling_iff; tauto|].
  split; [exact Hexcl|].
  split; [apply (sorted_by_desc_strongly
                   (fun x : string * Z * Z => x.2 - x.1.2))|].
  split; [apply (sorted_by_desc_strongly
                   (fun x : string * Z * Z => x.1.2 - x.2))|].
  split; [|repeat split].
  destruct (analyze_calls_total env pc wc ts_start ts_end ts_jun) as [r Hr].
  exists r. split; [exact Hr|].
  apply analyze_calls_fields in Hr
    as (_ & _ & _ & _ & _ & _ & _ & _ & _ & _ & _ & _ & Hh & Hc & _).
  fold calls in Hh, Hc. rewrite Hh, Hc.
  split; [reflexivity|]. split; [reflexivity|].
  destruct (take_sorted_desc_spec (fun x : string * Z * Z => x.2 - x.1.2) 5
              (CallWrapped.trend_entries CallWrapped.is_heating
                 (CallWrapped.contact_h1_h2 calls ts_jun)))
    as (_ & Hhs & _ & Hhout).
  destruct (take_sorted_desc_spec (fun x : string * Z * Z => x.1.2 - x.2) 5
              (CallWrapped.trend_entries CallWrapped.is_cooling
                 (CallWrapped.contact_h1_h2 calls ts_jun)))
    as (_ & Hcs & _ & Hcout).
  fold (CallWrapped.heating_up_all calls ts_jun) in Hhs, Hhout.
  fold (CallWrapped.cooling_down_all calls ts_jun) in Hcs, Hcout.
  repeat match goal with |- _ /\ _ => split end.
  - intros X h1 h2 Hin. apply take_In in Hin.
    apply Hheat in Hin. rewrite is_heating_iff in Hin. tauto.
  - intros X H3 Hq.
    assert (Hin : In (X,
                count_if (fun c => bool_decide (CallWrapped.c_name c = X)
                                   && (CallWrapped.c_timestamp c <? ts_jun)) calls,
                count_if (fun c => bool_decide (CallWrapped.c_name c = X)
                                   && (ts_jun <=? CallWrapped.c_timestamp c)) calls)
                (CallWrapped.heating_up_all calls ts_jun)).
    { apply Hheat. split; [reflexivity|]. split; [reflexivity|].
      apply is_heating_iff. split; [exact H3|exact Hq]. }
    unfold CallWrapped.heating_up_all, sorted_by_desc in Hin.
    apply sorted_In in Hin.
    destruct (Hhout _ Hin) as [Htop|[Hfull Hle]]; [now left|].
    right. split; [exact Hfull|]. intros Y a b HY.
    exact (Hle _ HY).
  - intros X h1 h2 Hin. apply take_In in Hin.
    apply Hcool in Hin. rewrite is_cooling_iff in Hin. tauto.
  - intros X H5 Hq.
    assert (Hin : In (X,
                count_if (fun c => bool_decide (CallWrapped.c_name c = X)
                                   && (CallWrapped.c_timestamp c <? ts_jun)) calls,
                count_if (fun c => bool_decide (CallWrapped.c_name c = X)
                                   && (ts_jun <=? CallWrapped.c_timestamp c)) calls)
                (CallWrapped.cooling_down_all calls ts_jun)).
    { apply Hcool. split; [reflexivity|]. split; [reflexivity|].
      apply is_cooling_iff. split; [exact H5|exact Hq]. }
    unfold CallWrapped.cooling_down_all, sorted_by_desc in Hin.
    apply sorted_In in Hin.
    destruct (Hcout _ Hin) as [Htop|[Hfull Hle]]; [now left|].
    right. split; [exact Hfull|]. intros Y a b HY.
    exact (Hle _ HY).
  - intros X a b a' b' Ha Hb. apply take_In in Ha, Hb.
    exact (Hexcl _ _ _ _ _ Ha Hb).
  - exact Hhs.
  - exact Hcs.
Qed.

Lemma heating_cooling_classification_witness :
  In ("Sam", 20, 35)
     (CallWrapped.heating_up_all (CallWrapped.all_calls sam_trend [])
        TS_JUN_2025).
Proof.
  pose proof (heating_cooling_classification (utc_env TS_2025_END) sam_trend []
                TS_2025_START TS_2025_END TS_JUN_2025) as [Hheat _].
  apply (proj2 (Hheat "Sam" 20 35)).
  repeat match goal with |- _ /\ _ => split end;
    vm_compute; first [reflexivity | discriminate].
Defined.

(** ** Ghosts and callbacks *)

Section Ghosts.
Import CallWrapped.

Lemma foldl_snoc {A : Type} (f : A -> Z) (xs : list A) : forall acc : list Z,
  foldl (fun l x => l ++ [f x]) acc xs = acc ++ map f xs.
Proof.
  induction xs as [|x xs IH]; intros acc; simpl; [now rewrite app_nil_r|].
  rewrite IH. now rewrite <- app_assoc.
Qed.

(** The outgoing timestamps recorded for a name, in call order. *)
Lemma call_times_to_get (calls : list Call) (X : string) :
  dict_get_default X [] (call_times_to calls)
  = map c_timestamp
      (List.filter (fun e => c_outgoing e && bool_decide (c_name e = X)) calls).
Proof.
  unfold dict_get_default, call_times_to.
  rewrite (foldl_update_get c_outgoing c_name
             (fun c l => l ++ [c_timestamp c]) [] _ (fun _ _ => eq_refl)).
  destruct (List.filter _ calls) as [|e es]; [reflexivity|].
  cbn [dict_get default]. unfold id. now rewrite (foldl_snoc c_timestamp).
Qed.

Lemma filter_map_comm {A B : Type} (f : A -> B) (q : B -> bool) (l : list A) :
  List.filter q (map f l) = map f (List.filter (fun x => q (f x)) l).
Proof.
  induction l as [|x l IH]; simpl; [reflexivity|].
  destruct (q (f x)); simpl; now rewrite IH.
Qed.

Lemma filter_filter {A : Type} (p q : A -> bool) (l : list A) :
  List.filter q (List.filter p l) = List.filter (fun x => p x && q x) l.
Proof.
  induction l as [|x l IH]; simpl; [reflexivity|].
  destruct (p x); simpl; [destruct (q x); simpl|]; now rewrite IH.
Qed.

(** [later_calls] holds the timestamps of the calls that return [c]. *)
Lemma later_calls_returns (calls : list Call) (c : Call) :
  later_calls calls c = map c_timestamp (List.filter (returns c) calls).
Proof.
  unfold later_calls. rewrite call_times_to_get, filter_map_comm, filter_filter.
  reflexivity.
Qed.

Lemma is_nil_later_calls (calls : list Call) (c : Call) :
  is_nil (later_calls calls c) = never_returned calls c.
Proof.
  rewrite later_calls_returns. unfold never_returned.
  induction calls as [|e calls IH]; simpl; [reflexivity|].
  destruct (returns c e); simpl; [reflexivity | exact IH].
Qed.

Lemma returns_iff (c e : Call) :
  returns c e = true
  <-> c_outgoing e = true /\ c_name e = c_name c
      /\ c_timestamp c < c_timestamp e.
Proof.
  unfold returns. rewrite !andb_true_iff, bool_decide_eq_true, Z.ltb_lt. tauto.
Qed.

Lemma never_returned_iff (calls : list Call) (c : Call) :
  never_returned calls c = true
  <-> ~ exists e, In e calls /\ c_outgoing e = true
                  /\ c_name e = c_name c /\ c_timestamp c < c_timestamp e.
Proof.
  unfold never_returned. rewrite forallb_forall. split.
  - intros H (e & Hin & He). apply returns_iff in He.
    specialize (H e Hin). rewrite He in H. discriminate H.
  - intros H e Hin. destruct (returns c e) eqn:E; [|reflexivity].
    exfalso. apply H. exists e. split; [exact Hin|]. now apply returns_iff.
Qed.

(** The ghost counter of a name counts its missed inbound calls that no
    later outgoing call returns. *)
Lemma ghost_counts_get (calls : list Call) (X : string) :
  dict_get_default X 0 (ghost_counts calls)
  = count_if (fun c => missed_inbound c && bool_decide (c_name c = X)
                       && never_returned calls c) calls.
Proof.
  unfold ghost_counts. rewrite count_by_get_default.
  apply count_if_ext. intros c _. rewrite is_nil_later_calls.
  destruct (missed_inbound c), (never_returned calls c),
    (bool_decide (c_name c = X)); reflexivity.
Qed.

Lemma foldl_min_le (l : list Z) : forall a : Z,
  foldl Z.min a l <= a /\ (forall x, In x l -> foldl Z.min a l <= x)
  /\ In (foldl Z.min a l) (a :: l).
Proof.
  induction l as [|y l IH]; intros a; simpl.
  - split; [lia|]. split; [intros x []|now left].
  - destruct (IH (Z.min a y)) as (H1 & H2 & H3).
    split; [lia|]. split.
    + intros x [<-|Hx]; [lia | now apply H2].
    + destruct H3 as [H3|H3]; [|now right; right].
      rewrite <- H3. destruct (Z.min_spec a y) as [[_ ->]|[_ ->]]; auto.
Qed.

(** [earliest_return] is the least timestamp of a call that returns [c],
    and is defined when there is such a call. *)
Lemma earliest_return_least (calls : list Call) (c : Call) (m : Z) :
  earliest_return calls c = Some m ->
  (exists e, In e calls /\ returns c e = true /\ c_timestamp e = m)
  /\ (forall e, In e calls -> returns c e = true -> m <= c_timestamp e).
Proof.
  unfold earliest_return.
  destruct (map c_timestamp (List.filter (returns c) calls)) as [|t r] eqn:E;
    [discriminate|].
  intros [= <-]. destruct (foldl_min_le r t) as (H1 & H2 & H3).
  split.
  - rewrite <- E in H3. apply in_map_iff in H3 as (e & He & Hin).
    apply filter_In in Hin as [Hin Hr]. eauto.
  - intros e Hin Hr.
    assert (Hm : In (c_timestamp e) (t :: r)).
    { rewrite <- E. apply in_map. apply filter_In. now split. }
    destruct Hm as [<-|Hm]; [exact H1 | now apply H2].
Qed.

Lemma earliest_return_none (calls : list Call) (c : Call) :
  earliest_return calls c = None <-> never_returned calls c = true.
Proof.
  rewrite <- is_nil_later_calls, later_calls_returns. unfold earliest_return.
  destruct (map c_timestamp (List.filter (returns c) calls)); simpl;
    split; congruence.
Qed.

Lemma minutes_le (x y : Z) :
  x <= y -> (inject_Z x / inject_Z 60 <= inject_Z y / inject_Z 60)%Q.
Proof. intros H. apply Qdiv_Z_le; lia. Qed.

(** Under 1440 minutes, as a float, is under 86400 seconds: the float
    nearest to a number of minutes is below 1440 exactly when the number
    is. *)
Lemma within_day (x : Z) :
  Qlt_bool (to_float (inject_Z x / inject_Z 60)) (inject_Z 1440)
  = (x <? 86400).
Proof.
  destruct (x <? 86400) eqn:E.
  - apply Qlt_bool_iff.
    apply Qle_lt_trans with (to_float (inject_Z 86399 / inject_Z 60)).
    + apply to_float_mono, minutes_le. zbool.
    + vm_compute. reflexivity.
  - apply Qlt_bool_false.
    apply Qle_trans with (to_float (inject_Z 86400 / inject_Z 60)).
    + vm_compute. discriminate.
    + apply to_float_mono, minutes_le. zbool.
Qed.

(** [callback_times] is the list of the callback latencies of the calls,
    in call order. *)
Lemma callback_times_latencies (calls : list Call) :
  callback_times calls = Ok (omap (callback_latency calls) calls).
Proof.
  unfold callback_times.
  rewrite (foldM_append _ (callback_latency calls)); [reflexivity|].
  intros acc c. unfold callback_latency, earliest_return.
  rewrite <- later_calls_returns.
  destruct (missed_inbound c); [|reflexivity].
  destruct (later_calls calls c) as [|t r]; [reflexivity|].
  cbn [min_of bind]. rewrite within_day.
  now destruct (_ <? 86400).
Qed.

End Ghosts.

(** C6. In a run over the calls [calls]: the ghost counter of a contact
    [X] is the number of its missed inbound calls that no outgoing call to
    [X] with a strictly greater timestamp follows, each such call counting
    for one, and the report lists the five largest counters; every other
    missed inbound call has a callback latency, the earliest such outgoing
    timestamp minus its own, in minutes; the latencies under 24 hours,
    over all contacts together, form one list of floats, and the
    reported average is their float sum divided by their number and
    rounded to the nearest integer, a half going to the even neighbour
    ([None] when the list is empty). A missed call at [t = 100] followed
    by a call to the same contact at [t = 700] is no ghost and
    contributes a latency of 10 minutes; without the second call it is
    a ghost. *)
Theorem ghost_and_callback (env : Env) (pc wc : list CallWrapped.Call)
    (ts_start ts_end ts_jun : Z) :
  let calls := CallWrapped.all_calls pc wc in
  let times := omap (callback_latency calls) calls in
  (forall c, In c calls <-> In c pc \/ In c wc)
  /\ (forall X : string,
        dict_get_default X 0 (CallWrapped.ghost_counts calls)
        = count_if (fun c => CallWrapped.missed_inbound c
                             && bool_decide (CallWrapped.c_name c = X)
                             && never_returned calls c) calls)
  /\ (forall c : CallWrapped.Call,
        never_returned calls c = true
        <-> ~ exists e, In e calls /\ CallWrapped.c_outgoing e = true
                        /\ CallWrapped.c_name e = CallWrapped.c_name c
                        /\ CallWrapped.c_timestamp c < CallWrapped.c_timestamp e)
  /\ (forall c : CallWrapped.Call,
        earliest_return calls c = None <-> never_returned calls c = true)
  /\ (forall (c : CallWrapped.Call) (m : Z),
        earliest_return calls c = Some m ->
        (exists e, In e calls /\ returns c e = true
                   /\ CallWrapped.c_timestamp e = m)
        /\ (forall e, In e calls -> returns c e = true ->
                      m <= CallWrapped.c_timestamp e))
  /\ CallWrapped.callback_times calls = Ok times
  /\ (exists r : CallWrapped.Report,
        CallWrapped.analyze_calls env pc wc ts_start ts_end ts_jun = Ok r
        /\ CallWrapped.ghosts r
           = CallWrapped.top5 (CallWrapped.ghost_counts calls)
        /\ CallWrapped.avg_callback_time r
           = match times with
             | [] => None
             | _ =>
                 Some (round
                         (to_float
                            (fsum env times
                             / to_float
                                 (inject_Z (Z.of_nat (length times))))))
             end)
  /\ (exists r : CallWrapped.Report,
        CallWrapped.analyze_calls (utc_env TS_2025_END)
          [sam_missed; sam_called] [] TS_2025_START TS_2025_END TS_JUN_2025
        = Ok r
        /\ CallWrapped.ghosts r = []
        /\ omap (callback_latency [sam_missed; sam_called])
             [sam_missed; sam_called] = [(10 # 1)%Q]
        /\ CallWrapped.avg_callback_time r = Some 10)
  /\ (exists r : CallWrapped.Report,
        CallWrapped.analyze_calls (utc_env TS_2025_END)
          [sam_missed] [] TS_2025_START TS_2025_END TS_JUN_2025 = Ok r
        /\ CallWrapped.ghosts r = [("Sam", 1)]
        /\ CallWrapped.avg_callback_time r = None).
Proof.
  cbv zeta. set (calls := CallWrapped.all_calls pc wc).
  repeat match goal with |- _ /\ _ => split end.
  - intros c. unfold calls, CallWrapped.all_calls, sorted_by.
    rewrite sorted_In. apply in_app_iff.
  - apply ghost_counts_get.
  - apply never_returned_iff.
  - apply earliest_return_none.
  - apply earliest_return_least.
  - apply callback_times_latencies.
  - destruct (analyze_calls_total env pc wc ts_start ts_end ts_jun) as [r Hr].
    exists r. split; [exact Hr|].
    apply analyze_calls_fields in Hr
      as (cs & times & _ & Ht & Havg & _ & _ & _ & _ & _ & _ & _ & _ & _ & Hg & _).
    fold calls in Ht, Hg. split; [exact Hg|].
    rewrite callback_times_latencies in Ht. injection Ht as <-.
    unfold CallWrapped.avg_callback_time_of in Havg.
    destruct (omap (callback_latency calls) calls) as [|t ts] eqn:E.
    + now injection Havg.
    + rewrite float_div_int_ok in Havg by (cbn [length]; lia).
      cbn [bind] in Havg. now injection Havg.
  - eexists. split; [vm_compute; reflexivity|]. repeat split.
  - eexists. split; [vm_compute; reflexivity|]. repeat split.
Qed.

Lemma ghost_and_callback_witness :
  exists e : CallWrapped.Call,
    In e (CallWrapped.all_calls [sam_missed; sam_called] [])
    /\ returns sam_missed e = true
    /\ CallWrapped.c_timestamp e = 700.
Proof.
  pose proof (ghost_and_callback (utc_env TS_2025_END) [sam_missed; sam_called]
                [] TS_2025_START TS_2025_END TS_JUN_2025)
    as (_ & _ & _ & _ & Hleast & _).
  apply (Hleast sam_missed 700). reflexivity.
Defined.

(** ** WhatsApp events *)

Section WhatsApp.
Import CallWrapped.

Lemma filter_none {A : Type} (p : A -> bool) (l : list A) :
  (forall x, In x l -> p x = false) -> List.filter p l = [].
Proof.
  induction l as [|x l IH]; intros H; [reflexivity|].
  simpl. rewrite (H x) by now left. apply IH. intros y Hy. apply H. now right.
Qed.

Lemma count_if_all {A : Type} (p : A -> bool) (l : list A) :
  (forall x, In x l -> p x = true) -> count_if p l = Z.of_nat (length l).
Proof.
  intros H. unfold count_if. f_equal.
  induction l as [|x l IH]; [reflexivity|].
  simpl. rewrite (H x) by now left. simpl. f_equal.
  apply IH. intros y Hy. apply H. now right.
Qed.

Lemma omap_length_le {A B : Type} (f : A -> option B) (p : A -> bool)
    (l : list A) :
  (forall x, p x = false -> f x = None) ->
  Z.of_nat (length (omap f l)) <= count_if p l.
Proof.
  intros H. unfold count_if.
  induction l as [|x l IH]; [reflexivity|].
  simpl. destruct (p x) eqn:E.
  - destruct (f x); simpl length;
      change (list_omap _ _ f l) with (omap f l); lia.
  - rewrite (H x E). exact IH.
Qed.

(** What [analyze_whatsapp_calls] writes in every call it returns. *)
Lemma whatsapp_call_shape (rows : list WhatsAppRow)
    (wa_contacts contacts : gmap string string) (c : Call) :
  In c (analyze_whatsapp_calls rows wa_contacts contacts) ->
  c_outgoing c = true /\ c_answered c = (0 <? c_duration c)
  /\ c_platform c = "WhatsApp".
Proof.
  unfold analyze_whatsapp_calls. rewrite in_flat_map.
  intros (row & _ & Hin). cbv zeta in Hin.
  destruct (negb (truthy _)) in Hin; [destruct Hin|].
  destruct Hin as [<-|[]]. repeat split.
Qed.

Lemma all_calls_In (pc wc : list Call) (c : Call) :
  In c (all_calls pc wc) <-> In c pc \/ In c wc.
Proof.
  unfold all_calls, sorted_by. rewrite sorted_In. apply in_app_iff.
Qed.

Lemma all_calls_count (p : Call -> bool) (pc wc : list Call) :
  count_if p (all_calls pc wc) = count_if p pc + count_if p wc.
Proof.
  unfold all_calls, sorted_by. now rewrite count_if_sorted, count_if_app.
Qed.

Lemma all_calls_length (pc wc : list Call) :
  Z.of_nat (length (all_calls pc wc))
  = Z.of_nat (length pc) + Z.of_nat (length wc).
Proof.
  unfold all_calls, sorted_by. rewrite sorted_length, length_app. lia.
Qed.

(** Calls that a counter does not count can be left out of the run. *)
Lemma count_by_without (p : Call -> bool) (pc wc : list Call) :
  (forall c, In c wc -> p c = false) ->
  count_by p c_name (all_calls pc wc) = count_by p c_name (all_calls pc []).
Proof.
  intros H. rewrite !(count_by_filter p). unfold all_calls.
  rewrite !filter_sorted_by, !List.filter_app, (filter_none p wc H).
  reflexivity.
Qed.

Lemma never_returned_mono (calls calls' : list Call) (c : Call) :
  (forall e, In e calls' -> In e calls) ->
  never_returned calls c = true -> never_returned calls' c = true.
Proof.
  unfold never_returned. rewrite !forallb_forall. auto.
Qed.

End WhatsApp.

(** C9. Every call returned by the WhatsApp extractor is outgoing and is
    answered exactly when its duration is positive, so it is never a
    missed inbound call. In a run that adds such calls to any phone
    calls, compared with the run on the phone calls alone: the incoming
    count, the missed-call-from list and the inbound list are the same; no
    ghost counter is larger; no WhatsApp call has a callback latency, and
    there are at most as many latencies as missed inbound phone calls. *)
Theorem whatsapp_never_missed_inbound (rows : list CallWrapped.WhatsAppRow)
    (wa_contacts contacts : gmap string string) (env : Env)
    (pc : list CallWrapped.Call) (ts_start ts_end ts_jun : Z) :
  let wa := CallWrapped.analyze_whatsapp_calls rows wa_contacts contacts in
  let calls := CallWrapped.all_calls pc wa in
  (forall c, In c wa ->
     CallWrapped.c_outgoing c = true
     /\ (CallWrapped.c_answered c = true <-> 0 < CallWrapped.c_duration c)
     /\ CallWrapped.missed_inbound c = false)
  /\ exists r r0 : CallWrapped.Report,
       CallWrapped.analyze_calls env pc wa ts_start ts_end ts_jun = Ok r
       /\ CallWrapped.analyze_calls env pc [] ts_start ts_end ts_jun = Ok r0
       /\ CallWrapped.st_incoming (CallWrapped.stats r)
          = CallWrapped.st_incoming (CallWrapped.stats r0)
       /\ CallWrapped.st_incoming (CallWrapped.stats r)
          = count_if (fun c => negb (CallWrapped.c_outgoing c)) pc
       /\ CallWrapped.missed_kings r = CallWrapped.missed_kings r0
       /\ CallWrapped.biggest_fans r = CallWrapped.biggest_fans r0
       /\ (forall X : string,
             dict_get_default X 0 (CallWrapped.ghost_counts calls)
             <= dict_get_default X 0
                  (CallWrapped.ghost_counts (CallWrapped.all_calls pc [])))
       /\ (forall c, In c wa -> callback_latency calls c = None)
       /\ (exists times,
             CallWrapped.callback_times calls = Ok times
             /\ Z.of_nat (length times)
                <= count_if CallWrapped.missed_inbound pc).
Proof.
  cbv zeta.
  set (wa := CallWrapped.analyze_whatsapp_calls rows wa_contacts contacts).
  assert (Hshape : forall c, In c wa ->
            CallWrapped.c_outgoing c = true
            /\ CallWrapped.c_answered c = (0 <? CallWrapped.c_duration c)).
  { intros c Hc. apply whatsapp_call_shape in Hc. tauto. }
  assert (Hout : forall c, In c wa -> CallWrapped.c_outgoing c = true)
    by (intros c Hc; now apply Hshape).
  assert (Hmi : forall c, In c wa -> CallWrapped.missed_inbound c = false).
  { intros c Hc. unfold CallWrapped.missed_inbound. now rewrite (Hout c Hc). }
  split.
  { intros c Hc. destruct (Hshape c Hc) as [Ho Ha].
    split; [exact Ho|]. split; [|now apply Hmi].
    rewrite Ha. apply Z.ltb_lt. }
  destruct (analyze_calls_total env pc wa ts_start ts_end ts_jun) as [r Hr].
  destruct (analyze_calls_total env pc [] ts_start ts_end ts_jun) as [r0 Hr0].
  exists r, r0. split; [exact Hr|]. split; [exact Hr0|].
  apply analyze_calls_fields in Hr
    as (_ & _ & _ & _ & _ & _ & Hin & _ & _ & _ & Hmk & Hbf & _).
  apply analyze_calls_fields in Hr0
    as (_ & _ & _ & _ & _ & _ & Hin0 & _ & _ & _ & Hmk0 & Hbf0 & _).
  assert (Hinc : CallWrapped.st_incoming (CallWrapped.stats r)
                 = count_if (fun c => negb (CallWrapped.c_outgoing c)) pc).
  { rewrite Hin, all_calls_length, all_calls_count.
    rewrite (count_if_all CallWrapped.c_outgoing wa Hout).
    unfold count_if.
    assert (H : forall l : list CallWrapped.Call,
              Z.of_nat (length l)
              = Z.of_nat (length (List.filter CallWrapped.c_outgoing l))
                + Z.of_nat (length (List.filter
                     (fun c => negb (CallWrapped.c_outgoing c)) l))).
    { induction l as [|c l IH]; [reflexivity|].
      simpl. destruct (CallWrapped.c_outgoing c); simpl length; lia. }
    rewrite (H pc). lia. }
  repeat match goal with |- _ /\ _ => split end.
  - rewrite Hin, Hin0, !all_calls_length, !all_calls_count.
    rewrite (count_if_all CallWrapped.c_outgoing wa Hout).
    change (count_if CallWrapped.c_outgoing []) with 0.
    cbn [length]. lia.
  - exact Hinc.
  - rewrite Hmk, Hmk0. f_equal. apply count_by_without.
    intros c Hc. now rewrite (Hout c Hc), andb_false_r.
  - rewrite Hbf, Hbf0. f_equal. apply count_by_without.
    intros c Hc. now rewrite (Hout c Hc).
  - intros X. rewrite !ghost_counts_get, !all_calls_count.
    rewrite (count_if_none _ wa) by (intros c Hc; now rewrite (Hmi c Hc)).
    match goal with |- context [count_if ?p (@nil CallWrapped.Call)] =>
      change (count_if p []) with 0 end.
    rewrite !Z.add_0_r. apply count_if_le. intros c _ Hc.
    apply andb_true_iff in Hc as [Hc Hn]. rewrite Hc. cbn [andb].
    apply (never_returned_mono _ _ c) with (2 := Hn).
    intros e. rewrite !all_calls_In. intros [He|[]]. now left.
  - intros c Hc. unfold callback_latency. now rewrite (Hmi c Hc).
  - eexists. split; [apply callback_times_latencies|].
    etransitivity.
    + apply (omap_length_le _ CallWrapped.missed_inbound).
      intros c Hc. unfold callback_latency. now rewrite Hc.
    + rewrite all_calls_count, (count_if_none _ wa Hmi). lia.
Qed.

Lemma whatsapp_never_missed_inbound_witness :
  Forall (fun c => CallWrapped.c_outgoing c = true
                   /\ CallWrapped.missed_inbound c = false)
         (CallWrapped.analyze_whatsapp_calls sam_whatsapp_rows
            sam_push_names ∅).
Proof.
  destruct (whatsapp_never_missed_inbound sam_whatsapp_rows sam_push_names ∅
              (utc_env TS_2025_END) [] TS_2025_START TS_2025_END TS_JUN_2025)
    as [Hshape _].
  apply List.Forall_forall. intros c Hc.
  destruct (Hshape c Hc) as (Ho & _ & Hm). now split.
Defined.

(** ** The examples of the specification, on the model *)

(** "14155552671" and "4155552671" resolve to the same directory name. *)
Example resolve_with_country_code :
  let contacts := CallWrapped.extract_contacts [("Alice", "(415) 555-2671")] in
  CallWrapped.get_name (Some "14155552671") contacts = Some "Alice"
  /\ CallWrapped.get_name (Some "4155552671") contacts = Some "Alice".
Proof. vm_compute. split; reflexivity. Qed.

(** A toll-free number resolves to [None] even when it is in the
    directory. *)
Example resolve_toll_free :
  let contacts := CallWrapped.extract_contacts [("Bank", "1-800-555-1212")] in
  CallWrapped.get_name (Some "1-800-555-1212") contacts = None
  /\ LocalBrief.resolve_contact (Some "1-800-555-1212") contacts None = None.
Proof. vm_compute. split; reflexivity. Qed.

(** Dates 1, 2, 3, 5, 6 and 7 January 2025 give a longest streak of 3. *)
Example streak_of_three :
  CallWrapped.streaks_of (utc_env TS_2025_END) ["Sam"]
    (map (fun day => phone_call "Sam" None 60 (TS_2025_START + day * 86400)
                       true true)
         [0; 1; 2; 4; 5; 6])
  = [("Sam", 3)].
Proof. vm_compute. reflexivity. Qed.

(** * Further properties of the call engine *)

Section MoreFields.
Import CallWrapped.

(** The remaining fields of a returned report. *)
Lemma analyze_calls_fields_more (env : Env) (pc wc : list Call)
    (ts_start ts_end ts_jun : Z) (r : Report) :
  analyze_calls env pc wc ts_start ts_end ts_jun = Ok r ->
  let calls := all_calls pc wc in
  exists cs,
    contact_stats env (phone_stats calls) = Ok cs
    /\ longest_call_of calls = Ok (longest_call r)
    /\ peak_of (count_by (fun _ => true)
                  (fun c => hour env (c_timestamp c)) calls) 12
       = Ok (peak_hour r)
    /\ avoiders_of calls = Ok (avoiders r)
    /\ longest_streak_of (streaks_of env (map fst cs) calls)
       = Ok (longest_streak r)
    /\ first_call r = head calls
    /\ h1_h2 r = (count_if (fun c => c_timestamp c <? ts_jun) calls,
                  count_if (fun c => ts_jun <=? c_timestamp c) calls)
    /\ duration_buckets r
       = (count_if (fun c => c_answered c && (c_duration c <? 120)) calls,
          count_if (fun c => c_answered c && (120 <=? c_duration c)
                             && (c_duration c <? 900)) calls,
          count_if (fun c => c_answered c && (900 <=? c_duration c)) calls)
    /\ st_answered (stats r) = count_if c_answered calls
    /\ st_total_duration (stats r) = Py.sum c_duration calls
    /\ platforms r = platform_stats calls.
Proof.
  intros H. unfold analyze_calls in H. cbv zeta in H.
  apply bind_ok_inv in H as (cs & Hcs & H).
  apply bind_ok_inv in H as (lc & Hlc & H).
  apply bind_ok_inv in H as (ph & Hph & H).
  apply bind_ok_inv in H as (? & _ & H).
  apply bind_ok_inv in H as (av & Hav & H).
  do 4 (apply bind_ok_inv in H as (? & _ & H)).
  apply bind_ok_inv in H as (ls & Hls & H).
  do 3 (apply bind_ok_inv in H as (? & _ & H)).
  injection H as <-. cbv zeta. exists cs. cbn.
  repeat match goal with |- _ /\ _ => split end; auto.
Qed.

End MoreFields.

(** ** Order of the calls *)

Section Order.
Import CallWrapped.

(** Sorting a list whose keys are all equal leaves it as it is. *)
Lemma sorted_by_constant {A : Type} (key : A -> Z) (k : Z) (l : list A) :
  (forall x, In x l -> key x = k) -> sorted_by key l = l.
Proof.
  intros H. unfold sorted_by, sorted.
  induction l as [|x l IH]; [reflexivity|].
  simpl. rewrite IH by (intros y Hy; apply H; now right).
  destruct l as [|y l]; [reflexivity|]. simpl.
  rewrite (H x), (H y) by (simpl; auto). now rewrite Z.leb_refl.
Qed.

Lemma max_from_ge {A : Type} (key : A -> Z) (l : list A) : forall best,
  key best <= key (max_from key best l)
  /\ forall x, In x l -> key x <= key (max_from key best l).
Proof.
  induction l as [|y l IH]; intros best; simpl; [split; [lia | intros x []]|].
  destruct (IH (if key best <? key y then y else best)) as [H1 H2].
  destruct (key best <? key y) eqn:E; zbool.
  - split; [lia|]. intros x [<-|Hx]; [exact H1 | now apply H2].
  - split; [exact H1|]. intros x [<-|Hx]; [lia | now apply H2].
Qed.

Lemma max_by_spec {A : Type} (key : A -> Z) (l : list A) (m : A) :
  max_by key l = Ok m -> In m l /\ forall x, In x l -> key x <= key m.
Proof.
  destruct l as [|y l]; [discriminate|]. intros [= <-]. split.
  - destruct (max_from_In key l y) as [->|H]; [now left | now right].
  - destruct (max_from_ge key l y) as [H1 H2].
    intros x [<-|Hx]; [exact H1 | now apply H2].
Qed.

Lemma all_calls_perm (pc wc : list Call) :
  Permutation (all_calls pc wc) (pc ++ wc).
Proof. unfold all_calls, sorted_by. apply sorted_perm. Qed.

Lemma all_calls_nil (pc wc : list Call) :
  all_calls pc wc = [] <-> pc ++ wc = [].
Proof.
  split; intros H.
  - apply Permutation_nil. rewrite <- H. apply all_calls_perm.
  - unfold all_calls. now rewrite H.
Qed.

End Order.

(** X1. [all_calls] is a rearrangement of the phone calls followed by
    the WhatsApp calls, in ascending order of timestamp, and calls with
    the same timestamp keep the order they had in the input. *)
Theorem all_calls_stable_sort (pc wc : list CallWrapped.Call) :
  Permutation (CallWrapped.all_calls pc wc) (pc ++ wc)
  /\ StronglySorted
       (fun a b => CallWrapped.c_timestamp a <= CallWrapped.c_timestamp b)
       (CallWrapped.all_calls pc wc)
  /\ forall t : Z,
       List.filter (fun c => CallWrapped.c_timestamp c =? t)
                   (CallWrapped.all_calls pc wc)
       = List.filter (fun c => CallWrapped.c_timestamp c =? t) (pc ++ wc).
Proof.
  split; [apply all_calls_perm|]. unfold CallWrapped.all_calls.
  split; [apply sorted_by_strongly|].
  intros t. rewrite filter_sorted_by.
  apply (sorted_by_constant _ t). intros c Hc.
  apply filter_In in Hc as [_ Hc]. zbool.
Qed.

(** X2. The longest call of the report is a call of the run whose
    duration no call exceeds; it is [None] exactly when the run has no
    call. *)
Theorem longest_call_maximal (env : Env) (pc wc : list CallWrapped.Call)
    (ts_start ts_end ts_jun : Z) :
  exists r : CallWrapped.Report,
    CallWrapped.analyze_calls env pc wc ts_start ts_end ts_jun = Ok r
    /\ (CallWrapped.longest_call r = None <-> pc ++ wc = [])
    /\ forall c, CallWrapped.longest_call r = Some c ->
         (In c pc \/ In c wc)
         /\ forall c', In c' pc \/ In c' wc ->
              CallWrapped.c_duration c' <= CallWrapped.c_duration c.
Proof.
  destruct (analyze_calls_total env pc wc ts_start ts_end ts_jun) as [r Hr].
  exists r. split; [exact Hr|].
  apply analyze_calls_fields_more in Hr as (cs & _ & Hl & _).
  unfold CallWrapped.longest_call_of in Hl.
  pose proof (all_calls_nil pc wc) as Hnil.
  destruct (CallWrapped.all_calls pc wc) as [|c0 calls] eqn:E.
  - injection Hl as Hl. rewrite <- Hl.
    split; [split; intros _; [now apply Hnil | reflexivity]|]. discriminate.
  - apply bind_ok_inv in Hl as (m & Hm & Hl). injection Hl as Hl.
    rewrite <- Hl. split.
    + split; [discriminate|]. intros H. apply Hnil in H. discriminate H.
    + intros c [= <-]. apply max_by_spec in Hm as [Hin Hmax].
      rewrite <- E in Hin, Hmax. split.
      * now apply all_calls_In.
      * intros c' Hc'. apply Hmax. now apply all_calls_In.
Qed.

(** X3. The first call of the report is a call of the run with the
    least timestamp. *)
Theorem first_call_earliest (env : Env) (pc wc : list CallWrapped.Call)
    (ts_start ts_end ts_jun : Z) :
  exists r : CallWrapped.Report,
    CallWrapped.analyze_calls env pc wc ts_start ts_end ts_jun = Ok r
    /\ (CallWrapped.first_call r = None <-> pc ++ wc = [])
    /\ forall c, CallWrapped.first_call r = Some c ->
         (In c pc \/ In c wc)
         /\ forall c', In c' pc \/ In c' wc ->
              CallWrapped.c_timestamp c <= CallWrapped.c_timestamp c'.
Proof.
  destruct (analyze_calls_total env pc wc ts_start ts_end ts_jun) as [r Hr].
  exists r. split; [exact Hr|].
  apply analyze_calls_fields_more in Hr as (cs & _ & _ & _ & _ & _ & Hf & _).
  rewrite Hf.
  pose proof (sorted_by_strongly CallWrapped.c_timestamp (pc ++ wc)) as Hs.
  assert (Hin : forall c, In c (CallWrapped.all_calls pc wc)
                          <-> In c pc \/ In c wc) by apply all_calls_In.
  pose proof (all_calls_nil pc wc) as Hnil.
  unfold CallWrapped.all_calls in *.
  destruct (sorted_by CallWrapped.c_timestamp (pc ++ wc)) as [|c0 calls].
  - split; [split; intros _; [now apply Hnil | reflexivity]|]. discriminate.
  - split.
    + split; [discriminate|]. intros H. apply Hnil in H. discriminate H.
    + intros c [= <-]. split; [apply Hin; now left|].
      intros c' Hc'. apply Hin in Hc' as [<-|Hc']; [lia|].
      inversion Hs as [|? ? _ Hall]; subst.
      rewrite List.Forall_forall in Hall. now apply Hall.
Qed.

(** ** Totals are conserved *)

Section Conservation.
Import CallWrapped.
Context {K V : Type} `{EqDecision K}.

Lemma dict_sum_update (g : V -> Z) (k : K) (f : V -> V) (dflt : V)
    (d : dict K V) :
  g dflt = 0 ->
  dict_sum g (dict_update k f dflt d)
  = dict_sum g d + g (f (default dflt (dict_get k d)))
    - g (default dflt (dict_get k d)).
Proof.
  intros Hg. induction d as [|[k0 v0] d IH]; simpl.
  - cbn. lia.
  - destruct (decide (k = k0)); simpl; [cbn; lia|]. rewrite IH. lia.
Qed.

(** A loop of updates that each add [w x] to a field adds up the [w]. *)
Lemma foldl_update_sum {A : Type} (g : V -> Z) (key : A -> K)
    (upd : A -> V -> V) (dflt : V) (w : A -> Z) (l : list A) :
  g dflt = 0 ->
  (forall x v, g (upd x v) = g v + w x) ->
  forall d : dict K V,
    dict_sum g (foldl (fun d x => dict_update (key x) (upd x) dflt d) d l)
    = dict_sum g d + Py.sum w l.
Proof.
  intros Hg Hw. unfold Py.sum.
  assert (Hs : forall (l : list A) (a : Z),
            foldl (fun acc x => acc + w x) a l
            = a + foldl (fun acc x => acc + w x) 0 l).
  { clear. induction l as [|x l IH]; intros a; simpl; [lia|].
    rewrite (IH (a + w x)), (IH (0 + w x)). lia. }
  induction l as [|x l IH]; intros d; simpl; [lia|].
  rewrite IH, dict_sum_update, Hw, (Hs l (0 + w x)) by exact Hg. lia.
Qed.

Lemma dict_update_invariant (P : V -> Prop) (k : K) (f : V -> V) (dflt : V)
    (d : dict K V) :
  P (f dflt) -> (forall v, P v -> P (f v)) ->
  Forall (fun kv => P kv.2) d ->
  Forall (fun kv => P kv.2) (dict_update k f dflt d).
Proof.
  intros H0 Hf. induction 1 as [|[k0 v0] d Hv Hd IH]; simpl.
  - constructor; [exact H0 | constructor].
  - destruct (decide (k = k0)); constructor; auto. now apply Hf.
Qed.

End Conservation.

Section Partitions.
Import CallWrapped.

Lemma sum_ones {A : Type} (l : list A) :
  Py.sum (fun _ => 1) l = Z.of_nat (length l).
Proof.
  unfold Py.sum. rewrite (foldl_incr l 0). lia.
Qed.

Lemma count_if_split {A : Type} (p q : A -> bool) (l : list A) :
  (forall x, q x = negb (p x)) ->
  count_if p l + count_if q l = Z.of_nat (length l).
Proof.
  intros H. unfold count_if.
  induction l as [|x l IH]; [reflexivity|].
  simpl. rewrite H. destruct (p x); simpl length; lia.
Qed.

Lemma buckets_split (calls : list Call) :
  count_if (fun c => c_answered c && (c_duration c <? 120)) calls
  + count_if (fun c => c_answered c && (120 <=? c_duration c)
                       && (c_duration c <? 900)) calls
  + count_if (fun c => c_answered c && (900 <=? c_duration c)) calls
  = count_if c_answered calls.
Proof.
  unfold count_if. induction calls as [|c calls IH]; [reflexivity|].
  simpl. destruct (c_answered c); simpl; [|exact IH].
  destruct (c_duration c <? 120) eqn:E1, (120 <=? c_duration c) eqn:E2,
    (c_duration c <? 900) eqn:E3, (900 <=? c_duration c) eqn:E4;
    zbool; simpl length; lia.
Qed.

Lemma platform_stats_sums (calls : list Call) :
  dict_sum fst (platform_stats calls) = Z.of_nat (length calls)
  /\ dict_sum snd (platform_stats calls) = Py.sum c_duration calls.
Proof.
  unfold platform_stats. split.
  - rewrite (foldl_update_sum (V := Z * Z) fst c_platform
               (fun c s => (s.1 + 1, s.2 + c_duration c)) (0, 0)
               (fun _ => 1)) by reflexivity.
    simpl. apply sum_ones.
  - rewrite (foldl_update_sum (V := Z * Z) snd c_platform
               (fun c s => (s.1 + 1, s.2 + c_duration c)) (0, 0)
               c_duration) by reflexivity.
    reflexivity.
Qed.

End Partitions.

(** X4. In every report the two halves of the year add up to the total
    number of calls, the three duration buckets add up to the number of
    answered calls, and the per-platform counts and durations add up to
    the total count and the total duration. *)
Theorem report_totals_partition (env : Env) (pc wc : list CallWrapped.Call)
    (ts_start ts_end ts_jun : Z) :
  exists r : CallWrapped.Report,
    CallWrapped.analyze_calls env pc wc ts_start ts_end ts_jun = Ok r
    /\ (CallWrapped.h1_h2 r).1 + (CallWrapped.h1_h2 r).2
       = CallWrapped.st_total (CallWrapped.stats r)
    /\ (CallWrapped.duration_buckets r).1.1
       + (CallWrapped.duration_buckets r).1.2
       + (CallWrapped.duration_buckets r).2
       = CallWrapped.st_answered (CallWrapped.stats r)
    /\ dict_sum fst (CallWrapped.platforms r)
       = CallWrapped.st_total (CallWrapped.stats r)
    /\ dict_sum snd (CallWrapped.platforms r)
       = CallWrapped.st_total_duration (CallWrapped.stats r).
Proof.
  destruct (analyze_calls_total env pc wc ts_start ts_end ts_jun) as [r Hr].
  exists r. split; [exact Hr|].
  pose proof (analyze_calls_fields _ _ _ _ _ _ _ Hr)
    as (_ & _ & _ & _ & _ & Ht & _).
  apply analyze_calls_fields_more in Hr
    as (_ & _ & _ & _ & _ & _ & _ & Hh & Hb & Ha & Hd & Hp).
  rewrite Hh, Hb, Ha, Hd, Hp, Ht. cbn [fst snd].
  destruct (platform_stats_sums (CallWrapped.all_calls pc wc)) as [H1 H2].
  repeat match goal with |- _ /\ _ => split end.
  - apply count_if_split. intros c.
    destruct (CallWrapped.c_timestamp c <? ts_jun) eqn:E; simpl; zbool.
  - apply buckets_split.
  - exact H1.
  - exact H2.
Qed.

(** ** Per-key aggregates and published profiles *)

Section Profiles.
Import CallWrapped.

Lemma dict_update_In_inv {K V : Type} `{EqDecision K} (k k' : K) (v' : V)
    (f : V -> V) (dflt : V) (d : dict K V) :
  In (k', v') (dict_update k f dflt d) ->
  In (k', v') d \/ (k' = k /\ exists v0, v' = f v0).
Proof.
  induction d as [|[k0 v0] d IH]; simpl.
  - intros [[= <- <-]|[]]. right. eauto.
  - destruct (decide (k = k0)) as [->|Hk]; simpl.
    + intros [[= <- <-]|Hin]; [right; eauto | left; now right].
    + intros [Heq|Hin]; [left; now left|].
      destruct (IH Hin) as [H1|H1]; [left; now right | now right].
Qed.

Lemma dict_update_length {K V : Type} `{EqDecision K} (k : K)
    (f : V -> V) (dflt : V) (d : dict K V) :
  (length (dict_update k f dflt d) <= S (length d))%nat.
Proof.
  induction d as [|[k0 v0] d IH]; simpl; [lia|].
  destruct (decide (k = k0)); simpl; lia.
Qed.

Lemma set_add_In (x y : string) (s : list string) :
  In y (set_add x s) <-> y = x \/ In y s.
Proof.
  unfold set_add. destruct (bool_decide (x ∈ s)) eqn:E.
  - apply bool_decide_eq_true_1, list_elem_of_In in E.
    split; [now right | intros [->|H]; assumption].
  - rewrite in_app_iff. simpl. intuition congruence.
Qed.

Lemma phone_stats_step (d : dict string Stats) (c : Call) :
  dict_update (phone_key c) (add_call c) new_stats d
  = if true then dict_update (phone_key c) (add_call c) new_stats d else d.
Proof. reflexivity. Qed.

Lemma phone_stats_NoDup (calls : list Call) :
  List.NoDup (map fst (phone_stats calls)).
Proof.
  apply (foldl_update_NoDup (fun _ => true) phone_key add_call new_stats _
           phone_stats_step).
  constructor.
Qed.

(** The names recorded under a key are the names of its calls. *)
Lemma names_of_fold (xs : list Call) : forall (v : Stats) (n : string),
  In n (cs_names (foldl (fun v c => add_call c v) v xs))
  <-> In n (cs_names v) \/ exists c, In c xs /\ c_name c = n.
Proof.
  induction xs as [|c xs IH]; intros v n; simpl.
  - split; [now left | intros [H|(c & [] & _)]; exact H].
  - rewrite IH. cbn [add_call cs_names]. rewrite set_add_In. split.
    + intros [[Heq|H]|(c' & Hc' & Hn)]; subst; eauto.
    + intros [H|(c' & [Heq|Hc'] & Hn)]; subst; eauto.
Qed.

Lemma phone_stats_names_In (calls : list Call) (key : string) (st : Stats)
    (n : string) :
  In (key, st) (phone_stats calls) ->
  (In n (cs_names st)
   <-> exists c, In c calls /\ phone_key c = key /\ c_name c = n).
Proof.
  intros Hin. apply (dict_get_In _ _ _ (phone_stats_NoDup calls)) in Hin.
  unfold phone_stats in Hin.
  rewrite (foldl_update_get (fun _ => true) phone_key add_call new_stats _
             phone_stats_step) in Hin.
  cbn [andb] in Hin.
  destruct (List.filter _ calls) as [|c0 xs] eqn:E; [discriminate|].
  injection Hin as <-. cbn [dict_get default].
  change (id new_stats) with new_stats.
  rewrite (names_of_fold (c0 :: xs) new_stats).
  split.
  - intros [Hf|(c & Hc & Hn)]; [destruct Hf|]. exists c. rewrite <- E in Hc.
    apply filter_In in Hc as [Hc Hk].
    apply bool_decide_eq_true_1 in Hk. auto.
  - intros (c & Hc & Hk & Hn). right. exists c. split; [|exact Hn].
    rewrite <- E. apply filter_In. split; [exact Hc|].
    now apply bool_decide_eq_true_2.
Qed.

(** The loop of lines 372-378, from any dictionary built so far. *)
Lemma contact_stats_loop (env : Env) (ps : list (string * Stats)) :
  forall acc cs : dict string ContactStats,
    foldM (fun cs kv =>
             let* best_name := max_by len (set_iter env (cs_names kv.2)) in
             Ok (dict_set best_name (publish env kv.2) cs)) acc ps = Ok cs ->
    (List.NoDup (map fst acc) -> List.NoDup (map fst cs))
    /\ (length cs <= length acc + length ps)%nat
    /\ (forall n, In n (map fst acc) -> In n (map fst cs))
    /\ (forall n p, In (n, p) cs ->
          In (n, p) acc
          \/ exists kv, In kv ps /\ p = publish env kv.2
                        /\ In n (cs_names kv.2)
                        /\ forall n', In n' (cs_names kv.2) -> len n' <= len n)
    /\ (forall kv, In kv ps ->
          exists n, In n (map fst cs) /\ In n (cs_names kv.2)
                    /\ forall n', In n' (cs_names kv.2) -> len n' <= len n).
Proof.
  induction ps as [|kv ps IH]; intros acc cs H; simpl in H.
  - injection H as <-. repeat split; auto; try lia. intros kv [].
  - apply bind_ok_inv in H as (acc' & H1 & H2).
    apply bind_ok_inv in H1 as (best & Hb & Hacc). injection Hacc as <-.
    apply max_by_spec in Hb as [Hbin Hbmax].
    unfold set_iter, sorted_by in Hbin, Hbmax.
    rewrite sorted_In in Hbin.
    assert (Hbest : forall n', In n' (cs_names kv.2) -> len n' <= len best).
    { intros n' Hn'. apply Hbmax. now apply sorted_In. }
    destruct (IH _ _ H2) as (I1 & I2 & I3 & I4 & I5).
    repeat match goal with |- _ /\ _ => split end.
    + intros Hnd. apply I1. now apply dict_update_NoDup.
    + pose proof (dict_update_length best (fun _ => publish env kv.2)
                    (publish env kv.2) acc). simpl. unfold dict_set in I2. lia.
    + intros n Hn. apply I3. apply dict_update_keys. now right.
    + intros n p Hin. destruct (I4 n p Hin) as [Hin'|(kv' & Hkv & Hrest)].
      * apply dict_update_In_inv in Hin' as [Hin'|[-> [v0 ->]]]; [now left|].
        right. exists kv. split; [now left|]. auto.
      * right. exists kv'. split; [now right | exact Hrest].
    + intros kv' [<-|Hkv'].
      * exists best. split; [|auto]. apply I3. apply dict_update_keys. now left.
      * now apply I5.
Qed.

End Profiles.

(** X5. [phone_stats] loses no call: its keys are distinct, the counts
    of its entries add up to the number of calls and their durations to
    the total duration, and every entry has at least one call, as many
    outgoing plus incoming calls as calls, and as many answered plus
    missed calls as calls. *)
Theorem phone_stats_conserves (calls : list CallWrapped.Call) :
  List.NoDup (map fst (CallWrapped.phone_stats calls))
  /\ dict_sum CallWrapped.cs_count (CallWrapped.phone_stats calls)
     = Z.of_nat (length calls)
  /\ dict_sum CallWrapped.cs_duration (CallWrapped.phone_stats calls)
     = Py.sum CallWrapped.c_duration calls
  /\ Forall (fun kv =>
               1 <= CallWrapped.cs_count kv.2
               /\ CallWrapped.cs_outgoing kv.2 + CallWrapped.cs_incoming kv.2
                  = CallWrapped.cs_count kv.2
               /\ CallWrapped.cs_answered kv.2 + CallWrapped.cs_missed kv.2
                  = CallWrapped.cs_count kv.2)
            (CallWrapped.phone_stats calls).
Proof.
  split; [apply phone_stats_NoDup|]. unfold CallWrapped.phone_stats.
  split; [|split].
  - rewrite (foldl_update_sum CallWrapped.cs_count CallWrapped.phone_key
               CallWrapped.add_call CallWrapped.new_stats (fun _ => 1))
      by reflexivity.
    simpl. apply sum_ones.
  - rewrite (foldl_update_sum CallWrapped.cs_duration CallWrapped.phone_key
               CallWrapped.add_call CallWrapped.new_stats
               CallWrapped.c_duration) by reflexivity.
    reflexivity.
  - generalize (@List.Forall_nil (string * CallWrapped.Stats)
                  (fun kv =>
                     1 <= CallWrapped.cs_count kv.2
                     /\ CallWrapped.cs_outgoing kv.2 + CallWrapped.cs_incoming kv.2
                        = CallWrapped.cs_count kv.2
                     /\ CallWrapped.cs_answered kv.2 + CallWrapped.cs_missed kv.2
                        = CallWrapped.cs_count kv.2)).
    generalize (@nil (string * CallWrapped.Stats)).
    induction calls as [|c calls IH]; intros d Hd; [exact Hd|].
    simpl. apply IH.
    apply (dict_update_invariant
             (fun s => 1 <= CallWrapped.cs_count s
                       /\ CallWrapped.cs_outgoing s + CallWrapped.cs_incoming s
                          = CallWrapped.cs_count s
                       /\ CallWrapped.cs_answered s + CallWrapped.cs_missed s
                          = CallWrapped.cs_count s)); [| |exact Hd].
    + cbn. destruct (CallWrapped.c_outgoing c), (CallWrapped.c_answered c); lia.
    + intros v (H1 & H2 & H3). cbn.
      destruct (CallWrapped.c_outgoing c), (CallWrapped.c_answered c); lia.
Qed.

(** X6. The contact profiles are built for every input. Their names are
    distinct and there are at most as many as phone keys. Every profile
    is the aggregate of one phone key, published under a name of one of
    that key's calls that is at least as long as every name of that
    key's calls; and for every phone key some profile is published under
    such a name. *)
Theorem published_profiles (env : Env) (calls : list CallWrapped.Call) :
  exists cs : dict string CallWrapped.ContactStats,
    CallWrapped.contact_stats env (CallWrapped.phone_stats calls) = Ok cs
    /\ List.NoDup (map fst cs)
    /\ (length cs <= length (CallWrapped.phone_stats calls))%nat
    /\ (forall n p, In (n, p) cs ->
          exists key st,
            In (key, st) (CallWrapped.phone_stats calls)
            /\ p = CallWrapped.publish env st
            /\ (exists c, In c calls /\ CallWrapped.phone_key c = key
                          /\ CallWrapped.c_name c = n)
            /\ forall c, In c calls -> CallWrapped.phone_key c = key ->
                         len (CallWrapped.c_name c) <= len n)
    /\ (forall key st, In (key, st) (CallWrapped.phone_stats calls) ->
          exists n, In n (map fst cs)
            /\ (exists c, In c calls /\ CallWrapped.phone_key c = key
                          /\ CallWrapped.c_name c = n)
            /\ forall c, In c calls -> CallWrapped.phone_key c = key ->
                         len (CallWrapped.c_name c) <= len n).
Proof.
  destruct (contact_stats_total env calls) as [cs Hcs].
  exists cs. split; [exact Hcs|].
  unfold CallWrapped.contact_stats in Hcs.
  destruct (contact_stats_loop env _ _ _ Hcs) as (I1 & I2 & _ & I4 & I5).
  repeat match goal with |- _ /\ _ => split end.
  - apply I1. constructor.
  - simpl in I2. lia.
  - intros n p Hin. destruct (I4 n p Hin) as [[]|([key st] & Hkv & -> & Hn & Hmax)].
    exists key, st. split; [exact Hkv|]. split; [reflexivity|].
    cbn [snd] in *. split.
    + now apply (phone_stats_names_In calls key st n Hkv).
    + intros c Hc Hk. apply Hmax.
      apply (phone_stats_names_In calls key st _ Hkv). eauto.
  - intros key st Hkv. destruct (I5 (key, st) Hkv) as (n & Hn & Hnames & Hmax).
    exists n. split; [exact Hn|]. cbn [snd] in *. split.
    + now apply (phone_stats_names_In calls key st n Hkv).
    + intros c Hc Hk. apply Hmax.
      apply (phone_stats_names_In calls key st _ Hkv). eauto.
Qed.

(** ** Counters and the lists cut from them *)

Section Ranked.
Import CallWrapped.


Lemma count_if_pos_exists {A : Type} (p : A -> bool) (l : list A) :
  0 < count_if p l -> exists x, In x l /\ p x = true.
Proof.
  unfold count_if. destruct (List.filter p l) as [|x xs] eqn:E;
    [simpl; lia|].
  intros _. exists x. apply filter_In. rewrite E. now left.
Qed.

(** An entry of a counter holds the positive count of its key. *)
Lemma count_by_In {A : Type} (p : A -> bool) (key : A -> string)
    (l : list A) (k : string) (n : Z) :
  In (k, n) (count_by p key l)
  <-> n = count_if (fun x => p x && bool_decide (key x = k)) l /\ 0 < n.
Proof.
  rewrite (dict_get_In _ _ _ (count_by_NoDup p key l)), count_by_get.
  cbv zeta. destruct (0 <? _) eqn:E; zbool.
  - split; [intros [= <-]; auto | intros [-> _]; reflexivity].
  - split; [discriminate | intros [-> H]; lia].
Qed.

Lemma top5_In (d : dict string Z) (k : string) (n : Z) :
  In (k, n) (top5 d) -> In (k, n) d.
Proof.
  unfold top5, sorted_by_desc. intros H. apply take_In in H.
  now apply sorted_In in H.
Qed.

Lemma hour_range (env : Env) (ts : Z) : 0 <= hour env ts < 24.
Proof.
  unfold hour.
  pose proof (Z.mod_pos_bound (localtime env ts) 86400 ltac:(lia)) as H.
  split.
  - apply Z.div_pos; lia.
  - apply Z.div_lt_upper_bound; lia.
Qed.

Lemma count_by_Z_NoDup {A : Type} (p : A -> bool) (key : A -> Z) (l : list A) :
  List.NoDup (map fst (count_by p key l)).
Proof.
  apply (foldl_update_NoDup p key (fun _ n => n + 1) 0 _ (fun _ _ => eq_refl)).
  constructor.
Qed.

(** A counter that counts every element is empty only on no element. *)
Lemma count_by_all_nil {A K : Type} `{EqDecision K} (key : A -> K)
    (l : list A) :
  count_by (fun _ => true) key l = [] -> l = [].
Proof.
  destruct l as [|x l]; [reflexivity|]. intros H.
  pose proof (count_by_get (fun _ => true) key (x :: l) (key x)) as Hg.
  rewrite H in Hg. cbv zeta in Hg. cbn [dict_get andb] in Hg.
  destruct (0 <? _) eqn:E; [discriminate Hg|].
  zbool. unfold count_if in E. cbn [List.filter] in E.
  rewrite bool_decide_eq_true_2 in E by reflexivity.
  cbn [length] in E. lia.
Qed.

End Ranked.

(** X7. Every contact of the ghost list has at least one ghosted call
    and at most as many as missed inbound calls: the ghost counter of a
    contact never exceeds its missed-call-from counter. *)
Theorem ghosts_within_missed (env : Env) (pc wc : list CallWrapped.Call)
    (ts_start ts_end ts_jun : Z) :
  let calls := CallWrapped.all_calls pc wc in
  let missed_from :=
    count_by (fun c => negb (CallWrapped.c_answered c)
                       && negb (CallWrapped.c_outgoing c))
             CallWrapped.c_name calls in
  (forall X : string,
     dict_get_default X 0 (CallWrapped.ghost_counts calls)
     <= dict_get_default X 0 missed_from)
  /\ exists r : CallWrapped.Report,
       CallWrapped.analyze_calls env pc wc ts_start ts_end ts_jun = Ok r
       /\ forall (X : string) (n : Z),
            In (X, n) (CallWrapped.ghosts r) ->
            1 <= n <= dict_get_default X 0 missed_from.
Proof.
  cbv zeta. set (calls := CallWrapped.all_calls pc wc).
  assert (Hle : forall X : string,
     dict_get_default X 0 (CallWrapped.ghost_counts calls)
     <= dict_get_default X 0
          (count_by (fun c => negb (CallWrapped.c_answered c)
                              && negb (CallWrapped.c_outgoing c))
                    CallWrapped.c_name calls)).
  { intros X. rewrite ghost_counts_get, count_by_get_default.
    apply count_if_le. intros c _ Hc.
    apply andb_true_iff in Hc as [Hc _]. apply andb_true_iff in Hc as [Hm Hx].
    unfold CallWrapped.missed_inbound in Hm.
    apply andb_true_iff in Hm as [Ho Ha]. now rewrite Ho, Ha, Hx. }
  split; [exact Hle|].
  destruct (analyze_calls_total env pc wc ts_start ts_end ts_jun) as [r Hr].
  exists r. split; [exact Hr|].
  apply analyze_calls_fields in Hr
    as (_ & _ & _ & _ & _ & _ & _ & _ & _ & _ & _ & _ & _ & _ & Hg & _).
  fold calls in Hg. intros X n Hin. rewrite Hg in Hin.
  apply top5_In in Hin. specialize (Hle X).
  assert (Hn : dict_get_default X 0 (CallWrapped.ghost_counts calls) = n).
  { unfold dict_get_default, CallWrapped.ghost_counts in Hin |- *.
    apply (dict_get_In _ _ _ (count_by_NoDup _ _ _)) in Hin.
    now rewrite Hin. }
  unfold CallWrapped.ghost_counts in Hin. apply count_by_In in Hin as [_ Hpos].
  lia.
Qed.

(** X8. When the run has a call, the peak hour is an hour of the day, 0
    to 23, in which at least as many calls took place as in any other
    hour; without calls it is 12. *)
Theorem peak_hour_is_busiest (env : Env) (pc wc : list CallWrapped.Call)
    (ts_start ts_end ts_jun : Z) :
  let calls := CallWrapped.all_calls pc wc in
  let in_hour h :=
    count_if (fun c => hour env (CallWrapped.c_timestamp c) =? h) calls in
  exists r : CallWrapped.Report,
    CallWrapped.analyze_calls env pc wc ts_start ts_end ts_jun = Ok r
    /\ (pc ++ wc = [] -> CallWrapped.peak_hour r = 12)
    /\ (pc ++ wc <> [] ->
        0 <= CallWrapped.peak_hour r < 24
        /\ 0 < in_hour (CallWrapped.peak_hour r)
        /\ forall h : Z, in_hour h <= in_hour (CallWrapped.peak_hour r)).
Proof.
  cbv zeta. set (calls := CallWrapped.all_calls pc wc).
  destruct (analyze_calls_total env pc wc ts_start ts_end ts_jun) as [r Hr].
  exists r. split; [exact Hr|].
  apply analyze_calls_fields_more in Hr as (_ & _ & _ & Hp & _).
  fold calls in Hp.
  pose proof (all_calls_nil pc wc) as Hnil. fold calls in Hnil.
  assert (Hcount : forall h n,
    In (h, n) (count_by (fun _ => true)
                 (fun c => hour env (CallWrapped.c_timestamp c)) calls)
    <-> n = count_if (fun c => hour env (CallWrapped.c_timestamp c) =? h) calls
        /\ 0 < n).
  { intros h n.
    rewrite (dict_get_In _ _ _ (count_by_Z_NoDup _ _ _)), count_by_get.
    cbv zeta. cbn [andb].
    rewrite (count_if_ext
               (fun c => bool_decide (hour env (CallWrapped.c_timestamp c) = h))
               (fun c => hour env (CallWrapped.c_timestamp c) =? h)).
    2:{ intros c _. destruct (Z.eqb_spec (hour env (CallWrapped.c_timestamp c)) h).
        - now apply bool_decide_eq_true_2.
        - now apply bool_decide_eq_false_2. }
    destruct (0 <? _) eqn:E; zbool.
    - split; [intros [= <-]; auto | intros [-> _]; reflexivity].
    - split; [discriminate | intros [-> H]; lia]. }
  split.
  - intros He. apply Hnil in He. rewrite He in Hp.
    cbn in Hp. now injection Hp.
  - intros Hne. unfold CallWrapped.peak_of in Hp.
    destruct (count_by _ _ calls) as [|kv0 d] eqn:Ed.
    + exfalso. apply Hne, Hnil. now apply count_by_all_nil in Ed.
    + apply bind_ok_inv in Hp as ([k n] & Hm & Hp). injection Hp as Hp.
      cbn [fst] in Hp. subst k.
      apply max_by_spec in Hm as [Hin Hmax].
      apply Hcount in Hin as [Hn Hpos]. cbn [snd] in Hmax.
      split; [|split].
      * rewrite Hn in Hpos. apply count_if_pos_exists in Hpos as (c & _ & Hc).
        zbool. rewrite <- Hc. apply hour_range.
      * now rewrite <- Hn.
      * intros h. rewrite <- Hn.
        destruct (Z_lt_le_dec 0
                    (count_if (fun c => hour env (CallWrapped.c_timestamp c)
                                        =? h) calls)) as [Hh|Hh]; [|lia].
        apply (Hmax (h, _)). apply Hcount. now split.
Qed.

(** ** Call avoiders *)

Section Avoiders.
Import CallWrapped.

Lemma omap_In {A B : Type} (f : A -> option B) (l : list A) (y : B) :
  In y (omap f l) <-> exists x, In x l /\ f x = Some y.
Proof.
  induction l as [|x l IH]; simpl.
  - split; [intros [] | intros (x & [] & _)].
  - change (list_omap A B f l) with (omap f l).
    destruct (f x) as [z|] eqn:E; simpl; rewrite IH; split.
    + intros [<-|(x' & Hx' & Hf)]; eauto.
    + intros (x' & [<-|Hx'] & Hf); [left; congruence | eauto].
    + intros (x' & Hx' & Hf); eauto.
    + intros (x' & [<-|Hx'] & Hf); [congruence | eauto].
Qed.

Lemma attempts_fold (xs : list Call) : forall a b : Z,
  foldl (fun (s : Z * Z) c =>
           (s.1 + 1, if c_answered c then s.2 + 1 else s.2)) (a, b) xs
  = (a + Z.of_nat (length xs), b + count_if c_answered xs).
Proof.
  unfold count_if.
  induction xs as [|c xs IH]; intros a b; simpl; [f_equal; lia|].
  rewrite IH. destruct (c_answered c); simpl length; f_equal; lia.
Qed.

(** The entry of a name in [unanswered_to] holds its outgoing calls and
    the answered ones among them. *)
Lemma unanswered_to_In (calls : list Call) (X : string) (a b : Z) :
  In (X, (a, b)) (unanswered_to calls)
  <-> 0 < a
      /\ a = count_if (fun c => c_outgoing c && bool_decide (c_name c = X)) calls
      /\ b = count_if (fun c => c_outgoing c && bool_decide (c_name c = X)
                                && c_answered c) calls.
Proof.
  assert (Hnd : List.NoDup (map fst (unanswered_to calls))).
  { apply (foldl_update_NoDup c_outgoing c_name
             (fun c s => (s.1 + 1, if c_answered c then s.2 + 1 else s.2))
             (0, 0) _ (fun _ _ => eq_refl)). constructor. }
  rewrite (dict_get_In _ _ _ Hnd). unfold unanswered_to.
  rewrite (foldl_update_get c_outgoing c_name
             (fun c s => (s.1 + 1, if c_answered c then s.2 + 1 else s.2))
             (0, 0) _ (fun _ _ => eq_refl)).
  set (mine := fun c => c_outgoing c && bool_decide (c_name c = X)).
  assert (Ha : count_if mine calls
               = Z.of_nat (length (List.filter mine calls))) by reflexivity.
  assert (Hb : count_if (fun c => mine c && c_answered c) calls
               = count_if c_answered (List.filter mine calls))
    by (symmetry; apply count_if_filter).
  change (count_if (fun c => c_outgoing c && bool_decide (c_name c = X)
                             && c_answered c) calls)
    with (count_if (fun c => mine c && c_answered c) calls).
  rewrite Ha, Hb.
  destruct (List.filter mine calls) as [|c xs].
  - cbn [dict_get length]. split; [discriminate | lia].
  - cbn [dict_get default]. unfold id. rewrite attempts_fold. split.
    + intros [= <- <-]. cbn [length]. repeat split; lia.
    + intros (_ & -> & ->). now rewrite !Z.add_0_l.
Qed.

Lemma more_than_half (m a : Z) :
  0 < a ->
  Qlt_bool (1 # 2) (Qred (inject_Z m / inject_Z a)) = true <-> a < 2 * m.
Proof.
  intros Ha. rewrite Qlt_bool_iff, Qred_correct.
  destruct a as [|p|p]; try lia.
  unfold Qlt, Qdiv, Qmult, Qinv, inject_Z. simpl. lia.
Qed.

(** The list [avoiders] before it is sorted and cut. *)
Lemma avoiders_of_entries (calls : list Call) :
  avoiders_of calls
  = Ok (take 5 (sorted_by_desc (fun x : string * Z * Z => x.1.2)
          (omap (fun kv : string * (Z * Z) =>
                   if (5 <=? kv.2.1) && (kv.2.1 <? 2 * (kv.2.1 - kv.2.2))
                   then Some (kv.1, kv.2.1 - kv.2.2, kv.2.1) else None)
                (unanswered_to calls)))).
Proof.
  unfold avoiders_of.
  rewrite (foldM_append _
             (fun kv : string * (Z * Z) =>
                if (5 <=? kv.2.1) && (kv.2.1 <? 2 * (kv.2.1 - kv.2.2))
                then Some (kv.1, kv.2.1 - kv.2.2, kv.2.1) else None));
    [reflexivity|].
  intros acc kv. cbv zeta.
  destruct (5 <=? kv.2.1) eqn:E; [|reflexivity]. cbn [andb].
  rewrite truediv_ok by zbool. cbn [bind].
  destruct (kv.2.1 <? 2 * (kv.2.1 - kv.2.2)) eqn:E2.
  - replace (Qlt_bool _ _) with true; [reflexivity|].
    symmetry. apply more_than_half; zbool.
  - destruct (Qlt_bool _ _) eqn:E3; [|reflexivity].
    apply more_than_half in E3; zbool.
Qed.

Lemma count_if_minus {A : Type} (p q : A -> bool) (l : list A) :
  count_if p l - count_if (fun x => p x && q x) l
  = count_if (fun x => p x && negb (q x)) l.
Proof.
  unfold count_if. induction l as [|x l IH]; [reflexivity|].
  simpl. destruct (p x), (q x); simpl length; lia.
Qed.

End Avoiders.

(** X9. Every entry [(X, missed, attempts)] of the avoider list holds
    the number of outgoing calls to [X], at least five, and the number of
    them that were not answered, more than half. *)
Theorem avoiders_entries (env : Env) (pc wc : list CallWrapped.Call)
    (ts_start ts_end ts_jun : Z) :
  let calls := CallWrapped.all_calls pc wc in
  exists r : CallWrapped.Report,
    CallWrapped.analyze_calls env pc wc ts_start ts_end ts_jun = Ok r
    /\ forall (X : string) (unanswered attempts : Z),
         In (X, unanswered, attempts) (CallWrapped.avoiders r) ->
         attempts
         = count_if (fun c => CallWrapped.c_outgoing c
                              && bool_decide (CallWrapped.c_name c = X)) calls
         /\ unanswered
            = count_if (fun c => CallWrapped.c_outgoing c
                                 && bool_decide (CallWrapped.c_name c = X)
                                 && negb (CallWrapped.c_answered c)) calls
         /\ 5 <= attempts /\ attempts < 2 * unanswered.
Proof.
  cbv zeta.
  destruct (analyze_calls_total env pc wc ts_start ts_end ts_jun) as [r Hr].
  exists r. split; [exact Hr|].
  apply analyze_calls_fields_more in Hr as (_ & _ & _ & _ & Ha & _).
  rewrite avoiders_of_entries in Ha. injection Ha as <-.
  intros X m a Hin. apply take_In in Hin.
  unfold sorted_by_desc in Hin. apply sorted_In in Hin.
  apply omap_In in Hin as ([k [a0 b0]] & Hkv & Hg). cbn [fst snd] in Hg.
  destruct ((5 <=? a0) && (a0 <? 2 * (a0 - b0))) eqn:E; [|discriminate].
  injection Hg as -> <- ->.
  apply andb_true_iff in E as [E1 E2]. zbool.
  apply unanswered_to_In in Hkv as (_ & Ha & Hb).
  split; [exact Ha|]. split; [|lia].
  rewrite Ha at 1. rewrite Hb. apply count_if_minus.
Qed.

(** ** Callback times *)

Section Callbacks.
Import CallWrapped.

Lemma callback_latency_range (calls : list Call) (c : Call) (q : Q) :
  callback_latency calls c = Some q -> (0 < q)%Q /\ (q < inject_Z 1440)%Q.
Proof.
  unfold callback_latency. destruct (missed_inbound c); [|discriminate].
  destruct (earliest_return calls c) as [m|] eqn:E; [|discriminate].
  destruct (m - c_timestamp c <? 86400) eqn:E2; [|discriminate].
  intros [= <-].
  apply earliest_return_least in E as ((e & _ & Hr & Hm) & _).
  unfold returns in Hr. apply andb_true_iff in Hr as [_ Hr]. split.
  - apply to_float_sign. apply Qlt_shift_div_l; [reflexivity|].
    rewrite Qmult_0_l. change 0%Q with (inject_Z 0).
    rewrite <- Zlt_Qlt. zbool.
  - apply Qlt_bool_iff. now rewrite within_day.
Qed.

(** A call has a callback latency when it is a missed inbound call whose
    earliest return comes within 24 hours. *)
Lemma callback_latency_Some (calls : list Call) (c : Call) :
  is_Some (callback_latency calls c)
  <-> missed_inbound c = true
      /\ exists m, earliest_return calls c = Some m
                   /\ m - c_timestamp c < 86400.
Proof.
  unfold callback_latency. destruct (missed_inbound c).
  - destruct (earliest_return calls c) as [m|].
    + destruct (m - c_timestamp c <? 86400) eqn:E; zbool.
      * split; [intros _; split; [reflexivity|eauto] | intros _; eauto].
      * split; [intros [q [=]] | intros (_ & m' & [= <-] & H); lia].
    + split; [intros [q [=]] | intros (_ & m' & [=] & _)].
  - split; [intros [q [=]] | intros [[=] _]].
Qed.

End Callbacks.

(** X10. Every callback time that enters the average is a float more
    than 0 and less than 1440 minutes, and there is one for each missed
    inbound call whose earliest return comes less than 24 hours later.
    The reported average is [None] exactly when no missed inbound call
    was returned within 24 hours. *)
Theorem callback_times_within_day (env : Env) (pc wc : list CallWrapped.Call)
    (ts_start ts_end ts_jun : Z) :
  let calls := CallWrapped.all_calls pc wc in
  let returned_in_time c :=
    CallWrapped.missed_inbound c = true
    /\ exists m, earliest_return calls c = Some m
                 /\ m - CallWrapped.c_timestamp c < 86400 in
  exists (r : CallWrapped.Report) (times : list Q),
    CallWrapped.analyze_calls env pc wc ts_start ts_end ts_jun = Ok r
    /\ CallWrapped.callback_times calls = Ok times
    /\ (forall q, In q times -> (0 < q)%Q /\ (q < inject_Z 1440)%Q)
    /\ (forall q, In q times <->
          exists c, In c calls /\ returned_in_time c
                    /\ callback_latency calls c = Some q)
    /\ (CallWrapped.avg_callback_time r = None
        <-> ~ exists c, In c calls /\ returned_in_time c).
Proof.
  intros calls returned_in_time.
  destruct (analyze_calls_total env pc wc ts_start ts_end ts_jun) as [r Hr].
  pose proof Hr as Hf.
  apply analyze_calls_fields in Hf as (cs & times & _ & Ht & Havg & _).
  fold calls in Ht. exists r, times. split; [exact Hr|]. split; [exact Ht|].
  rewrite callback_times_latencies in Ht. injection Ht as Ht.
  assert (Hin : forall q, In q times <->
                  exists c, In c calls /\ returned_in_time c
                            /\ callback_latency calls c = Some q).
  { intros q. rewrite <- Ht, omap_In. split.
    - intros (c & Hc & Hq). exists c. split; [exact Hc|].
      split; [|exact Hq]. apply callback_latency_Some. eauto.
    - intros (c & Hc & _ & Hq). eauto. }
  split; [|split; [exact Hin|]].
  - intros q Hq. apply Hin in Hq as (c & _ & _ & Hq).
    now apply callback_latency_range in Hq.
  - unfold CallWrapped.avg_callback_time_of in Havg.
    destruct times as [|q0 l].
    + injection Havg as <-. split; [|reflexivity].
      intros _ (c & Hc & Hret).
      destruct (proj2 (callback_latency_Some calls c) Hret) as [q Hq].
      destruct (proj2 (Hin q)). exists c. auto.
    + rewrite float_div_int_ok in Havg by (cbn [length]; lia).
      cbn [bind] in Havg. injection Havg as <-.
      split; [discriminate|]. intros Hno. exfalso. apply Hno.
      destruct (proj1 (Hin q0) ltac:(now left)) as (c & Hc & Hret & _).
      eauto.
Qed.

(** ** Streaks of consecutive days *)

Section Runs.
Variable D : Z -> Prop.

Lemma streak_scan_ge (l : list Z) : forall prev cur mx : Z,
  mx <= CallWrapped.streak_scan prev cur mx l.
Proof.
  induction l as [|d2 l IH]; intros prev cur mx; cbn [CallWrapped.streak_scan];
    [lia|].
  destruct (d2 - prev =? 1).
  - specialize (IH d2 (cur + 1) (Z.max mx (cur + 1))). lia.
  - apply IH.
Qed.

(** The scan returns the length of a run of days of the list. *)
Lemma streak_scan_sound (l : list Z) : forall prev cur mx : Z,
  (forall x, In x l -> D x) ->
  (exists d, run_of_days D d mx) ->
  run_of_days D (prev - cur + 1) cur ->
  exists d, run_of_days D d (CallWrapped.streak_scan prev cur mx l).
Proof.
  induction l as [|d2 l IH]; intros prev cur mx Hl Hmx Hcur;
    cbn [CallWrapped.streak_scan]; [exact Hmx|].
  assert (Hl' : forall x, In x l -> D x) by (intros x Hx; apply Hl; now right).
  assert (Hd2 : D d2) by (apply Hl; now left).
  destruct (d2 - prev =? 1) eqn:E.
  - assert (Hnew : run_of_days D (d2 - (cur + 1) + 1) (cur + 1)).
    { intros i Hi. destruct (Z.eq_dec i cur) as [->|Hne].
      - replace (d2 - (cur + 1) + 1 + cur) with d2 by lia. exact Hd2.
      - replace (d2 - (cur + 1) + 1 + i) with (prev - cur + 1 + i) by zbool.
        apply Hcur. lia. }
    apply IH; [exact Hl'| |exact Hnew].
    destruct (Z.max_spec mx (cur + 1)) as [[_ ->]|[_ ->]]; [|exact Hmx].
    eexists. exact Hnew.
  - apply IH; [exact Hl'|exact Hmx|].
    intros i Hi. replace (d2 - 1 + 1 + i) with d2 by lia. exact Hd2.
Qed.

(** No run of days of the list is longer than what the scan returns. *)
Lemma streak_scan_complete (l : list Z) : forall prev cur mx : Z,
  StronglySorted Z.lt (prev :: l) ->
  1 <= cur <= mx ->
  (forall x, D x -> prev < x -> In x l) ->
  (forall d k, run_of_days D d k -> d + k - 1 <= prev -> k <= mx) ->
  (forall d k, run_of_days D d k -> d + k - 1 = prev -> k <= cur) ->
  forall d k, run_of_days D d k ->
              k <= CallWrapped.streak_scan prev cur mx l.
Proof.
  induction l as [|d2 l IH]; intros prev cur mx Hs Hc Hin I1 I2 d k Hrun;
    cbn [CallWrapped.streak_scan].
  - destruct (Z_le_gt_dec k 0) as [Hk|Hk]; [lia|].
    apply (I1 d k Hrun).
    destruct (Z_le_gt_dec (d + k - 1) prev) as [Hle|Hgt]; [exact Hle|].
    exfalso. apply (Hin (d + k - 1)); [|lia].
    replace (d + k - 1) with (d + (k - 1)) by lia. apply Hrun. lia.
  - inversion Hs as [|? ? Hs' Hall]; subst.
    inversion Hs' as [|? ? _ Hall']; subst.
    rewrite List.Forall_forall in Hall, Hall'.
    assert (Hlt : prev < d2) by (apply Hall; now left).
    assert (Hin' : forall x, D x -> d2 < x -> In x l).
    { intros x Hx Hx'. destruct (Hin x Hx) as [<-|Hxl]; [lia|lia|exact Hxl]. }
    assert (Hlast : forall d0 k0, run_of_days D d0 k0 -> 0 < k0 ->
                      prev < d0 + k0 - 1 <= d2 -> d0 + k0 - 1 = d2).
    { intros d0 k0 Hr Hk0 Hb.
      assert (Hd : D (d0 + (k0 - 1))) by (apply Hr; lia).
      destruct (Hin _ Hd) as [Hx|Hxl]; [lia|lia|].
      specialize (Hall' _ Hxl). lia. }
    destruct (d2 - prev =? 1) eqn:E.
    + assert (I2' : forall d0 k0, run_of_days D d0 k0 ->
                      d0 + k0 - 1 = d2 -> k0 <= cur + 1).
      { intros d0 k0 Hr He.
        destruct (Z_le_gt_dec k0 1) as [Hk|Hk]; [lia|].
        enough (k0 - 1 <= cur) by lia.
        apply (I2 d0); [|zbool]. intros i Hi. apply Hr. lia. }
      refine (IH d2 (cur + 1) (Z.max mx (cur + 1)) Hs' _ Hin' _ I2' d k Hrun);
        [lia|].
      intros d0 k0 Hr Hle.
      destruct (Z_le_gt_dec k0 0) as [Hk|Hk]; [lia|].
      destruct (Z_le_gt_dec (d0 + k0 - 1) prev) as [Hp|Hp].
      * specialize (I1 d0 k0 Hr Hp). lia.
      * specialize (I2' d0 k0 Hr (Hlast d0 k0 Hr ltac:(lia) ltac:(lia))). lia.
    + assert (I2' : forall d0 k0, run_of_days D d0 k0 ->
                      d0 + k0 - 1 = d2 -> k0 <= 1).
      { intros d0 k0 Hr He.
        destruct (Z_le_gt_dec k0 1) as [Hk|Hk]; [lia|]. exfalso.
        assert (Hd : D (d0 + (k0 - 2))) by (apply Hr; lia).
        destruct (Hin _ Hd) as [Hx|Hxl]; [zbool|lia|].
        specialize (Hall' _ Hxl). lia. }
      refine (IH d2 1 mx Hs' _ Hin' _ I2' d k Hrun); [lia|].
      intros d0 k0 Hr Hle.
      destruct (Z_le_gt_dec k0 0) as [Hk|Hk]; [lia|].
      destruct (Z_le_gt_dec (d0 + k0 - 1) prev) as [Hp|Hp].
      * exact (I1 d0 k0 Hr Hp).
      * specialize (I2' d0 k0 Hr (Hlast d0 k0 Hr ltac:(lia) ltac:(lia))). lia.
Qed.

End Runs.

Section Streaks.
Import CallWrapped.

Lemma distinct_In (x : Z) (l : list Z) : In x (distinct l) <-> In x l.
Proof.
  induction l as [|y l IH]; [reflexivity|]. cbn [distinct].
  destruct (bool_decide (y ∈ l)) eqn:E.
  - apply bool_decide_eq_true in E. apply list_elem_of_In in E.
    rewrite IH. split; [now right|]. now intros [<-|H].
  - simpl. now rewrite IH.
Qed.

Lemma distinct_NoDup (l : list Z) : List.NoDup (distinct l).
Proof.
  induction l as [|y l IH]; [constructor|]. cbn [distinct].
  destruct (bool_decide (y ∈ l)) eqn:E; [exact IH|].
  apply bool_decide_eq_false in E. constructor; [|exact IH].
  rewrite distinct_In. intros H. apply E. now apply list_elem_of_In.
Qed.

Lemma sorted_distinct_lt (l : list Z) :
  StronglySorted Z.lt (sorted_by id (distinct l)).
Proof.
  pose proof (sorted_by_strongly id (distinct l)) as Hs.
  assert (Hn : List.NoDup (sorted_by id (distinct l))).
  { apply (Permutation_NoDup (l := distinct l)); [|apply distinct_NoDup].
    symmetry. apply sorted_perm. }
  induction Hs as [|x m Hs IH Hx]; [constructor|].
  inversion Hn as [|? ? Hnin Hn']; subst.
  constructor; [now apply IH|].
  rewrite List.Forall_forall in *. intros y Hy.
  specialize (Hx y Hy). unfold id in Hx.
  assert (x <> y) by (intros ->; contradiction). lia.
Qed.

Lemma person_dates_In (env : Env) (calls : list Call) (X : string) (d : Z) :
  In d (sorted_by id
          (distinct
             (map (fun c => date env (c_timestamp c))
                (List.filter (fun c => bool_decide (c_name c = X)) calls))))
  <-> called_on env calls X d.
Proof.
  unfold sorted_by. rewrite sorted_In, distinct_In, in_map_iff.
  unfold called_on. split.
  - intros (c & Hd & Hc). apply filter_In in Hc as [Hc Hn].
    apply bool_decide_eq_true in Hn. eauto.
  - intros (c & Hc & Hn & Hd). exists c. split; [exact Hd|].
    apply filter_In. split; [exact Hc|]. now apply bool_decide_eq_true.
Qed.

(** A recorded streak is the length of the longest run of consecutive
    days with a call under the name; no streak is recorded when no run
    reaches 3 days. *)
Lemma person_streak_spec (env : Env) (calls : list Call) (X : string) :
  match person_streak env calls X with
  | Some n =>
      3 <= n
      /\ (exists d, run_of_days (called_on env calls X) d n)
      /\ (forall d k, run_of_days (called_on env calls X) d k -> k <= n)
  | None => forall d k, run_of_days (called_on env calls X) d k -> k < 3
  end.
Proof.
  unfold person_streak.
  pose proof (person_dates_In env calls X) as HD.
  pose proof (sorted_distinct_lt
                (map (fun c => date env (c_timestamp c))
                   (List.filter (fun c => bool_decide (c_name c = X)) calls)))
    as Hs.
  destruct (sorted_by id _) as [|d1 [|d2 r]].
  - intros d k Hrun. destruct (Z_le_gt_dec k 0) as [Hk|Hk]; [lia|].
    exfalso. apply (HD (d + 0)). apply Hrun. lia.
  - intros d k Hrun. destruct (Z_le_gt_dec k 1) as [Hk|Hk]; [lia|].
    exfalso.
    assert (H0 : In (d + 0) [d1]) by (apply HD, Hrun; lia).
    assert (H1 : In (d + 1) [d1]) by (apply HD, Hrun; lia).
    destruct H0 as [H0|[]], H1 as [H1|[]]. lia.
  - set (l := d2 :: r) in *.
    assert (Hge : forall x, called_on env calls X x -> d1 <= x).
    { intros x Hx. apply HD in Hx as [<-|Hx]; [lia|].
      inversion Hs as [|? ? _ Hall]; subst.
      rewrite List.Forall_forall in Hall. specialize (Hall x Hx). lia. }
    assert (Hone : forall d k, run_of_days (called_on env calls X) d k ->
                     d + k - 1 <= d1 -> k <= 1).
    { intros d k Hrun Hle. destruct (Z_le_gt_dec k 1) as [Hk|Hk]; [lia|].
      assert (called_on env calls X (d + 0)) as H0 by (apply Hrun; lia).
      apply Hge in H0. lia. }
    assert (Hsound : exists d, run_of_days (called_on env calls X) d
                                 (streak_scan d1 1 1 l)).
    { apply streak_scan_sound.
      - intros x Hx. apply HD. now right.
      - exists d1. intros i Hi. replace (d1 + i) with d1 by lia.
        apply HD. now left.
      - intros i Hi. replace (d1 - 1 + 1 + i) with d1 by lia.
        apply HD. now left. }
    assert (Hcomplete : forall d k,
              run_of_days (called_on env calls X) d k ->
              k <= streak_scan d1 1 1 l).
    { apply streak_scan_complete; [exact Hs|lia| |exact Hone|].
      - intros x Hx Hlt. apply HD in Hx as [Hx|Hx]; [lia|exact Hx].
      - intros d k Hrun He. apply (Hone d k Hrun). lia. }
    cbv zeta. destruct (3 <=? streak_scan d1 1 1 l) eqn:E.
    + split; [zbool|]. split; [exact Hsound|exact Hcomplete].
    + intros d k Hrun. specialize (Hcomplete d k Hrun). zbool.
Qed.

Lemma dict_set_get (k k' : string) (v : Z) (d : dict string Z) :
  dict_get k' (dict_set k v d)
  = if decide (k = k') then Some v else dict_get k' d.
Proof. unfold dict_set. now rewrite dict_get_update. Qed.

Lemma streaks_of_step (env : Env) (calls : list Call) (acc : dict string Z)
    (names : list string) (n : string) :
  foldl (fun streaks name =>
           let person_dates :=
             sorted_by id
               (distinct
                  (map (fun c => date env (c_timestamp c))
                     (List.filter
                        (fun c => bool_decide (c_name c = name)) calls))) in
           match person_dates with
           | d1 :: ((_ :: _) as r) =>
               let max_streak := streak_scan d1 1 1 r in
               if 3 <=? max_streak then dict_set name max_streak streaks
               else streaks
           | _ => streaks
           end) acc (n :: names)
  = foldl (fun streaks name =>
           let person_dates :=
             sorted_by id
               (distinct
                  (map (fun c => date env (c_timestamp c))
                     (List.filter
                        (fun c => bool_decide (c_name c = name)) calls))) in
           match person_dates with
           | d1 :: ((_ :: _) as r) =>
               let max_streak := streak_scan d1 1 1 r in
               if 3 <=? max_streak then dict_set name max_streak streaks
               else streaks
           | _ => streaks
           end)
      (match person_streak env calls n with
       | Some v => dict_set n v acc
       | None => acc
       end) names.
Proof.
  cbn [foldl]. f_equal. unfold person_streak. cbv zeta.
  destruct (sorted_by id _) as [|d1 [|d2 r]]; try reflexivity.
  now destruct (3 <=? _).
Qed.

(** What the loop of lines 567-585 leaves under a name. *)
Lemma streaks_of_get (env : Env) (calls : list Call) (X : string)
    (names : list string) : forall acc : dict string Z,
  dict_get X
    (foldl (fun streaks name =>
           let person_dates :=
             sorted_by id
               (distinct
                  (map (fun c => date env (c_timestamp c))
                     (List.filter
                        (fun c => bool_decide (c_name c = name)) calls))) in
           match person_dates with
           | d1 :: ((_ :: _) as r) =>
               let max_streak := streak_scan d1 1 1 r in
               if 3 <=? max_streak then dict_set name max_streak streaks
               else streaks
           | _ => streaks
           end) acc names)
  = match person_streak env calls X with
    | Some v => if bool_decide (X ∈ names) then Some v else dict_get X acc
    | None => dict_get X acc
    end.
Proof.
  induction names as [|n names IH]; intros acc.
  - cbn [foldl]. now destruct (person_streak env calls X).
  - rewrite streaks_of_step, IH.
    destruct (decide (n = X)) as [->|Hne].
    + rewrite (bool_decide_eq_true_2 (X ∈ X :: names)) by constructor.
      destruct (person_streak env calls X) as [v|]; [|reflexivity].
      rewrite dict_set_get. destruct (decide (X = X)); [|congruence].
      now destruct (bool_decide (X ∈ names)).
    + assert (Hget : dict_get X (match person_streak env calls n with
                                 | Some v => dict_set n v acc
                                 | None => acc
                                 end) = dict_get X acc).
      { destruct (person_streak env calls n); [|reflexivity].
        rewrite dict_set_get. now destruct (decide (n = X)). }
      rewrite Hget.
      destruct (person_streak env calls X) as [v|]; [|reflexivity].
      destruct (bool_decide (X ∈ names)) eqn:E.
      * apply bool_decide_eq_true in E.
        rewrite (bool_decide_eq_true_2 (X ∈ n :: names)); [reflexivity|].
        now constructor.
      * apply bool_decide_eq_false in E.
        rewrite (bool_decide_eq_false_2 (X ∈ n :: names)); [reflexivity|].
        intros H. apply elem_of_cons in H as [H|H]; congruence.
Qed.

Lemma streaks_of_NoDup (env : Env) (calls : list Call) (names : list string) :
  List.NoDup (map fst (streaks_of env names calls)).
Proof.
  unfold streaks_of.
  assert (H : List.NoDup (map fst (@nil (string * Z)))) by constructor.
  revert H. generalize (@nil (string * Z)).
  induction names as [|n names IH]; intros acc Hacc; [exact Hacc|].
  rewrite streaks_of_step. apply IH.
  destruct (person_streak env calls n); [|exact Hacc].
  now apply dict_update_NoDup.
Qed.

(** The entries of [streaks]. *)
Lemma streaks_of_In (env : Env) (calls : list Call) (names : list string)
    (X : string) (n : Z) :
  In (X, n) (streaks_of env names calls)
  <-> In X names /\ person_streak env calls X = Some n.
Proof.
  rewrite dict_get_In by apply streaks_of_NoDup.
  unfold streaks_of. rewrite streaks_of_get. cbn [dict_get].
  destruct (person_streak env calls X) as [v|].
  - destruct (bool_decide (X ∈ names)) eqn:E.
    + apply bool_decide_eq_true in E. apply list_elem_of_In in E.
      tauto.
    + apply bool_decide_eq_false in E. rewrite list_elem_of_In in E.
      split; [discriminate|tauto].
  - split; [discriminate|]. now intros [_ H].
Qed.

End Streaks.

(** X11. The longest streak of the report names a published contact and
    the length of its longest run of consecutive local days with a call
    under that name; the length is 3 or more, and no published contact
    has a longer run. The field is [None] exactly when no published
    contact has a run of 3 days. *)
Theorem longest_streak_consecutive_days (env : Env)
    (pc wc : list CallWrapped.Call) (ts_start ts_end ts_jun : Z) :
  let calls := CallWrapped.all_calls pc wc in
  exists (r : CallWrapped.Report)
         (cs : dict string CallWrapped.ContactStats),
    CallWrapped.analyze_calls env pc wc ts_start ts_end ts_jun = Ok r
    /\ CallWrapped.contact_stats env (CallWrapped.phone_stats calls) = Ok cs
    /\ (forall X n, CallWrapped.longest_streak r = Some (X, n) ->
          In X (map fst cs) /\ 3 <= n
          /\ (exists d, run_of_days (called_on env calls X) d n)
          /\ forall Y d k, In Y (map fst cs) ->
               run_of_days (called_on env calls Y) d k -> k <= n)
    /\ (CallWrapped.longest_streak r = None
        <-> forall Y d, In Y (map fst cs) ->
              ~ run_of_days (called_on env calls Y) d 3).
Proof.
  intros calls.
  destruct (analyze_calls_total env pc wc ts_start ts_end ts_jun) as [r Hr].
  pose proof Hr as Hf.
  apply analyze_calls_fields_more in Hf as (cs & Hcs & _ & _ & _ & Hls & _).
  fold calls in Hcs, Hls. exists r, cs.
  split; [exact Hr|]. split; [exact Hcs|].
  unfold CallWrapped.longest_streak_of in Hls.
  pose proof (streaks_of_In env calls (map fst cs)) as Hin.
  destruct (CallWrapped.streaks_of env (map fst cs) calls) as [|e0 es] eqn:E.
  - injection Hls as <-. split; [discriminate|].
    split; [|reflexivity]. intros _ Y d HY Hrun.
    pose proof (person_streak_spec env calls Y) as Hspec.
    destruct (person_streak env calls Y) as [v|] eqn:Ev.
    + apply (proj2 (Hin Y v)). now split.
    + specialize (Hspec d 3 Hrun). lia.
  - apply bind_ok_inv in Hls as (kv & Hmax & Hls). injection Hls as <-.
    apply max_by_spec in Hmax as [Hkv Hmax]. split.
    + intros X n [= ->]. apply Hin in Hkv as [HX Hp].
      pose proof (person_streak_spec env calls X) as Hspec.
      rewrite Hp in Hspec. destruct Hspec as (H3 & Hrun & _).
      split; [exact HX|]. split; [exact H3|]. split; [exact Hrun|].
      intros Y d k HY HrunY.
      pose proof (person_streak_spec env calls Y) as HspecY.
      destruct (person_streak env calls Y) as [v|] eqn:Ev.
      * destruct HspecY as (_ & _ & Hle). specialize (Hle d k HrunY).
        specialize (Hmax (Y, v) (proj2 (Hin Y v) (conj HY Ev))).
        cbn in Hmax. lia.
      * specialize (HspecY d k HrunY). lia.
    + split; [discriminate|]. intros Hno. exfalso.
      destruct kv as [X n]. apply Hin in Hkv as [HX Hp].
      pose proof (person_streak_spec env calls X) as Hspec.
      rewrite Hp in Hspec. destruct Hspec as (H3 & [d Hrun] & _).
      apply (Hno X d HX). intros i Hi. apply Hrun. lia.
Qed.

(** * Further properties of the normalisers and the extractors *)

Section Canonical.

Lemma any_substring (p : ascii -> bool) (s : string) : forall n m : nat,
  any p (substring n m s) = true -> any p s = true.
Proof.
  induction s as [|c s IH]; intros [|n] [|m]; simpl; try discriminate.
  - intros H. apply orb_true_iff in H as [H|H]; apply orb_true_iff;
      [now left | right; now apply (IH 0%nat m)].
  - intros H. apply orb_true_iff. right. now apply (IH n 0%nat).
  - intros H. apply orb_true_iff. right. now apply (IH n (S m)).
Qed.

Lemma all_digits_slice (lo hi : option Z) (s : string) :
  all_digits s = true -> all_digits (slice lo hi s) = true.
Proof.
  unfold all_digits, slice. cbv zeta. intros H.
  destruct (_ <? _); [|reflexivity].
  apply negb_true_iff. apply negb_true_iff in H.
  destruct (any _ (substring _ _ s)) eqn:E; [|reflexivity].
  apply any_substring in E. congruence.
Qed.

Lemma all_digits_digits_of (s : string) : all_digits (digits_of s) = true.
Proof.
  unfold all_digits. apply negb_true_iff.
  induction s as [|c s IH]; simpl; [reflexivity|].
  destruct (is_digit c) eqn:E; [|exact IH]. simpl. now rewrite E, IH.
Qed.

Lemma digits_of_all_digits (s : string) :
  all_digits s = true -> digits_of s = s.
Proof.
  unfold all_digits. intros H. apply negb_true_iff in H.
  induction s as [|c s IH]; simpl in *; [reflexivity|].
  apply orb_false_iff in H as [Hc Hs]. apply negb_false_iff in Hc.
  now rewrite Hc, IH.
Qed.

Lemma truthy_len (s : string) : truthy (Some s) = (0 <? len s).
Proof. destruct s; [reflexivity|]. unfold len. simpl. symmetry. zbool. Qed.

(** What [normalize_phone] of [call_wrapped.py] returns is a string of
    7 to 10 digits. *)
Lemma call_normalize_phone_shape (phone : option string) (d : string) :
  CallWrapped.normalize_phone phone = Some d ->
  all_digits d = true /\ 7 <= len d <= 10.
Proof.
  destruct (truthy phone) eqn:Ht.
  - destruct phone as [p|]; [|discriminate].
    rewrite (call_normalize_phone_cases p Ht). cbv zeta.
    pose proof (all_digits_digits_of p) as Hd.
    destruct (10 <=? len (digits_of p)) eqn:E.
    + intros [= <-]. split; [now apply all_digits_slice|].
      assert (len (slice (Some (-10)) None (digits_of p)) = 10)
        by (apply (len_slice_last 10); zbool). lia.
    + destruct (7 <=? len (digits_of p)) eqn:E'; [|discriminate].
      intros [= <-]. split; [exact Hd|]. zbool.
  - destruct (normalize_phone_falsy phone Ht) as [-> _]. discriminate.
Qed.

End Canonical.

(** X12. A phone number normalised by [call_wrapped.py] is a string of
    7 to 10 decimal digits, normalising it again changes nothing, and it
    is the key under which the engine aggregates every call that
    carries it. *)
Theorem normalized_phone_is_key (phone : option string) (d : string) :
  CallWrapped.normalize_phone phone = Some d ->
  all_digits d = true
  /\ 7 <= len d <= 10
  /\ CallWrapped.normalize_phone (Some d) = Some d
  /\ forall c : CallWrapped.Call,
       CallWrapped.c_phone c = Some d -> CallWrapped.phone_key c = d.
Proof.
  intros H. apply call_normalize_phone_shape in H as [Hd Hl].
  split; [exact Hd|]. split; [exact Hl|].
  assert (Ht : truthy (Some d) = true) by (rewrite truthy_len; zbool).
  assert (Hs : slice (Some (-10)) None d = d)
    by (apply (slice_last_short 10); lia).
  split.
  - rewrite (call_normalize_phone_cases d Ht). cbv zeta.
    rewrite (digits_of_all_digits d Hd), Hs.
    destruct (10 <=? len d); [reflexivity|].
    destruct (7 <=? len d) eqn:E; [reflexivity|zbool].
  - intros c Hc. unfold CallWrapped.phone_key. rewrite Hc, Ht.
    change (str (Some d)) with d. cbv zeta.
    rewrite (digits_of_all_digits d Hd), Hs.
    destruct (7 <=? len d) eqn:E; [|zbool].
    now rewrite Ht.
Qed.

Lemma normalized_phone_is_key_witness :
  CallWrapped.normalize_phone (Some "+1 (415) 555-0100") = Some "4155550100"
  /\ CallWrapped.phone_key sam_missed = "4155550100".
Proof.
  split; [reflexivity|].
  apply (normalized_phone_is_key (Some "+1 (415) 555-0100") "4155550100");
    reflexivity.
Defined.

(** ** The calls the extractors hand to the engine *)

Section Extractors.
Import CallWrapped.

(** A name returned by [get_name] is a value of the directory. *)
Lemma get_name_from_directory (phone : option string)
    (contacts : gmap string string) (n : string) :
  get_name phone contacts = Some n -> exists k, contacts !! k = Some n.
Proof.
  unfold get_name, tier, orelse. cbv zeta.
  destruct (negb (truthy phone)); [discriminate|].
  destruct (_ && _); [discriminate|].
  destruct (_ && _); [discriminate|].
  destruct (contacts !! digits_of (str phone)) eqn:E1;
    [intros [= <-]; eauto|].
  destruct (_ && _).
  - destruct (contacts !! slice (Some 1) None _) eqn:E2;
      [intros [= <-]; eauto|].
    destruct (10 <=? _).
    + destruct (contacts !! slice (Some (-10)) None _) eqn:E3;
        [intros [= <-]; eauto|].
      destruct (7 <=? _); [eauto|discriminate].
    + destruct (7 <=? _); [eauto|discriminate].
  - destruct (10 <=? _).
    + destruct (contacts !! slice (Some (-10)) None _) eqn:E3;
        [intros [= <-]; eauto|].
      destruct (7 <=? _); [eauto|discriminate].
    + destruct (7 <=? _); [eauto|discriminate].
Qed.

Lemma truthy_nonempty (o : option string) :
  truthy o = true -> exists s, o = Some s /\ s <> "".
Proof.
  destruct o as [[|c s]|]; try discriminate. intros _. eexists.
  split; [reflexivity|discriminate].
Qed.

Lemma flat_map_length_le {A B : Type} (f : A -> list B) (l : list A) :
  (forall x, length (f x) <= 1)%nat ->
  (length (flat_map f l) <= length l)%nat.
Proof.
  intros Hf. induction l as [|x l IH]; simpl; [lia|].
  rewrite length_app. specialize (Hf x). lia.
Qed.

Lemma phone_call_shape (rows : list PhoneRow)
    (contacts : gmap string string) (c : Call) :
  In c (analyze_phone_calls rows contacts) ->
  exists row,
    In row rows
    /\ c_name c <> ""
    /\ get_name (ZADDRESS row) contacts = Some (c_name c)
    /\ c_phone c = normalize_phone (ZADDRESS row)
    /\ c_timestamp c = ZDATE row + MAC_EPOCH
    /\ (c_platform c = "Phone" \/ c_platform c = "FaceTime")
    /\ (c_is_video c = true -> c_platform c = "FaceTime").
Proof.
  unfold analyze_phone_calls. rewrite in_flat_map.
  intros (row & Hrow & Hin). cbv zeta in Hin. exists row.
  destruct (truthy (get_name (ZADDRESS row) contacts)) eqn:Ht;
    [|destruct Hin].
  apply truthy_nonempty in Ht as (s & Hs & Hne). rewrite Hs in Hin.
  destruct Hin as [<-|[]]. cbn.
  repeat match goal with |- _ /\ _ => split end; auto.
  - destruct (_ || _); auto.
  - destruct (_ || _); [auto|discriminate].
Qed.

Lemma whatsapp_call_named (rows : list WhatsAppRow)
    (wa_contacts contacts : gmap string string) (c : Call) :
  In c (analyze_whatsapp_calls rows wa_contacts contacts) ->
  c_name c <> ""
  /\ ((exists k, wa_contacts !! k = Some (c_name c))
      \/ exists k, contacts !! k = Some (c_name c))
  /\ c_is_video c = false.
Proof.
  unfold analyze_whatsapp_calls. rewrite in_flat_map.
  intros (row & _ & Hin). cbv zeta in Hin.
  match type of Hin with
  | In _ (if negb (truthy ?n) then _ else _) =>
      destruct (truthy n) eqn:Ht; [|destruct Hin]
  end.
  apply truthy_nonempty in Ht as (s & Hs & Hne). rewrite Hs in Hin.
  destruct Hin as [<-|[]]. cbn.
  split; [exact Hne|]. split; [|reflexivity].
  destruct (W_ZJIDSTRING row) as [j|]; cbn in Hs.
  - destruct (negb (truthy (wa_contacts !! j)) && _).
    + right. now apply get_name_from_directory in Hs.
    + left. eauto.
  - discriminate Hs.
Qed.

End Extractors.

(** X13. The extractors hand the engine only resolved calls: at most one
    call per row, each under a non-empty name taken from a directory.
    A phone call carries the name [get_name] gives for its row's
    address, the normalised address, the row's date moved to the Unix
    epoch, and the platform [Phone] or [FaceTime]; only FaceTime calls
    are video calls. A WhatsApp call is named from the push names or
    from the address book and is never a video call. *)
Theorem extracted_calls_resolved (rows : list CallWrapped.PhoneRow)
    (wrows : list CallWrapped.WhatsAppRow)
    (contacts wa_contacts : gmap string string) :
  (length (CallWrapped.analyze_phone_calls rows contacts)
   <= length rows)%nat
  /\ (length (CallWrapped.analyze_whatsapp_calls wrows wa_contacts contacts)
      <= length wrows)%nat
  /\ (forall c, In c (CallWrapped.analyze_phone_calls rows contacts) ->
        exists row,
          In row rows
          /\ CallWrapped.c_name c <> ""
          /\ CallWrapped.get_name (CallWrapped.ZADDRESS row) contacts
             = Some (CallWrapped.c_name c)
          /\ CallWrapped.c_phone c
             = CallWrapped.normalize_phone (CallWrapped.ZADDRESS row)
          /\ CallWrapped.c_timestamp c
             = CallWrapped.ZDATE row + CallWrapped.MAC_EPOCH
          /\ (CallWrapped.c_platform c = "Phone"
              \/ CallWrapped.c_platform c = "FaceTime")
          /\ (CallWrapped.c_is_video c = true
              -> CallWrapped.c_platform c = "FaceTime"))
  /\ (forall c, In c (CallWrapped.analyze_phone_calls rows contacts) ->
        exists k, contacts !! k = Some (CallWrapped.c_name c))
  /\ (forall c,
        In c (CallWrapped.analyze_whatsapp_calls wrows wa_contacts contacts) ->
        CallWrapped.c_name c <> ""
        /\ ((exists k, wa_contacts !! k = Some (CallWrapped.c_name c))
            \/ exists k, contacts !! k = Some (CallWrapped.c_name c))
        /\ CallWrapped.c_is_video c = false).
Proof.
  split; [|split; [|split; [|split]]].
  - apply flat_map_length_le. intros row. cbv zeta.
    destruct (negb _); simpl; lia.
  - apply flat_map_length_le. intros row. cbv zeta.
    destruct (negb _); simpl; lia.
  - apply phone_call_shape.
  - intros c Hc. apply phone_call_shape in Hc as (row & _ & _ & Hn & _).
    now apply get_name_from_directory in Hn.
  - apply whatsapp_call_named.
Qed.

(** * Properties of the merge of [combined_wrapped.py] *)

Section Merge.
Import CombinedWrapped.

Lemma dict_set_get_any {K V : Type} `{EqDecision K} (k k' : K) (v : V)
    (d : dict K V) :
  dict_get k' (dict_set k v d)
  = if decide (k = k') then Some v else dict_get k' d.
Proof. unfold dict_set. now rewrite dict_get_update. Qed.

(** An entry that does not beat the kept one leaves the state as it
    is. *)
Lemma name_counts_keep (seen : list TopEntry) (d : dict string TopEntry)
    (e kept : TopEntry) :
  name_counts_inv seen d ->
  dict_get (t_name e) d = Some kept -> t_total e <= t_total kept ->
  name_counts_inv (seen ++ [e]) d.
Proof.
  intros (Hnd & Hkept & Hall) Hk Hle.
  split; [exact Hnd|]. split.
  - intros k x Hx. destruct (Hkept k x Hx) as (H1 & H2 & H3).
    split; [exact H1|]. split; [apply in_or_app; now left|].
    intros e' He' Hn. apply in_app_or in He' as [He'|[<-|[]]];
      [now apply H3|].
    rewrite Hn in Hk. rewrite Hk in Hx. injection Hx as <-. lia.
  - intros e' He'. apply in_app_or in He' as [He'|[<-|[]]];
      [now apply Hall | eauto].
Qed.

(** An entry with a new name, or with a higher total than the kept one,
    takes the place under its name. *)
Lemma name_counts_replace (seen : list TopEntry) (d : dict string TopEntry)
    (e : TopEntry) :
  name_counts_inv seen d ->
  (forall kept, dict_get (t_name e) d = Some kept ->
                t_total kept < t_total e) ->
  name_counts_inv (seen ++ [e]) (dict_set (t_name e) e d).
Proof.
  intros (Hnd & Hkept & Hall) Hlt.
  split; [now apply dict_update_NoDup|]. split.
  - intros k x. rewrite dict_set_get_any.
    destruct (decide (t_name e = k)) as [<-|Hne].
    + intros [= <-]. split; [reflexivity|].
      split; [apply in_or_app; right; now left|].
      intros e' He' Hn. apply in_app_or in He' as [He'|[<-|[]]]; [|lia].
      destruct (Hall e' He') as [x Hx]. rewrite Hn in Hx.
      destruct (Hkept _ _ Hx) as (_ & _ & H3).
      specialize (H3 e' He' Hn). specialize (Hlt x Hx). lia.
    + intros Hx. destruct (Hkept k x Hx) as (H1 & H2 & H3).
      split; [exact H1|]. split; [apply in_or_app; now left|].
      intros e' He' Hn. apply in_app_or in He' as [He'|[<-|[]]];
        [now apply H3 | congruence].
  - intros e' He'. rewrite dict_set_get_any.
    destruct (decide (t_name e = t_name e')); [eauto|].
    apply in_app_or in He' as [He'|[<-|[]]];
      [now apply Hall | congruence].
Qed.

Lemma name_counts_loop (l : list TopEntry) :
  forall (seen : list TopEntry) (d : dict string TopEntry),
    name_counts_inv seen d ->
    name_counts_inv (seen ++ l)
      (foldl (fun d entry =>
                match dict_get (t_name entry) d with
                | None => dict_set (t_name entry) entry d
                | Some kept =>
                    if t_total kept <? t_total entry
                    then dict_set (t_name entry) entry d else d
                end) d l).
Proof.
  induction l as [|e l IH]; intros seen d Hinv.
  - cbn [foldl]. now rewrite app_nil_r.
  - cbn [foldl].
    replace (seen ++ e :: l) with ((seen ++ [e]) ++ l)
      by (now rewrite <- app_assoc).
    apply IH. destruct (dict_get (t_name e) d) as [kept|] eqn:E.
    + destruct (t_total kept <? t_total e) eqn:E'.
      * apply name_counts_replace; [exact Hinv|].
        intros kept' Hk. rewrite E in Hk. injection Hk as <-. zbool.
      * apply (name_counts_keep seen d e kept); [exact Hinv|exact E|zbool].
    + apply name_counts_replace; [exact Hinv|].
      intros kept' Hk. congruence.
Qed.

Lemma name_counts_spec (entries : list TopEntry) :
  name_counts_inv entries (name_counts entries).
Proof.
  apply (name_counts_loop entries [] []).
  split; [constructor|]. split; [discriminate | intros e []].
Qed.

End Merge.

Section TopTen.
Import CombinedWrapped.


Lemma names_are_keys (d : dict string TopEntry) :
  (forall k x, In (k, x) d -> t_name x = k) ->
  map t_name (map snd d) = map fst d.
Proof.
  induction d as [|[k x] d IH]; intros H; [reflexivity|]. simpl.
  rewrite (H k x) by now left. f_equal. apply IH.
  intros k' x' Hin. apply H. now right.
Qed.

End TopTen.

(** X14. The merged top list has at most ten entries, one per name, in
    descending order of their totals. Each is an entry of one of the
    two platforms whose total no entry of the same name exceeds. An
    entry whose name is not in the list has a total no higher than any
    total of the list, which is full then. *)
Theorem merge_top_spec (entries : list CombinedWrapped.TopEntry) :
  let top := CombinedWrapped.merge_top entries in
  (length top <= 10)%nat
  /\ List.NoDup (map CombinedWrapped.t_name top)
  /\ StronglySorted
       (fun a b => CombinedWrapped.t_total b <= CombinedWrapped.t_total a) top
  /\ (forall x, In x top ->
        In x entries
        /\ forall e, In e entries ->
             CombinedWrapped.t_name e = CombinedWrapped.t_name x ->
             CombinedWrapped.t_total e <= CombinedWrapped.t_total x)
  /\ (forall e, In e entries ->
        (exists x, In x top
                   /\ CombinedWrapped.t_name x = CombinedWrapped.t_name e)
        \/ (length top = 10%nat
            /\ forall x, In x top ->
                 CombinedWrapped.t_total e <= CombinedWrapped.t_total x)).
Proof.
  intros top. subst top. unfold CombinedWrapped.merge_top.
  destruct (name_counts_spec entries) as (Hnd & Hkept & Hall).
  set (d := CombinedWrapped.name_counts entries) in *.
  set (key := fun x : CombinedWrapped.TopEntry => - CombinedWrapped.t_total x).
  set (s := sorted_by key (map snd d)).
  assert (Hs : StronglySorted
                 (fun a b => CombinedWrapped.t_total b
                             <= CombinedWrapped.t_total a) s).
  { pose proof (sorted_by_strongly key (map snd d)) as H. fold s in H.
    induction H as [|x m Hm IH Hx]; constructor; auto.
    rewrite List.Forall_forall in *. intros y Hy.
    specialize (Hx y Hy). unfold key in Hx. lia. }
  assert (Hin : forall x, In x s <-> exists k, dict_get k d = Some x).
  { intros x. unfold s, sorted_by. rewrite sorted_In, in_map_iff. split.
    - intros ([k x'] & Hx & Hkx). cbn in Hx. subst x'. exists k.
      now apply dict_get_In.
    - intros (k & Hk). exists (k, x). split; [reflexivity|].
      now apply dict_get_Some_In. }
  split; [rewrite length_take; lia|].
  split.
  { rewrite map_take. apply NoDup_take.
    apply (Permutation_NoDup (l := map CombinedWrapped.t_name (map snd d))).
    - apply Permutation_map. symmetry. apply sorted_perm.
    - rewrite names_are_keys; [exact Hnd|].
      intros k x Hkx. apply dict_get_In in Hkx; [|exact Hnd].
      now destruct (Hkept k x Hkx). }
  split; [now apply StronglySorted_take|].
  split.
  - intros x Hx. apply take_In, Hin in Hx as (k & Hk).
    destruct (Hkept k x Hk) as (H1 & H2 & H3).
    split; [exact H2|]. intros e He Hn. apply H3; congruence.
  - intros e He. destruct (Hall e He) as [x0 Hx0].
    destruct (Hkept _ _ Hx0) as (H1 & _ & H3).
    assert (Hx0s : In x0 s) by (apply Hin; eauto).
    rewrite <- (take_drop 10 s) in Hx0s.
    apply in_app_or in Hx0s as [Ht|Hd]; [left; eauto|].
    right. split.
    + rewrite length_take.
      assert (length (drop 10 s) <> 0)%nat
        by (destruct (drop 10 s); [destruct Hd | discriminate]).
      rewrite length_drop in *. lia.
    + intros x Hx.
      pose proof (StronglySorted_take_drop _ 10 s x x0 Hs Hx Hd) as Hle.
      cbv beta in Hle. specialize (H3 e He eq_refl). lia.
Qed.

Section Weighted.

(** Truncating a quotient that lies between two integers leaves it
    between them. *)
Lemma quot_between (n t lo hi : Z) :
  0 < t -> lo * t <= n <= hi * t -> lo <= Z.quot n t <= hi.
Proof.
  intros Ht [Hlo Hhi]. destruct (Z_le_gt_dec 0 n) as [Hn|Hn].
  - rewrite Z.quot_div_nonneg by lia. split.
    + apply Z.div_le_lower_bound; lia.
    + apply Z.div_le_upper_bound; lia.
  - replace n with (- (- n)) by lia. rewrite Z.quot_opp_l by lia.
    rewrite Z.quot_div_nonneg by lia.
    assert (- hi <= (- n) / t) by (apply Z.div_le_lower_bound; lia).
    assert ((- n) / t <= - lo) by (apply Z.div_le_upper_bound; lia).
    lia.
Qed.

End Weighted.

(** X15. With message counts that are not negative and not both zero,
    the merged response time lies between the response times of the two
    platforms, and it is the response time of one platform when the
    other has no message. A platform that is absent or has no response
    time counts as 30 minutes. *)
Theorem merge_resp_between (has_imessage has_whatsapp : bool)
    (imessage_resp whatsapp_resp : option Z) (im_weight wa_weight : Z) :
  0 <= im_weight -> 0 <= wa_weight -> 0 < im_weight + wa_weight ->
  let im_resp := if has_imessage then default 30 imessage_resp else 30 in
  let wa_resp := if has_whatsapp then default 30 whatsapp_resp else 30 in
  let resp := CombinedWrapped.merge_resp has_imessage has_whatsapp
                imessage_resp whatsapp_resp im_weight wa_weight in
  Z.min im_resp wa_resp <= resp <= Z.max im_resp wa_resp
  /\ (wa_weight = 0 -> resp = im_resp)
  /\ (im_weight = 0 -> resp = wa_resp).
Proof.
  intros Hi Hw Ht im_resp wa_resp resp. subst resp.
  unfold CombinedWrapped.merge_resp. cbv zeta. fold im_resp wa_resp.
  destruct (0 <? im_weight + wa_weight) eqn:E; [|zbool].
  assert (H1 : Z.min im_resp wa_resp * im_weight <= im_resp * im_weight)
    by (apply Z.mul_le_mono_nonneg_r; lia).
  assert (H2 : Z.min im_resp wa_resp * wa_weight <= wa_resp * wa_weight)
    by (apply Z.mul_le_mono_nonneg_r; lia).
  assert (H3 : im_resp * im_weight <= Z.max im_resp wa_resp * im_weight)
    by (apply Z.mul_le_mono_nonneg_r; lia).
  assert (H4 : wa_resp * wa_weight <= Z.max im_resp wa_resp * wa_weight)
    by (apply Z.mul_le_mono_nonneg_r; lia).
  split; [apply quot_between; lia|]. split.
  - intros ->. rewrite Z.mul_0_r, !Z.add_0_r. apply Z.quot_mul. lia.
  - intros ->. rewrite Z.mul_0_r, !Z.add_0_l. apply Z.quot_mul. lia.
Qed.

Lemma merge_resp_between_witness :
  5 <= CombinedWrapped.merge_resp true true (Some 5) (Some 20) 300 100 <= 20.
Proof.
  pose proof (merge_resp_between true true (Some 5) (Some 20) 300 100
                ltac:(lia) ltac:(lia) ltac:(lia)) as [H _].
  exact H.
Defined.

(** * Properties of the directories of [people_wrapped.py] *)

Section People.
Import PeopleWrapped.
Variable P : Z -> string -> Prop.

Lemma bind_key_paired (name : string) (owner : Z)
    (st : gmap string string * gmap string Z) (key : string) :
  P owner name -> paired P st -> paired P (bind_key name owner st key).
Proof.
  intros HP Hst k. unfold bind_key. cbn [fst snd].
  destruct (decide (key = k)) as [->|Hne].
  - right. exists owner, name. now rewrite !lookup_insert_eq.
  - rewrite !lookup_insert_ne by exact Hne. apply Hst.
Qed.

Lemma bind_keys_paired (name : string) (owner : Z) (keys : list string) :
  P owner name ->
  forall st, paired P st -> paired P (foldl (bind_key name owner) st keys).
Proof.
  intros HP. induction keys as [|k keys IH]; intros st Hst; [exact Hst|].
  cbn [foldl]. apply IH. now apply bind_key_paired.
Qed.

Lemma extract_one_paired (db : AddressBook)
    (st : gmap string string * gmap string Z) :
  (forall o n, people_of (ab_records db) !! o = Some n -> P o n) ->
  paired P st -> paired P (extract_one st db).
Proof.
  intros Hdb Hst. unfold extract_one. cbv zeta.
  set (people := people_of (ab_records db)) in *.
  assert (Hphones : forall rows st0, paired P st0 ->
            paired P
              (foldl (fun st row =>
                        match people !! row.1 with
                        | Some name =>
                            foldl (bind_key name row.1) st (phone_keys row.2)
                        | None => st
                        end) st0 rows)).
  { induction rows as [|row rows IH]; intros st0 H0; [exact H0|].
    cbn [foldl]. apply IH.
    destruct (people !! row.1) as [name|] eqn:E; [|exact H0].
    apply bind_keys_paired; [now apply Hdb | exact H0]. }
  assert (Hemails : forall rows st0, paired P st0 ->
            paired P
              (foldl (fun st row =>
                        match people !! row.1 with
                        | Some name =>
                            bind_key name row.1 st (strip (lower row.2))
                        | None => st
                        end) st0 rows)).
  { induction rows as [|row rows IH]; intros st0 H0; [exact H0|].
    cbn [foldl]. apply IH.
    destruct (people !! row.1) as [name|] eqn:E; [|exact H0].
    apply bind_key_paired; [now apply Hdb | exact H0]. }
  apply Hemails, Hphones, Hst.
Qed.

Lemma extract_paired (dbs : list AddressBook) :
  (forall db o n, In db dbs ->
                  people_of (ab_records db) !! o = Some n -> P o n) ->
  forall st, paired P st -> paired P (foldl extract_one st dbs).
Proof.
  induction dbs as [|db dbs IH]; intros Hdbs st Hst; [exact Hst|].
  cbn [foldl]. apply IH.
  - intros db' o n Hin. apply Hdbs. now right.
  - apply extract_one_paired; [|exact Hst].
    intros o n. apply Hdbs. now left.
Qed.

(** On paired directories the two resolvers stop at the same tier. *)
Lemma resolvers_paired (st : gmap string string * gmap string Z)
    (handle : string) :
  paired P st ->
  match get_record_id_for_handle handle st.2 with
  | Some owner => P owner (get_name_imessage handle st.1)
  | None =>
      get_name_imessage handle st.1
      = if contains "@" handle then before "@" handle else handle
  end.
Proof.
  intros Hst. unfold get_record_id_for_handle, get_name_imessage, tier, orelse.
  cbv zeta. destruct (contains "@" handle).
  - destruct (Hst (strip (lower handle)))
      as [[-> ->]|(o & n & -> & -> & HP)]; [reflexivity|exact HP].
  - set (d := digits_of handle).
    destruct (Hst d) as [[-> ->]|(o & n & -> & -> & HP)]; [|exact HP].
    destruct (Hst (slice (Some 1) None d))
      as [[Hc1 Hi1]|(o1 & n1 & Hc1 & Hi1 & HP1)];
    destruct (Hst (slice (Some (-10)) None d))
      as [[Hc2 Hi2]|(o2 & n2 & Hc2 & Hi2 & HP2)];
    destruct (Hst (slice (Some (-7)) None d))
      as [[Hc3 Hi3]|(o3 & n3 & Hc3 & Hi3 & HP3)];
    destruct ((len d =? 11) && startswith "1" d), (10 <=? len d),
      (7 <=? len d);
      rewrite ?Hc1, ?Hi1, ?Hc2, ?Hi2, ?Hc3, ?Hi3; cbn [default]; auto.
Qed.

End People.

(** X16. Over the directories built from the address books, the record
    id found for a handle and the name found for it go together: when an
    id is found, the name returned is the name of the record with that
    id in one of the address books; when none is found, the name falls
    back to the handle, cut at [@] for an e-mail handle. *)
Theorem record_id_matches_name (dbs : list PeopleWrapped.AddressBook)
    (handle : string) :
  let st := PeopleWrapped.extract_imessage_contacts dbs in
  match PeopleWrapped.get_record_id_for_handle handle st.2 with
  | Some owner =>
      exists db, In db dbs
        /\ PeopleWrapped.people_of (PeopleWrapped.ab_records db) !! owner
           = Some (PeopleWrapped.get_name_imessage handle st.1)
  | None =>
      PeopleWrapped.get_name_imessage handle st.1
      = if contains "@" handle then before "@" handle else handle
  end.
Proof.
  intros st.
  apply (resolvers_paired
           (fun o n => exists db, In db dbs
              /\ PeopleWrapped.people_of (PeopleWrapped.ab_records db) !! o
                 = Some n)).
  subst st. unfold PeopleWrapped.extract_imessage_contacts.
  apply extract_paired.
  - intros db o n Hin Hp. eauto.
  - intros k. left. cbn [fst snd]. now rewrite !lookup_empty.
Qed.

(** * Properties of the directory of [localbrief.py] *)

Section Loading.
Import LocalBrief.
Variable Q : string -> string -> Prop.

Lemma load_one_sound (db : ContactRows) (contacts : gmap string string) :
  (forall k n, stored_by db k n -> Q k n) ->
  (forall k n, contacts !! k = Some n -> Q k n) ->
  forall k n, load_one contacts db !! k = Some n -> Q k n.
Proof.
  intros Hdb. unfold load_one. cbv zeta.
  assert (Hphones : forall rows (m : gmap string string),
            (forall r, In r rows -> In r (lc_phones db)) ->
            (forall k n, m !! k = Some n -> Q k n) ->
            forall k n,
              foldl (fun contacts (row : string * option string) =>
                       if truthy row.2 && (7 <=? len (str row.2)) then
                         let contacts :=
                           <[slice (Some (-7)) None (str row.2) := row.1]>
                             contacts in
                         if 10 <=? len (str row.2)
                         then <[slice (Some (-10)) None (str row.2) := row.1]>
                                contacts
                         else contacts
                       else contacts) m rows !! k = Some n -> Q k n).
  { induction rows as [|[name ophone] rows IH]; intros m Hsub Hm;
      [exact Hm|].
    cbn [foldl]. apply IH; [intros r Hr; apply Hsub; now right|].
    cbn [fst snd]. cbv zeta.
    destruct (truthy ophone && (7 <=? len (str ophone))) eqn:E; [|exact Hm].
    apply andb_true_iff in E as [Ht E7].
    destruct ophone as [phone|]; [|discriminate].
    change (str (Some phone)) with phone in *.
    assert (Hrow : In (name, Some phone) (lc_phones db))
      by (apply Hsub; now left).
    assert (H7 : forall k n,
              <[slice (Some (-7)) None phone := name]> m !! k = Some n ->
              Q k n).
    { intros k n Hk. apply lookup_insert_Some in Hk as [[<- <-]|[_ Hk]];
        [|now apply Hm].
      apply Hdb. left. exists phone. split; [exact Hrow|]. left.
      split; [zbool|reflexivity]. }
    destruct (10 <=? len phone) eqn:E10; [|exact H7].
    intros k n Hk. apply lookup_insert_Some in Hk as [[<- <-]|[_ Hk]];
      [|now apply H7].
    apply Hdb. left. exists phone. split; [exact Hrow|]. right.
    split; [zbool|reflexivity]. }
  assert (Hemails : forall rows (m : gmap string string),
            (forall r, In r rows -> In r (lc_emails db)) ->
            (forall k n, m !! k = Some n -> Q k n) ->
            forall k n,
              foldl (fun contacts (row : string * option string) =>
                       if truthy row.2 then <[str row.2 := row.1]> contacts
                       else contacts) m rows !! k = Some n -> Q k n).
  { induction rows as [|[name oemail] rows IH]; intros m Hsub Hm;
      [exact Hm|].
    cbn [foldl]. apply IH; [intros r Hr; apply Hsub; now right|].
    cbn [fst snd]. destruct (truthy oemail) eqn:Ht; [|exact Hm].
    destruct oemail as [email|]; [|discriminate].
    change (str (Some email)) with email.
    intros k n Hk. apply lookup_insert_Some in Hk as [[<- <-]|[_ Hk]];
      [|now apply Hm].
    apply Hdb. right. split; [|apply Hsub; now left].
    intros ->. discriminate Ht. }
  intros Hm. apply Hemails; [auto|]. apply Hphones; auto.
Qed.

End Loading.

Section Loaded.
Import LocalBrief.

(** Every entry of the loaded directory was stored by a row of one of
    the address books. *)
Lemma load_contacts_sound (dbs : list ContactRows) (k n : string) :
  load_contacts dbs !! k = Some n ->
  exists db, In db dbs /\ stored_by db k n.
Proof.
  unfold load_contacts.
  assert (H : forall l (m : gmap string string),
            (forall db, In db l -> In db dbs) ->
            (forall k n, m !! k = Some n ->
                         exists db, In db dbs /\ stored_by db k n) ->
            forall k n, foldl load_one m l !! k = Some n ->
                        exists db, In db dbs /\ stored_by db k n).
  { induction l as [|db l IH]; intros m Hsub Hm; [exact Hm|].
    cbn [foldl]. apply IH; [intros db' Hin; apply Hsub; now right|].
    apply load_one_sound; [|exact Hm].
    intros k' n' Hst. exists db. split; [apply Hsub; now left | exact Hst]. }
  apply (H dbs ∅); [auto|]. intros k' n' Hk. now rewrite lookup_empty in Hk.
Qed.

End Loaded.

(** X17. A name that [resolve_contact] finds in the loaded directory for
    a phone identifier comes from a row of an address book: the last 10
    or the last 7 digits of the identifier are the last 10 or last 7
    characters of the row's phone number, or the row's e-mail address.
    The identifier is no short code and no toll-free number. *)
Theorem resolved_phone_matches_row (dbs : list LocalBrief.ContactRows)
    (ident n : string) :
  contains "@" (strip ident) = false ->
  LocalBrief.resolve_contact (Some ident) (LocalBrief.load_contacts dbs) None
  = Some n ->
  let cleaned := digits_of ident in
  ~ (5 <= len cleaned <= 6)
  /\ (10 <= len cleaned ->
      LocalBrief.is_toll_free (slice (Some (-10)) (Some (-7)) cleaned) = false)
  /\ exists k db,
       In db dbs /\ stored_by db k n
       /\ ((10 <= len cleaned /\ k = slice (Some (-10)) None cleaned)
           \/ (7 <= len cleaned /\ k = slice (Some (-7)) None cleaned)).
Proof.
  intros Hat. unfold LocalBrief.resolve_contact, LocalBrief.tier, orelse.
  destruct (truthy (Some ident)); [|discriminate]. cbn [negb truthy andb].
  change (str (Some ident)) with ident. cbv zeta. rewrite Hat.
  rewrite digits_of_strip. set (cleaned := digits_of ident).
  destruct ((5 <=? len cleaned) && (len cleaned <=? 6)) eqn:E5;
    [discriminate|].
  destruct ((10 <=? len cleaned) && _) eqn:Etf; [discriminate|].
  intros H. split.
  { intros [H5 H6]. apply andb_false_iff in E5 as [E5|E5]; zbool. }
  split.
  { intros H10. apply andb_false_iff in Etf as [Etf|Etf]; [zbool|exact Etf]. }
  destruct (10 <=? len cleaned) eqn:E10.
  - destruct (LocalBrief.load_contacts dbs
                !! slice (Some (-10)) None cleaned) as [n'|] eqn:Ek.
    + injection H as ->. apply load_contacts_sound in Ek as (db & Hdb & Hst).
      exists (slice (Some (-10)) None cleaned), db.
      split; [exact Hdb|]. split; [exact Hst|]. left. split; [zbool|reflexivity].
    + destruct (7 <=? len cleaned) eqn:E7; [|discriminate].
      apply load_contacts_sound in H as (db & Hdb & Hst).
      exists (slice (Some (-7)) None cleaned), db.
      split; [exact Hdb|]. split; [exact Hst|]. right.
      split; [zbool|reflexivity].
  - destruct (7 <=? len cleaned) eqn:E7; [|discriminate].
    apply load_contacts_sound in H as (db & Hdb & Hst).
    exists (slice (Some (-7)) None cleaned), db.
    split; [exact Hdb|]. split; [exact Hst|]. right.
    split; [zbool|reflexivity].
Qed.

Lemma resolved_phone_matches_row_witness :
  exists k db,
    In db [ {| LocalBrief.lc_phones := [("Alice", Some "14155550100")];
               LocalBrief.lc_emails := [] |} ]
    /\ stored_by db k "Alice"
    /\ ((10 <= len (digits_of "+1 (415) 555-0100")
         /\ k = slice (Some (-10)) None (digits_of "+1 (415) 555-0100"))
        \/ (7 <= len (digits_of "+1 (415) 555-0100")
            /\ k = slice (Some (-7)) None (digits_of "+1 (415) 555-0100"))).
Proof.
  pose proof (resolved_phone_matches_row
                [ {| LocalBrief.lc_phones := [("Alice", Some "14155550100")];
                     LocalBrief.lc_emails := [] |} ]
                "+1 (415) 555-0100" "Alice" eq_refl eq_refl) as (_ & _ & H).
  exact H.
Defined.

(** * Further properties of the report *)

Section RestFields.
Import CallWrapped.

(** The fields of a returned report not listed so far. *)
Lemma analyze_calls_fields_rest (env : Env) (pc wc : list Call)
    (ts_start ts_end ts_jun : Z) (r : Report) :
  analyze_calls env pc wc ts_start ts_end ts_jun = Ok r ->
  let calls := all_calls pc wc in
  let total := Z.of_nat (length calls) in
  exists cs avgs,
    contact_stats env (phone_stats calls) = Ok cs
    /\ avg_durations cs = Ok avgs
    /\ speed_dialers r = take 5 avgs
    /\ marathon_talkers r
       = take 5 (Py.sorted (fun x y => Qle_bool y.1.2 x.1.2) avgs)
    /\ peak_day_of env calls = Ok (peak_day r)
    /\ busiest_day_of (daily_counts_of env calls) = Ok (busiest_day r)
    /\ monthly_counts r
       = count_by (fun _ => true) (fun c => month env (c_timestamp c)) calls
    /\ peak_of (monthly_counts r) "N/A" = Ok (busiest_month r)
    /\ avg_daily_of total (daily_counts_of env calls) = Ok (avg_daily r)
    /\ night_owls r
       = top5 (count_by (fun c => hour env (c_timestamp c) <? 5) c_name calls)
    /\ early_birds r
       = top5 (count_by (fun c => (6 <=? hour env (c_timestamp c))
                                  && (hour env (c_timestamp c) <=? 9))
                 c_name calls)
    /\ st_outgoing (stats r) = count_if c_outgoing calls
    /\ st_missed (stats r) = total - count_if c_answered calls
    /\ video_voice r
       = (count_if c_is_video calls, total - count_if c_is_video calls)
    /\ weekday_weekend r
       = (count_if (fun c => weekday env (c_timestamp c) <? 5) calls,
          total - count_if (fun c => weekday env (c_timestamp c) <? 5) calls).
Proof.
  intros H. unfold analyze_calls in H. cbv zeta in H.
  apply bind_ok_inv in H as (cs & Hcs & H).
  do 2 (apply bind_ok_inv in H as (? & _ & H)).
  apply bind_ok_inv in H as (pd & Hpd & H).
  apply bind_ok_inv in H as (? & _ & H).
  apply bind_ok_inv in H as (avgs & Havgs & H).
  apply bind_ok_inv in H as (bd & Hbd & H).
  apply bind_ok_inv in H as (bm & Hbm & H).
  apply bind_ok_inv in H as (ad & Had & H).
  do 4 (apply bind_ok_inv in H as (? & _ & H)).
  injection H as <-. cbv zeta. exists cs, avgs. cbn.
  repeat match goal with |- _ /\ _ => split end; auto.
Qed.

End RestFields.


Section Leaderboards.
Import CallWrapped.

Lemma top5_ranked (p : Call -> bool) (calls : list Call) :
  ranked 5 p calls (top5 (count_by p c_name calls)).
Proof.
  unfold ranked, top5. cbv zeta.
  set (d := count_by p c_name calls).
  destruct (take_sorted_desc_spec (snd : string * Z -> Z) 5 d)
    as (Hlen & Hs & Hsub & Hout).
  pose proof (count_by_NoDup p c_name calls) as Hnd. fold d in Hnd.
  split; [rewrite Hlen; lia|]. split.
  { rewrite map_take. apply NoDup_take.
    apply (Permutation_NoDup (l := map fst d)); [|exact Hnd].
    apply Permutation_map. symmetry. apply sorted_perm. }
  split; [exact Hs|]. split.
  - intros X n Hin. apply Hsub in Hin. apply count_by_In in Hin as [-> Hn].
    split; [reflexivity|lia].
  - intros X HX.
    assert (Hd : In (X, count_if (fun c => p c && bool_decide (c_name c = X))
                          calls) d)
      by (apply count_by_In; now split).
    destruct (Hout _ Hd) as [Hin|[Hfull Hle]]; [now left|].
    right. split; [exact Hfull|]. intros Y m Hm. exact (Hle _ Hm).
Qed.

(** A board for a predicate is a board for every predicate that agrees
    with it on the calls. *)
Lemma ranked_ext (limit : nat) (p q : Call -> bool) (calls : list Call)
    (top : list (string * Z)) :
  (forall c, p c = q c) -> ranked limit p calls top ->
  ranked limit q calls top.
Proof.
  intros Hpq. unfold ranked. cbv zeta.
  assert (E : forall X,
            count_if (fun c => q c && bool_decide (c_name c = X)) calls
            = count_if (fun c => p c && bool_decide (c_name c = X)) calls).
  { intros X. apply count_if_ext. intros c _. now rewrite Hpq. }
  intros (H1 & H2 & H3 & H4 & H5).
  split; [exact H1|]. split; [exact H2|]. split; [exact H3|]. split.
  - intros X n Hin. rewrite E. now apply H4.
  - intros X. rewrite E. apply H5.
Qed.

End Leaderboards.

(** X18. The five leaderboards of the report (night owls, early birds,
    missed-call kings, biggest fans and ghosts) each hold at most five
    names, one entry per name, in descending order of their counts;
    each count is the number of calls of that kind under the name and
    is at least 1; and a name left out of a board has no more such
    calls than any name on it, the board being full then. *)
Theorem leaderboards_ranked (env : Env) (pc wc : list CallWrapped.Call)
    (ts_start ts_end ts_jun : Z) :
  let calls := CallWrapped.all_calls pc wc in
  let hour_of c := hour env (CallWrapped.c_timestamp c) in
  exists r : CallWrapped.Report,
    CallWrapped.analyze_calls env pc wc ts_start ts_end ts_jun = Ok r
    /\ ranked 5 (fun c => hour_of c <? 5) calls (CallWrapped.night_owls r)
    /\ ranked 5 (fun c => (6 <=? hour_of c) && (hour_of c <=? 9)) calls
         (CallWrapped.early_birds r)
    /\ ranked 5 (fun c => negb (CallWrapped.c_answered c)
                          && negb (CallWrapped.c_outgoing c)) calls
         (CallWrapped.missed_kings r)
    /\ ranked 5 (fun c => negb (CallWrapped.c_outgoing c)) calls
         (CallWrapped.biggest_fans r)
    /\ ranked 5 (fun c => CallWrapped.missed_inbound c
                          && never_returned calls c) calls
         (CallWrapped.ghosts r).
Proof.
  intros calls hour_of.
  destruct (analyze_calls_total env pc wc ts_start ts_end ts_jun) as [r Hr].
  exists r. split; [exact Hr|].
  pose proof (analyze_calls_fields _ _ _ _ _ _ _ Hr)
    as (cs & times & _ & _ & _ & _ & _ & _ & _ & _ & Hmk & Hbf & _ & _ & Hg & _).
  pose proof (analyze_calls_fields_rest _ _ _ _ _ _ _ Hr)
    as (cs' & avgs & _ & _ & _ & _ & _ & _ & _ & _ & _ & Hno & Heb & _).
  rewrite Hno, Heb, Hmk, Hbf, Hg.
  repeat match goal with |- _ /\ _ => split end; try apply top5_ranked.
  unfold CallWrapped.ghost_counts. fold calls.
  eapply ranked_ext; [|apply top5_ranked].
  intros c. cbv beta. now rewrite is_nil_later_calls.
Qed.

Section TopContacts.
Import CallWrapped.

Lemma top_ten_profiles (key : string * ContactStats -> Z)
    (cs : dict string ContactStats) :
  List.NoDup (map fst cs) ->
  let top := take 10 (sorted_by_desc key cs) in
  length top = Nat.min 10 (length cs)
  /\ List.NoDup (map fst top)
  /\ StronglySorted (fun a b => key b <= key a) top
  /\ (forall e, In e top -> In e cs)
  /\ (forall e, In e cs ->
        In e top \/ forall y, In y top -> key e <= key y).
Proof.
  intros Hnd top. subst top.
  destruct (take_sorted_desc_spec key 10 cs) as (Hlen & Hs & Hsub & Hout).
  split; [exact Hlen|]. split.
  { rewrite map_take. apply NoDup_take.
    apply (Permutation_NoDup (l := map fst cs)); [|exact Hnd].
    apply Permutation_map. symmetry. apply sorted_perm. }
  split; [exact Hs|]. split; [exact Hsub|].
  intros e He. destruct (Hout e He) as [H|[_ H]]; auto.
Qed.

End TopContacts.

(** X19. The two top-contact lists of the report hold the ten published
    profiles with the most calls, and with the longest total duration:
    each list has ten entries, or all profiles when there are fewer,
    with distinct names, in descending order of its measure, and a
    profile left out does not exceed any profile listed. The number of
    unique contacts is the number of published profiles. *)
Theorem top_contacts_ranked (env : Env) (pc wc : list CallWrapped.Call)
    (ts_start ts_end ts_jun : Z) :
  let calls := CallWrapped.all_calls pc wc in
  let by_count (x : string * CallWrapped.ContactStats) :=
    CallWrapped.count x.2 in
  let by_duration (x : string * CallWrapped.ContactStats) :=
    CallWrapped.duration x.2 in
  exists (r : CallWrapped.Report)
         (cs : dict string CallWrapped.ContactStats),
    CallWrapped.analyze_calls env pc wc ts_start ts_end ts_jun = Ok r
    /\ CallWrapped.contact_stats env (CallWrapped.phone_stats calls) = Ok cs
    /\ CallWrapped.unique_contacts r = Z.of_nat (length cs)
    /\ (length (CallWrapped.top_count r) = Nat.min 10 (length cs)
        /\ List.NoDup (map fst (CallWrapped.top_count r))
        /\ StronglySorted (fun a b => by_count b <= by_count a)
             (CallWrapped.top_count r)
        /\ (forall e, In e (CallWrapped.top_count r) -> In e cs)
        /\ (forall e, In e cs ->
              In e (CallWrapped.top_count r)
              \/ forall y, In y (CallWrapped.top_count r) ->
                   by_count e <= by_count y))
    /\ (length (CallWrapped.top_duration r) = Nat.min 10 (length cs)
        /\ List.NoDup (map fst (CallWrapped.top_duration r))
        /\ StronglySorted (fun a b => by_duration b <= by_duration a)
             (CallWrapped.top_duration r)
        /\ (forall e, In e (CallWrapped.top_duration r) -> In e cs)
        /\ (forall e, In e cs ->
              In e (CallWrapped.top_duration r)
              \/ forall y, In y (CallWrapped.top_duration r) ->
                   by_duration e <= by_duration y)).
Proof.
  intros calls by_count by_duration.
  destruct (analyze_calls_total env pc wc ts_start ts_end ts_jun) as [r Hr].
  pose proof (analyze_calls_fields _ _ _ _ _ _ _ Hr)
    as (cs & times & Hcs & _ & _ & _ & _ & Htc & Htd & Hu & _).
  exists r, cs. split; [exact Hr|]. split; [exact Hcs|].
  split; [exact Hu|].
  assert (Hnd : List.NoDup (map fst cs)).
  { unfold CallWrapped.contact_stats in Hcs.
    destruct (contact_stats_loop env _ _ _ Hcs) as (I1 & _).
    apply I1. constructor. }
  rewrite Htc, Htd. split.
  - exact (top_ten_profiles by_count cs Hnd).
  - exact (top_ten_profiles by_duration cs Hnd).
Qed.

(** ** Busiest day, month and day of the week *)

Section Argmax.
Context {A K : Type} `{EqDecision K}.

Lemma count_all_In (key : A -> K) (l : list A) (k : K) (n : Z) :
  In (k, n) (count_by (fun _ => true) key l)
  <-> n = count_if (fun x => bool_decide (key x = k)) l /\ 0 < n.
Proof.
  rewrite (dict_get_In _ _ _ (count_by_NoDup _ key l)), count_by_get.
  cbv zeta. cbn [andb]. destruct (0 <? _) eqn:E; zbool.
  - split; [intros [= <-]; auto | intros [-> _]; reflexivity].
  - split; [discriminate | intros [-> H]; lia].
Qed.

(** The entry [max] picks from a counter of all elements. *)
Lemma argmax_count_by (key : A -> K) (l : list A) (kv : K * Z) :
  max_by snd (count_by (fun _ => true) key l) = Ok kv ->
  kv.2 = count_if (fun x => bool_decide (key x = kv.1)) l
  /\ 0 < kv.2
  /\ forall k, count_if (fun x => bool_decide (key x = k)) l <= kv.2.
Proof.
  intros Hm. apply max_by_spec in Hm as [Hin Hmax].
  destruct kv as [k n]. apply count_all_In in Hin as [Hn Hpos].
  cbn [fst snd] in *. split; [exact Hn|]. split; [exact Hpos|].
  intros k'.
  destruct (Z_lt_le_dec 0 (count_if (fun x => bool_decide (key x = k')) l))
    as [Hk|Hk]; [|lia].
  apply (Hmax (k', _)). apply count_all_In. now split.
Qed.

Lemma count_by_all_sum (key : A -> K) (l : list A) :
  dict_sum id (count_by (fun _ => true) key l) = Z.of_nat (length l).
Proof.
  pose proof (foldl_update_sum (V := Z) id key (fun _ n => n + 1) 0
                (fun _ => 1) l eq_refl (fun _ _ => eq_refl) []) as H.
  rewrite sum_ones in H. exact H.
Qed.

End Argmax.

(** X20. With at least one call, the busiest day of the report is a
    local day with its number of calls, which no day exceeds; the
    busiest month is a month no month has more calls than; and the peak
    day is the name of a day of the week no day of the week has more
    calls than. The busiest day is [None] exactly when there is no
    call, and the daily counts add up to the total number of calls. *)
Theorem busiest_periods (env : Env) (pc wc : list CallWrapped.Call)
    (ts_start ts_end ts_jun : Z) :
  let calls := CallWrapped.all_calls pc wc in
  let on_day d :=
    count_if (fun c => bool_decide (date env (CallWrapped.c_timestamp c) = d))
      calls in
  let in_month m :=
    count_if (fun c => bool_decide (month env (CallWrapped.c_timestamp c) = m))
      calls in
  let on_wday w :=
    count_if (fun c => bool_decide (wday env (CallWrapped.c_timestamp c) = w))
      calls in
  exists r : CallWrapped.Report,
    CallWrapped.analyze_calls env pc wc ts_start ts_end ts_jun = Ok r
    /\ dict_sum id (CallWrapped.daily_counts r)
       = CallWrapped.st_total (CallWrapped.stats r)
    /\ (CallWrapped.busiest_day r = None <-> pc ++ wc = [])
    /\ (forall d n, CallWrapped.busiest_day r = Some (d, n) ->
          n = on_day d /\ 0 < n /\ forall d', on_day d' <= n)
    /\ (pc ++ wc <> [] ->
        0 < in_month (CallWrapped.busiest_month r)
        /\ forall m, in_month m <= in_month (CallWrapped.busiest_month r))
    /\ (pc ++ wc <> [] ->
        exists w, 0 <= w < 7
          /\ CallWrapped.peak_day r = nth (Z.to_nat w) CallWrapped.days ""
          /\ 0 < on_wday w
          /\ forall w', on_wday w' <= on_wday w).
Proof.
  cbv zeta. set (calls := CallWrapped.all_calls pc wc).
  destruct (analyze_calls_total env pc wc ts_start ts_end ts_jun) as [r Hr].
  exists r. split; [exact Hr|].
  pose proof (analyze_calls_fields _ _ _ _ _ _ _ Hr)
    as (cs & times & _ & _ & _ & Htot & _ & _ & _ & _ & _ & _ & _ & _ & _
        & Hdaily & _).
  pose proof (analyze_calls_fields_rest _ _ _ _ _ _ _ Hr)
    as (cs' & avgs & _ & _ & _ & _ & Hpd & Hbd & Hmc & Hbm & _).
  fold calls in Htot, Hdaily, Hpd, Hbd, Hmc.
  pose proof (all_calls_nil pc wc) as Hnil. fold calls in Hnil.
  rewrite Hdaily, Htot.
  split; [apply count_by_all_sum|].
  unfold CallWrapped.busiest_day_of, CallWrapped.daily_counts_of in Hbd.
  split; [|split; [|split]].
  - clear Hbm Hpd. destruct (count_by _ _ calls) as [|kv0 d] eqn:Ed.
    + injection Hbd as <-. split; [intros _|reflexivity].
      apply Hnil. now apply count_by_all_nil in Ed.
    + apply bind_ok_inv in Hbd as (kv & _ & Hbd). injection Hbd as <-.
      split; [discriminate|]. intros He. apply Hnil in He.
      rewrite He in Ed. discriminate Ed.
  - clear Hbm Hpd. intros d n Hsome. rewrite Hsome in Hbd.
    destruct (count_by _ _ calls) as [|kv0 d0] eqn:Ed; [discriminate|].
    apply bind_ok_inv in Hbd as (kv & Hm & Hbd). injection Hbd as ->.
    rewrite <- Ed in Hm. apply argmax_count_by in Hm as (H1 & H2 & H3).
    cbn [fst snd] in *. auto.
  - clear Hbd Hpd. intros Hne. rewrite Hmc in Hbm.
    unfold CallWrapped.peak_of in Hbm.
    destruct (count_by _ _ calls) as [|kv0 d0] eqn:Ed.
    + exfalso. apply Hne, Hnil. now apply count_by_all_nil in Ed.
    + apply bind_ok_inv in Hbm as (kv & Hm & Hbm). injection Hbm as Hbm.
      rewrite <- Ed in Hm. apply argmax_count_by in Hm as (H1 & H2 & H3).
      rewrite Hbm in H1. rewrite <- H1. auto.
  - clear Hbd Hbm. intros Hne. unfold CallWrapped.peak_day_of in Hpd.
    destruct (count_by _ _ calls) as [|kv0 d0] eqn:Ed.
    + exfalso. apply Hne, Hnil. now apply count_by_all_nil in Ed.
    + apply bind_ok_inv in Hpd as (kv & Hm & Hpd). injection Hpd as Hpd.
      rewrite <- Ed in Hm. apply argmax_count_by in Hm as (H1 & H2 & H3).
      exists kv.1. rewrite <- H1.
      split; [|split; [now symmetry|split; [exact H2|exact H3]]].
      rewrite H1 in H2. apply count_if_pos_exists in H2 as (c & _ & Hc).
      apply bool_decide_eq_true in Hc. rewrite <- Hc. unfold wday.
      apply Z.mod_pos_bound. lia.
Qed.

(** ** Quiet days *)

Section QuietDays.
Import CallWrapped.

(** Distinct integers of a range are no more than the range holds. *)
Lemma NoDup_range_length (l : list Z) (a n : Z) :
  0 <= n -> List.NoDup l -> (forall x, In x l -> a <= x < a + n) ->
  Z.of_nat (length l) <= n.
Proof.
  intros Hn Hnd Hl.
  assert (Hincl : incl l (map (fun i => a + Z.of_nat i) (seq 0 (Z.to_nat n)))).
  { intros x Hx. specialize (Hl x Hx). apply in_map_iff.
    exists (Z.to_nat (x - a)). split; [lia|]. apply in_seq. lia. }
  apply NoDup_incl_length in Hincl; [|exact Hnd].
  rewrite length_map, length_seq in Hincl. lia.
Qed.

Lemma daily_counts_within (env : Env) (calls : list Call) (lo hi : Z) :
  (forall c, In c calls -> lo <= date env (c_timestamp c) <= hi) ->
  lo <= hi + 1 ->
  Z.of_nat (length (daily_counts_of env calls)) <= hi - lo + 1.
Proof.
  intros Hc Hle. unfold daily_counts_of.
  rewrite <- (length_map fst).
  apply (NoDup_range_length _ lo); [lia|apply count_by_NoDup|].
  intros d Hd. apply in_map_iff in Hd as ([d' n] & <- & Hin).
  apply count_all_In in Hin as [-> Hpos].
  apply count_if_pos_exists in Hpos as (c & Hcin & Hcd).
  apply bool_decide_eq_true in Hcd. cbn [fst]. rewrite <- Hcd.
  specialize (Hc c Hcin). lia.
Qed.

End QuietDays.

(** X21. When the period starts at a local midnight that is not after
    its end or the present, and every call falls between the start and
    the earlier of the end and the present, the number of quiet days is
    not negative, and together with the number of days that have a call
    it makes up the days of the period. *)
Theorem quiet_days_nonneg (env : Env) (pc wc : list CallWrapped.Call)
    (ts_start ts_end ts_jun : Z) :
  let year_start := localtime env ts_start in
  let year_end := Z.min (localtime env ts_end) (localtime env (clock env)) in
  year_start mod 86400 = 0 ->
  year_start <= year_end ->
  (forall c, In c (pc ++ wc) ->
             year_start <= localtime env (CallWrapped.c_timestamp c)
             <= year_end) ->
  exists r : CallWrapped.Report,
    CallWrapped.analyze_calls env pc wc ts_start ts_end ts_jun = Ok r
    /\ 0 <= CallWrapped.quiet_days r
    /\ CallWrapped.quiet_days r
       + Z.of_nat (length (CallWrapped.daily_counts r))
       = (year_end - year_start) / 86400 + 1.
Proof.
  intros year_start year_end Hmid Hle Hcalls.
  destruct (analyze_calls_total env pc wc ts_start ts_end ts_jun) as [r Hr].
  exists r. split; [exact Hr|].
  pose proof (analyze_calls_fields _ _ _ _ _ _ _ Hr)
    as (cs & times & _ & _ & _ & _ & _ & _ & _ & _ & _ & _ & _ & _ & _
        & Hdaily & Hq).
  rewrite Hq, Hdaily. unfold CallWrapped.quiet_days_of. cbv zeta.
  fold year_start year_end.
  set (calls := CallWrapped.all_calls pc wc).
  assert (Hs : year_start = 86400 * (year_start / 86400)).
  { rewrite (Z.div_mod year_start 86400) at 1 by lia. lia. }
  assert (Hd : (year_end - year_start) / 86400
               = year_end / 86400 - year_start / 86400).
  { rewrite Hs at 1.
    replace (year_end - 86400 * (year_start / 86400))
      with (year_end + - (year_start / 86400) * 86400) by lia.
    rewrite Z.div_add by lia. lia. }
  assert (Hlen : Z.of_nat (length (CallWrapped.daily_counts_of env calls))
                 <= year_end / 86400 - year_start / 86400 + 1).
  { apply daily_counts_within.
    - intros c Hc. apply all_calls_In in Hc. rewrite <- in_app_iff in Hc.
      destruct (Hcalls c Hc) as [H1 H2]. unfold date. split.
      + apply Z.div_le_mono; [lia|exact H1].
      + apply Z.div_le_mono; [lia|exact H2].
    - pose proof (Z.div_le_mono year_start year_end 86400 ltac:(lia) Hle).
      lia. }
  split; lia.
Qed.

Lemma quiet_days_nonneg_witness :
  exists r : CallWrapped.Report,
    CallWrapped.analyze_calls (utc_env TS_2025_END)
      [phone_call "Sam" None 60 (TS_2025_START + 100) true true] []
      TS_2025_START TS_2025_END TS_JUN_2025 = Ok r
    /\ 0 <= CallWrapped.quiet_days r.
Proof.
  destruct (quiet_days_nonneg (utc_env TS_2025_END)
              [phone_call "Sam" None 60 (TS_2025_START + 100) true true] []
              TS_2025_START TS_2025_END TS_JUN_2025)
    as (r & Hr & Hq & _).
  - reflexivity.
  - vm_compute. discriminate.
  - intros c [<-|[]]. vm_compute. split; discriminate.
  - exists r. split; [exact Hr|exact Hq].
Defined.

(** ** Average calls per day *)

Section AvgDaily.
Import CallWrapped.

Lemma dict_sum_length {K : Type} (d : dict K Z) :
  (forall kv, In kv d -> 1 <= kv.2) ->
  Z.of_nat (length d) <= dict_sum id d.
Proof.
  induction d as [|kv d IH]; intros H; [reflexivity|].
  cbn [length dict_sum foldr]. fold (dict_sum id d). unfold id at 1.
  specialize (H kv (or_introl eq_refl)) as H1.
  specialize (IH (fun kv' Hin => H kv' (or_intror Hin))). lia.
Qed.

Lemma daily_counts_length (env : Env) (calls : list Call) :
  Z.of_nat (length (daily_counts_of env calls)) <= Z.of_nat (length calls).
Proof.
  unfold daily_counts_of. rewrite <- (count_by_all_sum
    (fun c => date env (c_timestamp c)) calls).
  apply dict_sum_length. intros [d n] Hin.
  apply count_all_In in Hin as [_ Hpos]. cbn. lia.
Qed.

(** The float quotient of two counts, rounded to one decimal, is at
    least 1 when the quotient is, and at most the dividend when that is
    a float. *)
Lemma round1_ratio_bounds (t n : Z) :
  1 <= n <= t ->
  (1 <= round1 (to_float (inject_Z t / inject_Z n)))%Q
  /\ (t < 2 ^ 53 ->
      (round1 (to_float (inject_Z t / inject_Z n)) <= inject_Z t)%Q).
Proof.
  intros Hn.
  assert (Hpos : (0 < inject_Z n)%Q).
  { change 0%Q with (inject_Z 0). rewrite <- Zlt_Qlt. lia. }
  assert (Hnt : (inject_Z n <= inject_Z t)%Q) by (rewrite <- Zle_Qle; lia).
  assert (H10 : (0 < inject_Z 10)%Q) by reflexivity.
  assert (Hone : to_float (1 # 1) = (1 # 1)%Q) by (vm_compute; reflexivity).
  set (x := to_float (inject_Z t / inject_Z n)).
  assert (Hx1 : (1 <= x)%Q).
  { rewrite <- Hone. apply to_float_mono.
    apply Qle_shift_div_l; [exact Hpos|]. lra. }
  unfold round1. split.
  - rewrite <- Hone at 1. apply to_float_mono.
    apply Qle_shift_div_l; [exact H10|].
    change (1 * inject_Z 10)%Q with (inject_Z 10). rewrite <- Zle_Qle.
    assert (Hr : round (inject_Z 10) <= round (x * inject_Z 10)).
    { apply round_mono. change (inject_Z 10) with (10 # 1). lra. }
    now rewrite round_inject_Z in Hr.
  - intros Ht.
    assert (Hft : (to_float (inject_Z t) == inject_Z t)%Q)
      by (apply to_float_inject_Z; lia).
    assert (Hx2 : (x <= inject_Z t)%Q).
    { rewrite <- Hft. apply to_float_mono.
      apply Qle_shift_div_r; [exact Hpos|].
      rewrite <- inject_Z_mult, <- Zle_Qle. nia. }
    rewrite <- Hft. apply to_float_mono.
    apply Qle_shift_div_r; [exact H10|].
    rewrite <- inject_Z_mult, <- Zle_Qle.
    assert (Hr : round (x * inject_Z 10) <= round (inject_Z (t * 10))).
    { apply round_mono. rewrite inject_Z_mult.
      change (inject_Z 10) with (10 # 1). lra. }
    now rewrite round_inject_Z in Hr.
Qed.

End AvgDaily.

(** X22. The average number of calls per day is 0 without calls;
    otherwise it is at least 1, as it is taken over the days that have
    a call, and, when the number of calls is below [2^53], at most that
    number. *)
Theorem avg_daily_bounds (env : Env) (pc wc : list CallWrapped.Call)
    (ts_start ts_end ts_jun : Z) :
  exists r : CallWrapped.Report,
    CallWrapped.analyze_calls env pc wc ts_start ts_end ts_jun = Ok r
    /\ (pc ++ wc = [] -> CallWrapped.avg_daily r = (0 # 1)%Q)
    /\ (pc ++ wc <> [] -> (1 <= CallWrapped.avg_daily r)%Q)
    /\ (pc ++ wc <> [] ->
        CallWrapped.st_total (CallWrapped.stats r) < 2 ^ 53 ->
        (CallWrapped.avg_daily r
         <= inject_Z (CallWrapped.st_total (CallWrapped.stats r)))%Q).
Proof.
  destruct (analyze_calls_total env pc wc ts_start ts_end ts_jun) as [r Hr].
  exists r. split; [exact Hr|].
  pose proof (analyze_calls_fields _ _ _ _ _ _ _ Hr)
    as (cs & times & _ & _ & _ & Htot & _).
  pose proof (analyze_calls_fields_rest _ _ _ _ _ _ _ Hr)
    as (cs' & avgs & _ & _ & _ & _ & _ & _ & _ & _ & Had & _).
  set (calls := CallWrapped.all_calls pc wc) in *.
  pose proof (all_calls_nil pc wc) as Hnil. fold calls in Hnil.
  pose proof (daily_counts_length env calls) as Hlen.
  unfold CallWrapped.avg_daily_of, CallWrapped.daily_counts_of in Had, Hlen.
  destruct (count_by _ _ calls) as [|kv0 d] eqn:Ed.
  - injection Had as <-. split; [reflexivity|].
    split; intros Hne; exfalso; apply Hne, Hnil;
      now apply count_by_all_nil in Ed.
  - rewrite float_div_ok in Had by (cbn [length]; lia).
    cbn [bind] in Had. injection Had as <-. rewrite Htot.
    destruct (round1_ratio_bounds (Z.of_nat (length calls))
                (Z.of_nat (length (kv0 :: d)))
                ltac:(cbn [length] in *; lia)) as [H1 H2].
    split; [|split].
    + intros He. apply Hnil in He. rewrite He in Ed. discriminate Ed.
    + intros _. exact H1.
    + intros _. exact H2.
Qed.

(** * Further properties of the directory of [call_wrapped.py] *)

Section Suffixes.

Lemma substring_empty (n m : nat) : substring n m "" = "".
Proof. now destruct n, m. Qed.

Lemma substring_substring (s : string) : forall c d a b : nat,
  (a + b <= d)%nat ->
  substring a b (substring c d s) = substring (c + a) b s.
Proof.
  induction s as [|x s IH]; intros c d a b H.
  - now rewrite !substring_empty.
  - destruct c as [|c]; [|exact (IH c d a b H)].
    destruct d as [|d].
    + assert (a = 0%nat) as -> by lia. assert (b = 0%nat) as -> by lia.
      reflexivity.
    + cbn [substring Nat.add]. destruct a as [|a].
      * destruct b as [|b]; [reflexivity|]. cbn [substring]. f_equal.
        apply (IH 0%nat d 0%nat b). lia.
      * cbn [substring]. apply (IH 0%nat d a b). lia.
Qed.

(** The last [m] characters of the last [n] are the last [m]. *)
Lemma slice_last_last (m n : Z) (s : string) :
  0 < m <= n -> n <= len s ->
  slice (Some (- m)) None (slice (Some (- n)) None s)
  = slice (Some (- m)) None s.
Proof.
  intros Hm Hn.
  assert (Hl : len (slice (Some (- n)) None s) = n)
    by (apply len_slice_last; lia).
  unfold slice at 1. rewrite Hl. cbv zeta.
  destruct (- m <? 0) eqn:E1; [|zbool].
  rewrite Z.max_l by lia.
  destruct (n + - m <? n) eqn:E2; [|zbool].
  unfold slice. cbv zeta.
  destruct (- n <? 0) eqn:E3; [|zbool]. rewrite E1.
  rewrite !Z.max_l by lia.
  destruct (len s + - n <? len s) eqn:E4; [|zbool].
  destruct (len s + - m <? len s) eqn:E5; [|zbool].
  rewrite substring_substring by lia. f_equal; lia.
Qed.

End Suffixes.

Section Provenance.
Import CallWrapped.

Lemma add_contact_sound (name phone : string) (m : gmap string string)
    (k n : string) :
  add_contact m name phone !! k = Some n ->
  (In k (contact_keys phone) /\ n = name) \/ m !! k = Some n.
Proof.
  unfold add_contact. generalize (contact_keys phone). intros ks. revert m.
  induction ks as [|a ks IH]; intros m H; [now right|].
  cbn [foldl] in H. destruct (IH _ H) as [[Hin ->]|Hm].
  - left. split; [now right|reflexivity].
  - apply lookup_insert_Some in Hm as [[<- <-]|[_ Hm]].
    + left. split; [now left|reflexivity].
    + now right.
Qed.

(** Every entry of the directory was stored for a row, under one of the
    keys of the row's number. *)
Lemma extract_contacts_sound (rows : list (string * string)) (k n : string) :
  extract_contacts rows !! k = Some n ->
  exists phone, In (n, phone) rows /\ In k (contact_keys phone).
Proof.
  unfold extract_contacts.
  assert (H : forall (l : list (string * string)) (m : gmap string string),
            (forall r, In r l -> In r rows) ->
            (forall k n, m !! k = Some n ->
               exists phone, In (n, phone) rows /\ In k (contact_keys phone)) ->
            forall k n, foldl (fun m r => add_contact m r.1 r.2) m l !! k
                        = Some n ->
               exists phone, In (n, phone) rows /\ In k (contact_keys phone)).
  { induction l as [|[name phone] l IH]; intros m Hsub Hm; [exact Hm|].
    cbn [foldl]. apply IH; [intros r Hr; apply Hsub; now right|].
    intros k' n' Hk. cbn [fst snd] in Hk.
    apply add_contact_sound in Hk as [[Hin ->]|Hk]; [|now apply Hm].
    exists phone. split; [apply Hsub; now left | exact Hin]. }
  apply (H rows ∅); [auto|]. intros k' n' Hk. now rewrite lookup_empty in Hk.
Qed.

(** The key under which [get_name] finds a name. *)
Lemma get_name_key (phone : string) (contacts : gmap string string)
    (n : string) :
  get_name (Some phone) contacts = Some n ->
  let d := digits_of phone in
  exists k, contacts !! k = Some n
    /\ (k = d
        \/ (10 <= len d /\ k = slice (Some (-10)) None d)
        \/ (7 <= len d /\ k = slice (Some (-7)) None d)).
Proof.
  unfold get_name, tier, orelse. cbv zeta.
  destruct (negb (truthy (Some phone))); [discriminate|].
  change (str (Some phone)) with phone. set (d := digits_of phone).
  destruct (_ && _); [discriminate|].
  destruct (_ && _); [discriminate|].
  destruct (contacts !! d) eqn:E1; [intros [= <-]; eauto|].
  assert (Htail : forall r,
    match (if 10 <=? len d
           then contacts !! slice (Some (-10)) None d else None) with
    | Some _ => if 10 <=? len d
                then contacts !! slice (Some (-10)) None d else None
    | None => if 7 <=? len d
              then contacts !! slice (Some (-7)) None d else None
    end = Some r ->
    exists k, contacts !! k = Some r
      /\ (k = d
          \/ (10 <= len d /\ k = slice (Some (-10)) None d)
          \/ (7 <= len d /\ k = slice (Some (-7)) None d))).
  { intros r. destruct (10 <=? len d) eqn:E10.
    - destruct (contacts !! slice (Some (-10)) None d) eqn:E3.
      + intros [= <-]. eexists. split; [exact E3|]. right. left.
        split; [zbool|reflexivity].
      + destruct (7 <=? len d) eqn:E7; [|discriminate].
        intros H. eexists. split; [exact H|]. right. right.
        split; [zbool|reflexivity].
    - destruct (7 <=? len d) eqn:E7; [|discriminate].
      intros H. eexists. split; [exact H|]. right. right.
      split; [zbool|reflexivity]. }
  destruct ((len d =? 11) && startswith "1" d) eqn:E11; [|apply Htail].
  apply andb_true_iff in E11 as [E11 _]. apply Z.eqb_eq in E11.
  destruct (contacts !! slice (Some 1) None d) eqn:E2; [|apply Htail].
  intros [= <-]. eexists. split; [exact E2|]. right. left.
  split; [lia|]. now apply slice_tail_eleven.
Qed.

(** The keys stored for a number. *)
Lemma contact_keys_In (phone k : string) :
  In k (contact_keys phone) ->
  let d := digits_of phone in
  k = d
  \/ (10 <= len d /\ k = slice (Some (-10)) None d)
  \/ (7 <= len d /\ k = slice (Some (-7)) None d).
Proof.
  unfold contact_keys. cbv zeta. set (d := digits_of phone).
  destruct (negb (truthy (Some d))); [intros []|].
  intros [<-|Hin]; [now left|]. cbn [app] in Hin.
  apply in_app_or in Hin as [Hin|Hin].
  { destruct (10 <=? len d) eqn:E; [|destruct Hin].
    simpl in Hin. destruct Hin as [<-|Hf]; [|destruct Hf]. right. left. split; [zbool|reflexivity]. }
  apply in_app_or in Hin as [Hin|Hin].
  { destruct (7 <=? len d) eqn:E; [|destruct Hin].
    simpl in Hin. destruct Hin as [<-|Hf]; [|destruct Hf]. right. right. split; [zbool|reflexivity]. }
  destruct ((len d =? 11) && startswith "1" d) eqn:E; [|destruct Hin].
  apply andb_true_iff in E as [E _]. apply Z.eqb_eq in E.
  simpl in Hin. destruct Hin as [<-|Hf]; [|destruct Hf]. right. left.
  split; [lia|]. now apply slice_tail_eleven.
Qed.

(** Two digit strings that share a key are equal or have the same last
    seven digits. *)
Lemma shared_key_suffix (d d' k : string) :
  (k = d
   \/ (10 <= len d /\ k = slice (Some (-10)) None d)
   \/ (7 <= len d /\ k = slice (Some (-7)) None d)) ->
  (k = d'
   \/ (10 <= len d' /\ k = slice (Some (-10)) None d')
   \/ (7 <= len d' /\ k = slice (Some (-7)) None d')) ->
  d = d'
  \/ (7 <= len d /\ 7 <= len d'
      /\ slice (Some (-7)) None d = slice (Some (-7)) None d').
Proof.
  assert (H10 : forall s, 10 <= len s ->
            len (slice (Some (-10)) None s) = 10
            /\ slice (Some (-7)) None (slice (Some (-10)) None s)
               = slice (Some (-7)) None s).
  { intros s Hs. split; [apply (len_slice_last 10); lia|].
    apply (slice_last_last 7 10); lia. }
  assert (H7 : forall s, 7 <= len s ->
            len (slice (Some (-7)) None s) = 7
            /\ slice (Some (-7)) None (slice (Some (-7)) None s)
               = slice (Some (-7)) None s).
  { intros s Hs. split; [apply (len_slice_last 7); lia|].
    apply (slice_last_last 7 7); lia. }
  intros [->|[[Hd ->]|[Hd ->]]] [E|[[Hd' E]|[Hd' E]]].
  - now left.
  - right. destruct (H10 d' Hd') as [Hl Hs]. rewrite E, Hl, Hs.
    repeat split; lia.
  - right. destruct (H7 d' Hd') as [Hl Hs]. rewrite E, Hl, Hs.
    repeat split; lia.
  - right. destruct (H10 d Hd) as [Hl Hs]. rewrite <- E, Hl, Hs.
    repeat split; lia.
  - right. destruct (H10 d Hd) as [_ Hs], (H10 d' Hd') as [_ Hs'].
    rewrite <- Hs, <- Hs', E. repeat split; lia.
  - exfalso. destruct (H10 d Hd) as [Hl _], (H7 d' Hd') as [Hl' _].
    rewrite E in Hl. lia.
  - right. destruct (H7 d Hd) as [Hl Hs]. rewrite <- E, Hl, Hs.
    repeat split; lia.
  - exfalso. destruct (H7 d Hd) as [Hl _], (H10 d' Hd') as [Hl' _].
    rewrite E in Hl. lia.
  - right. repeat split; auto.
Qed.

End Provenance.

(** X23. A name that [get_name] finds in the directory built by
    [extract_contacts] is the name of a row whose phone number has the
    same digits as the number looked up, or at least seven digits of
    which the last seven are those of the number looked up. *)
Theorem resolved_name_shares_suffix (rows : list (string * string))
    (phone n : string) :
  CallWrapped.get_name (Some phone) (CallWrapped.extract_contacts rows)
  = Some n ->
  exists stored : string,
    In (n, stored) rows
    /\ (digits_of phone = digits_of stored
        \/ (7 <= len (digits_of phone) /\ 7 <= len (digits_of stored)
            /\ slice (Some (-7)) None (digits_of phone)
               = slice (Some (-7)) None (digits_of stored))).
Proof.
  intros H. apply get_name_key in H as (k & Hk & Hlook).
  apply extract_contacts_sound in Hk as (stored & Hrow & Hkeys).
  exists stored. split; [exact Hrow|].
  apply contact_keys_In in Hkeys.
  exact (shared_key_suffix _ _ k Hlook Hkeys).
Qed.

Lemma resolved_name_shares_suffix_witness :
  exists stored : string,
    In ("Alice", stored) [("Alice", "+1 (415) 555-0100")]
    /\ (digits_of "415-555-0100" = digits_of stored
        \/ (7 <= len (digits_of "415-555-0100") /\ 7 <= len (digits_of stored)
            /\ slice (Some (-7)) None (digits_of "415-555-0100")
               = slice (Some (-7)) None (digits_of stored))).
Proof.
  apply (resolved_name_shares_suffix [("Alice", "+1 (415) 555-0100")]
           "415-555-0100" "Alice").
  reflexivity.
Defined.

(** * The resolvers side by side *)

(** X24. For a handle that is a phone number, the message resolvers of
    [combined_wrapped.py] and [people_wrapped.py] return every name the
    call resolver of [call_wrapped.py] finds in the same directory; they
    differ from it only where it gives up: on short codes, toll-free
    numbers and numbers that match no key, where they return a name
    found by the same keys or the handle itself. *)
Theorem message_resolvers_extend_get_name (handle : string)
    (contacts : gmap string string) :
  contains "@" handle = false ->
  CombinedWrapped.get_name_imessage handle contacts
  = PeopleWrapped.get_name_imessage handle contacts
  /\ (forall n, CallWrapped.get_name (Some handle) contacts = Some n ->
        CombinedWrapped.get_name_imessage handle contacts = n)
  /\ (CombinedWrapped.get_name_imessage handle contacts = handle
      \/ exists k, contacts !! k = Some
                     (CombinedWrapped.get_name_imessage handle contacts)).
Proof.
  intros Hat. split; [reflexivity|].
  unfold CombinedWrapped.get_name_imessage, CallWrapped.get_name.
  rewrite Hat. unfold CombinedWrapped.tier, CallWrapped.tier, orelse.
  cbv zeta. split.
  - intros n. destruct (negb (truthy (Some handle))); [discriminate|].
    change (str (Some handle)) with handle.
    destruct (_ && _); [discriminate|].
    destruct (_ && _); [discriminate|].
    intros ->. reflexivity.
  - set (d := digits_of handle).
    destruct (contacts !! d) eqn:E1; [right; eauto|].
    destruct ((len d =? 11) && startswith "1" d);
      [destruct (contacts !! slice (Some 1) None d) eqn:E2; [right; eauto|]|];
      (destruct (10 <=? len d);
       [destruct (contacts !! slice (Some (-10)) None d) eqn:E3;
          [right; eauto|]|]);
      (destruct (7 <=? len d);
       [destruct (contacts !! slice (Some (-7)) None d) eqn:E4;
          [right; eauto|]|]);
      now left.
Qed.

Lemma message_resolvers_extend_get_name_witness :
  CombinedWrapped.get_name_imessage "+1 (415) 555-0100" alice_directory
  = PeopleWrapped.get_name_imessage "+1 (415) 555-0100" alice_directory.
Proof.
  pose proof (message_resolvers_extend_get_name "+1 (415) 555-0100"
                alice_directory eq_refl) as [H _].
  exact H.
Defined.

Section Formatting.

Lemma length_of_len (s : string) (n : nat) :
  len s = Z.of_nat n -> String.length s = n.
Proof. unfold len. lia. Qed.

Lemma contains_truthy (c : ascii) (s : string) :
  contains c s = true -> truthy (Some s) = true.
Proof. now destruct s. Qed.

Lemma append_empty_l (s : string) : "" +:+ s = s.
Proof. reflexivity. Qed.

Lemma digits_of_app (a b : string) :
  digits_of (a +:+ b) = digits_of a +:+ digits_of b.
Proof.
  induction a as [|c a IH]; [reflexivity|]. simpl.
  destruct (is_digit c); simpl; now rewrite IH.
Qed.

End Formatting.

(** Evaluates the slices of a string whose characters are known. *)
Ltac eval_slices :=
  repeat match goal with
         | |- context [slice ?lo ?hi ?s] =>
             let v := eval vm_compute in (slice lo hi s) in
             change (slice lo hi s) with v
         end.

(** Splits a string of known length into its characters. *)
Ltac peel H :=
  match type of H with
  | String.length ?p = S _ =>
      destruct p as [|? ?]; [discriminate H|];
      cbn [String.length] in H; apply Nat.succ_inj in H
  | String.length ?p = O =>
      destruct p as [|? ?]; [clear H|discriminate H]
  end.

(** X25. When a WhatsApp address with an [@] has no push name, the name
    [get_name_whatsapp] makes up from its number has exactly the digits
    of the number, in the same order: the formatting adds and loses
    none. *)
Theorem whatsapp_fallback_keeps_digits (jid : string)
    (contacts : gmap string string) :
  contacts !! jid = None -> contains "@" jid = true ->
  exists name,
    CombinedWrapped.get_name_whatsapp (Some jid) contacts = Some name
    /\ digits_of name = digits_of (before "@" jid).
Proof.
  intros Hno Hat. unfold CombinedWrapped.get_name_whatsapp.
  rewrite (contains_truthy _ _ Hat). cbn [negb].
  change (str (Some jid)) with jid. cbv zeta. rewrite Hno, Hat.
  set (phone := before "@" jid). clearbody phone.
  destruct (len phone =? 10) eqn:E10.
  - eexists. split; [reflexivity|].
    apply Z.eqb_eq in E10. apply (length_of_len phone 10) in E10.
    do 11 peel E10. eval_slices. rewrite !digits_of_app.
    change (digits_of "(") with "". change (digits_of ") ") with "".
    change (digits_of "-") with "". rewrite !append_empty_l.
    rewrite <- !digits_of_app. reflexivity.
  - destruct ((len phone =? 11) && startswith "1" phone) eqn:E11.
    + eexists. split; [reflexivity|].
      apply andb_true_iff in E11 as [E11 Hone].
      apply Z.eqb_eq in E11. apply (length_of_len phone 11) in E11.
      do 12 peel E11.
      unfold startswith in Hone. cbn in Hone.
      match type of Hone with
      | (if ?b then _ else _) = true => destruct b as [<-|]; [|discriminate]
      end.
      eval_slices. rewrite !digits_of_app.
      change (digits_of "+1 (") with "1". change (digits_of ") ") with "".
      change (digits_of "-") with "". rewrite !append_empty_l.
      rewrite <- !digits_of_app. reflexivity.
    + eexists. split; [reflexivity|]. reflexivity.
Qed.

Lemma whatsapp_fallback_keeps_digits_witness :
  exists name,
    CombinedWrapped.get_name_whatsapp
      (Some "14155550100@s.whatsapp.net") ∅ = Some name
    /\ digits_of name = digits_of (before "@" "14155550100@s.whatsapp.net").
Proof.
  apply (whatsapp_fallback_keeps_digits "14155550100@s.whatsapp.net" ∅);
    reflexivity.
Defined.
